(** * Navigation and camera control of the solar-system viewer

  A shallow embedding of the TypeScript sources

    - [src/utils/math.ts]            ([lerp], [clamp], [damp]),
    - [src/utils/units.ts]           ([auToSimulation], [kmToSimulation]),
    - [src/scene/createSolarSystem.ts] ([createPlanet], [updateSolarSystem]),
    - [src/controls/flightControls.ts] ([FlightControls]),
    - [src/controls/focusControls.ts]  ([FocusControls]),
    - [src/main.ts]                  ([CosmosApp.animate]),

  together with the few routines of three.js they call.

  Numbers.  A JavaScript [number] is modelled by a real number: rounding,
  overflow and NaN are outside the model.  The one place where the source
  divides by a quantity that its own guard shows may be zero (the spin of a
  body, [1 / rotationPeriod]) is modelled with [jsnum], which has a
  non-finite value.  The orbital angle [time / orbitPeriod] is a real
  division; statements about positions carry [orbitPeriod <> 0].

  Objects.  A [PlanetData] object is shared between the solar system and the
  focus controller; the controller therefore holds a [BodyRef] (a path into
  the planet list) and every read goes through the current planet list. *)

From Stdlib Require Import Reals Lra Lia List Bool String Arith ZArith.
Import ListNotations.

Open Scope R_scope.

(* ------------------------------------------------------------------ *)
(** * JavaScript numbers that may leave the finite range *)

Module JS.

(** [Fin r] is the finite number [r]; [NonFinite] stands for the values
    [Infinity], [-Infinity] and [NaN], which absorb every later addition
    and multiplication by a non-zero constant. *)
Inductive jsnum : Type :=
| Fin (r : R)
| NonFinite.

(** [1 / x]: finite unless [x] is zero. *)
Definition recip (x : R) : jsnum :=
  if Req_dec_T x 0 then NonFinite else Fin (1 / x).

Definition add (a b : jsnum) : jsnum :=
  match a, b with
  | Fin x, Fin y => Fin (x + y)
  | _, _ => NonFinite
  end.

(** Multiplication by a finite, non-zero literal. *)
Definition scale (a : jsnum) (k : R) : jsnum :=
  match a with
  | Fin x => Fin (x * k)
  | NonFinite => NonFinite
  end.

Definition isFinite (a : jsnum) : bool :=
  match a with Fin _ => true | NonFinite => false end.

(** [Math.atan2 (y, x)] on finite arguments. *)
Definition atan2 (y x : R) : R :=
  if Rlt_dec 0 x then atan (y / x)
  else if Rlt_dec x 0 then
         (if Rle_dec 0 y then atan (y / x) + PI else atan (y / x) - PI)
       else if Rlt_dec 0 y then PI / 2
            else if Rlt_dec y 0 then - (PI / 2)
                 else 0.

(** [a < b] as a boolean test. *)
Definition ltb (a b : R) : bool := if Rlt_dec a b then true else false.

End JS.

(* ------------------------------------------------------------------ *)
(** * [src/utils/math.ts] *)

Module MathUtils.

(** [lerp (start, end, t)]. *)
Definition lerp (start end_ t : R) : R := start + (end_ - start) * t.

(** [clamp (value, min, max) = Math.max (min, Math.min (max, value))]. *)
Definition clamp (value min max : R) : R := Rmax min (Rmin max value).

(** [damp (current, target, smoothTime, deltaTime)]. *)
Definition damp (current target smoothTime deltaTime : R) : R :=
  lerp current target (1 - exp (- deltaTime / smoothTime)).

End MathUtils.

(* ------------------------------------------------------------------ *)
(** * [src/utils/units.ts] *)

Module Units.

Definition AU_TO_SIMULATION : R := 50.
Definition KM_TO_SIMULATION : R := 0.00001.
Definition PLANET_RADIUS_SCALE : R := 2.5.
Definition ORBIT_RADIUS_SCALE : R := 0.85.

Definition auToSimulation (au : R) : R :=
  au * AU_TO_SIMULATION * ORBIT_RADIUS_SCALE.

Definition kmToSimulation (km : R) : R :=
  km * KM_TO_SIMULATION * PLANET_RADIUS_SCALE.

End Units.

(* ------------------------------------------------------------------ *)
(** * The routines of three.js used by the controllers

  [Vector3], [Quaternion], [Euler] (order ['YXZ']) and [Matrix4.lookAt], as
  three.js defines them, over the reals.  A method that mutates its
  receiver becomes a function returning the new value. *)

Module Three.

Record Vector3 : Type := vec3 { vx : R; vy : R; vz : R }.

Record Quaternion : Type := quat { qx : R; qy : R; qz : R; qw : R }.

(** An [Euler] of order ['YXZ']: [ex] is the pitch, [ey] the yaw. *)
Record Euler : Type := mkEuler { ex : R; ey : R; ez : R }.

Record Camera : Type := mkCamera
  { position : Vector3; quaternion : Quaternion }.

Definition zero3 : Vector3 := vec3 0 0 0.

Definition lengthSq (v : Vector3) : R :=
  vx v * vx v + vy v * vy v + vz v * vz v.

Definition length (v : Vector3) : R := sqrt (lengthSq v).

Definition multiplyScalar (v : Vector3) (s : R) : Vector3 :=
  vec3 (vx v * s) (vy v * s) (vz v * s).

(** [normalize ()] is [divideScalar (length () || 1)]. *)
Definition normalize (v : Vector3) : Vector3 :=
  let l := length v in
  multiplyScalar v (1 / (if Req_dec_T l 0 then 1 else l)).

Definition addVectors (a b : Vector3) : Vector3 :=
  vec3 (vx a + vx b) (vy a + vy b) (vz a + vz b).

Definition subVectors (a b : Vector3) : Vector3 :=
  vec3 (vx a - vx b) (vy a - vy b) (vz a - vz b).

Definition crossVectors (a b : Vector3) : Vector3 :=
  vec3 (vy a * vz b - vz a * vy b)
       (vz a * vx b - vx a * vz b)
       (vx a * vy b - vy a * vx b).

Definition distanceTo (a b : Vector3) : R := length (subVectors a b).

(** [lerpVectors (v1, v2, alpha)]. *)
Definition lerpVectors (v1 v2 : Vector3) (alpha : R) : Vector3 :=
  vec3 (vx v1 + (vx v2 - vx v1) * alpha)
       (vy v1 + (vy v2 - vy v1) * alpha)
       (vz v1 + (vz v2 - vz v1) * alpha).

(** [this.lerp (v, alpha)]. *)
Definition lerp (this v : Vector3) (alpha : R) : Vector3 :=
  vec3 (vx this + (vx v - vx this) * alpha)
       (vy this + (vy v - vy this) * alpha)
       (vz this + (vz v - vz this) * alpha).

(** [Vector3.applyQuaternion (q)]. *)
Definition applyQuaternion (v : Vector3) (q : Quaternion) : Vector3 :=
  let tx := 2 * (qy q * vz v - qz q * vy v) in
  let ty := 2 * (qz q * vx v - qx q * vz v) in
  let tz := 2 * (qx q * vy v - qy q * vx v) in
  vec3 (vx v + qw q * tx + qy q * tz - qz q * ty)
       (vy v + qw q * ty + qz q * tx - qx q * tz)
       (vz v + qw q * tz + qx q * ty - qy q * tx).

(** [Quaternion.setFromEuler (euler)] for the order ['YXZ']. *)
Definition setFromEuler (e : Euler) : Quaternion :=
  let c1 := cos (ex e / 2) in
  let c2 := cos (ey e / 2) in
  let c3 := cos (ez e / 2) in
  let s1 := sin (ex e / 2) in
  let s2 := sin (ey e / 2) in
  let s3 := sin (ez e / 2) in
  quat (s1 * c2 * c3 + c1 * s2 * s3)
       (c1 * s2 * c3 - s1 * c2 * s3)
       (c1 * c2 * s3 - s1 * s2 * c3)
       (c1 * c2 * c3 + s1 * s2 * s3).

(** The rotation part of a [Matrix4], row by row. *)
Record Matrix3 : Type := mat3
  { m11 : R; m12 : R; m13 : R;
    m21 : R; m22 : R; m23 : R;
    m31 : R; m32 : R; m33 : R }.

(** [Matrix4.lookAt (eye, target, up)] on a fresh (identity) matrix. *)
Definition lookAt (eye target up : Vector3) : Matrix3 :=
  let z0 := subVectors eye target in
  let z1 := if Req_dec_T (lengthSq z0) 0
            then vec3 (vx z0) (vy z0) 1 else z0 in
  let z2 := normalize z1 in
  let x0 := crossVectors up z2 in
  let '(z3, x1) :=
    if Req_dec_T (lengthSq x0) 0 then
      let z' := if Req_dec_T (Rabs (vz up)) 1
                then vec3 (vx z2 + 0.0001) (vy z2) (vz z2)
                else vec3 (vx z2) (vy z2) (vz z2 + 0.0001) in
      let z'' := normalize z' in
      (z'', crossVectors up z'')
    else (z2, x0) in
  let x2 := normalize x1 in
  let y := crossVectors z3 x2 in
  mat3 (vx x2) (vx y) (vx z3)
       (vy x2) (vy y) (vy z3)
       (vz x2) (vz y) (vz z3).

(** [Quaternion.setFromRotationMatrix (m)]. *)
Definition setFromRotationMatrix (m : Matrix3) : Quaternion :=
  let trace := m11 m + m22 m + m33 m in
  if Rlt_dec 0 trace then
    let s := 0.5 / sqrt (trace + 1) in
    quat ((m32 m - m23 m) * s) ((m13 m - m31 m) * s)
         ((m21 m - m12 m) * s) (0.25 / s)
  else if andb (JS.ltb (m22 m) (m11 m)) (JS.ltb (m33 m) (m11 m)) then
    let s := 2 * sqrt (1 + m11 m - m22 m - m33 m) in
    quat (0.25 * s) ((m12 m + m21 m) / s)
         ((m13 m + m31 m) / s) ((m32 m - m23 m) / s)
  else if JS.ltb (m33 m) (m22 m) then
    let s := 2 * sqrt (1 + m22 m - m11 m - m33 m) in
    quat ((m12 m + m21 m) / s) (0.25 * s)
         ((m23 m + m32 m) / s) ((m13 m - m31 m) / s)
  else
    let s := 2 * sqrt (1 + m33 m - m11 m - m22 m) in
    quat ((m13 m + m31 m) / s) ((m23 m + m32 m) / s)
         (0.25 * s) ((m21 m - m12 m) / s).

Definition qlength (q : Quaternion) : R :=
  sqrt (qx q * qx q + qy q * qy q + qz q * qz q + qw q * qw q).

Definition qnormalize (q : Quaternion) : Quaternion :=
  let l := qlength q in
  if Req_dec_T l 0 then quat 0 0 0 1
  else quat (qx q * (1 / l)) (qy q * (1 / l))
            (qz q * (1 / l)) (qw q * (1 / l)).

(** [Number.EPSILON]. *)
Definition EPSILON : R := / (2 ^ 52).

(** [this.slerp (qb, t)]. *)
Definition slerp (this qb : Quaternion) (t : R) : Quaternion :=
  if Req_dec_T t 0 then this
  else if Req_dec_T t 1 then qb
  else
    let c0 := qw this * qw qb + qx this * qx qb
              + qy this * qy qb + qz this * qz qb in
    let '(b, cosHalfTheta) :=
      if Rlt_dec c0 0
      then (quat (- qx qb) (- qy qb) (- qz qb) (- qw qb), - c0)
      else (qb, c0) in
    if Rle_dec 1 cosHalfTheta then this
    else
      let sqrSinHalfTheta := 1 - cosHalfTheta * cosHalfTheta in
      if Rle_dec sqrSinHalfTheta EPSILON then
        let s := 1 - t in
        qnormalize (quat (s * qx this + t * qx b) (s * qy this + t * qy b)
                         (s * qz this + t * qz b) (s * qw this + t * qw b))
      else
        let sinHalfTheta := sqrt sqrSinHalfTheta in
        let halfTheta := JS.atan2 sinHalfTheta cosHalfTheta in
        let ratioA := sin ((1 - t) * halfTheta) / sinHalfTheta in
        let ratioB := sin (t * halfTheta) / sinHalfTheta in
        quat (qx this * ratioA + qx b * ratioB)
             (qy this * ratioA + qy b * ratioB)
             (qz this * ratioA + qz b * ratioB)
             (qw this * ratioA + qw b * ratioB).

End Three.

(* ------------------------------------------------------------------ *)
(** * [src/scene/createSolarSystem.ts] *)

Module SolarSystem.

Import Three.

(** The part of a [THREE.Mesh] the simulation writes: its position and
    the [y] and [z] components of its rotation. *)
Record Mesh : Type := mkMesh
  { mesh_position : Vector3; rotation_y : JS.jsnum; rotation_z : R }.

Record Sprite : Type := mkSprite
  { sprite_position : Vector3; sprite_quaternion : Quaternion }.

Record Line : Type := mkLine { line_position : Vector3 }.

(** [interface PlanetData].  The display-only fields [description],
    [realRadius], [color] and [rings] are left out; an optional field is
    an [option]. *)
#[warnings="-register-all"]
Inductive PlanetData : Type := mkPlanetData
  { name : string;
    radius : R;
    orbitRadius : R;
    orbitPeriod : R;
    rotationPeriod : R;
    tilt : R;
    mesh : option Mesh;
    position : option Vector3;
    moons : option (list PlanetData);
    orbitLine : option Line;
    label : option Sprite }.

(** [interface SolarSystemObjects]: the sun and the planet list (the
    [orbitLines] and [labels] arrays alias the objects stored in the
    planets and are read by the settings panel only). *)
Record SolarSystemObjects : Type := mkSolarSystem
  { sun : Mesh; planets : list PlanetData }.

(** ** Field updates *)

Definition set_mesh_position (p : PlanetData) (m : option Mesh)
           (pos : option Vector3) : PlanetData :=
  mkPlanetData (name p) (radius p) (orbitRadius p) (orbitPeriod p)
               (rotationPeriod p) (tilt p) m pos (moons p)
               (orbitLine p) (label p).

Definition set_moons (p : PlanetData) (ms : option (list PlanetData))
  : PlanetData :=
  mkPlanetData (name p) (radius p) (orbitRadius p) (orbitPeriod p)
               (rotationPeriod p) (tilt p) (mesh p) (position p) ms
               (orbitLine p) (label p).

Definition set_orbitLine (p : PlanetData) (l : option Line) : PlanetData :=
  mkPlanetData (name p) (radius p) (orbitRadius p) (orbitPeriod p)
               (rotationPeriod p) (tilt p) (mesh p) (position p) (moons p)
               l (label p).

Definition set_label (p : PlanetData) (l : option Sprite) : PlanetData :=
  mkPlanetData (name p) (radius p) (orbitRadius p) (orbitPeriod p)
               (rotationPeriod p) (tilt p) (mesh p) (position p) (moons p)
               (orbitLine p) l.

(** ** Creation *)

(** The result of an [async] function: the promise is fulfilled with a
    value or rejected with a reason. *)
Inductive Outcome (A : Type) : Type :=
| Fulfilled (a : A)
| Rejected (reason : string).
Arguments Fulfilled {A} a.
Arguments Rejected {A} reason.

Definition andThen {A B : Type} (o : Outcome A) (k : A -> Outcome B)
  : Outcome B :=
  match o with
  | Fulfilled a => k a
  | Rejected e => Rejected e
  end.

(** [createPlanet (scene, planetData, textureManager)].  Every texture
    load sits in a [try]/[catch] with a procedural fallback, so the body
    always reaches the lines that place the mesh; geometry and material
    are not modelled. *)
Definition createPlanet (planetData : PlanetData) : Outcome PlanetData :=
  let position' := vec3 (orbitRadius planetData) 0 0 in
  let planet :=
    mkMesh position' (JS.Fin 0) (tilt planetData * PI / 180) in
  Fulfilled (set_mesh_position planetData (Some planet) (Some position')).

(** [createOrbitLine] and [createLabel]: fresh objects at the origin. *)
Definition createOrbitLine : Line := mkLine zero3.
Definition createLabel : Sprite := mkSprite zero3 (quat 0 0 0 1).

(** The inner loop [for (const moonData of planetData.moons)]. *)
Fixpoint createMoons (ms : list PlanetData) : Outcome (list PlanetData) :=
  match ms with
  | [] => Fulfilled []
  | moonData :: rest =>
      andThen (createPlanet moonData) (fun moonData' =>
      andThen (createMoons rest) (fun rest' =>
      Fulfilled (set_orbitLine moonData' (Some createOrbitLine) :: rest')))
  end.

(** One turn of the loop [for (const planetData of planetsData)]
    (the rings added to Saturn are decoration and are left out). *)
Definition registerPlanet (planetData : PlanetData) : Outcome PlanetData :=
  andThen (createPlanet planetData) (fun p1 =>
  let p2 := set_label (set_orbitLine p1 (Some createOrbitLine))
                      (Some createLabel) in
  match moons p2 with
  | Some ms =>
      andThen (createMoons ms) (fun ms' => Fulfilled (set_moons p2 (Some ms')))
  | None => Fulfilled p2
  end).

(** The loop of [createSolarSystem] that registers the bodies of
    [planetsData], in order. *)
Fixpoint registerBodies (planetsData : list PlanetData)
  : Outcome (list PlanetData) :=
  match planetsData with
  | [] => Fulfilled []
  | planetData :: rest =>
      andThen (registerPlanet planetData) (fun p =>
      andThen (registerBodies rest) (fun rest' => Fulfilled (p :: rest')))
  end.

(** ** The table [planetsData] of [createSolarSystem] *)

Definition body (n : string) (r oR oP rP t : R)
           (ms : option (list PlanetData)) : PlanetData :=
  mkPlanetData n r oR oP rP t None None ms None None.

Import Units.

Definition planetsData : list PlanetData :=
  [ body "Mercury" (kmToSimulation 2439.7) (auToSimulation 0.39)
         0.24 58.6 0.03 None;
    body "Venus" (kmToSimulation 6051.8) (auToSimulation 0.72)
         0.62 (-243) 177.4 None;
    body "Earth" (kmToSimulation 6371) (auToSimulation 1.0)
         1.0 1.0 23.5
         (Some [ body "Moon" (kmToSimulation 1737.4)
                      (kmToSimulation 384400 * 0.3)
                      (27.3 / 365.25) 27.3 6.7 None ]);
    body "Mars" (kmToSimulation 3389.5) (auToSimulation 1.52)
         1.88 1.03 25.2
         (Some [ body "Phobos" (kmToSimulation 11.2)
                      (kmToSimulation 9376 * 0.5)
                      (0.32 / 365.25) 0.32 0 None;
                 body "Deimos" (kmToSimulation 6.2)
                      (kmToSimulation 23460 * 0.5)
                      (1.26 / 365.25) 1.26 0 None ]);
    body "Jupiter" (kmToSimulation 69911) (auToSimulation 5.2)
         11.86 0.41 3.1
         (Some [ body "Io" (kmToSimulation 1821.6)
                      (kmToSimulation 421700 * 0.15)
                      (1.77 / 365.25) 1.77 0 None ]);
    body "Saturn" (kmToSimulation 58232) (auToSimulation 9.54)
         29.46 0.45 26.7
         (Some [ body "Titan" (kmToSimulation 2574.7)
                      (kmToSimulation 1221870 * 0.12)
                      (15.95 / 365.25) 15.95 0 None ]);
    body "Uranus" (kmToSimulation 25362) (auToSimulation 19.19)
         84.01 (-0.72) 97.8 None;
    body "Neptune" (kmToSimulation 24622) (auToSimulation 30.07)
         164.8 0.67 28.3 None;
    body "Pluto" (kmToSimulation 1188) (auToSimulation 39.48)
         248 (-6.39) 122.5 None ].

(** [createSolarSystem]: the sun sits at the origin and the table is
    registered. *)
Definition createSolarSystem : Outcome SolarSystemObjects :=
  andThen (registerBodies planetsData) (fun ps =>
  Fulfilled (mkSolarSystem (mkMesh zero3 (JS.Fin 0) 0) ps)).

(** ** Animation *)

(** The point of a circular orbit of radius [r] at [angle], in the
    plane [y = 0]. *)
Definition orbitPoint (r angle : R) : Vector3 :=
  vec3 (cos angle * r) 0 (sin angle * r).

(** The body of the loop [for (const moonData of planetData.moons)] of
    [updateSolarSystem]; [parentPosition] is [planetData.position], which
    the enclosing turn has just assigned. *)
Definition updateMoon (time : R) (parentPosition : Vector3)
           (moonData : PlanetData) : PlanetData :=
  match mesh moonData with
  | None => moonData
  | Some m =>
      let moonAngle := (time / orbitPeriod moonData) * 0.1 in
      let moonLocalPos := orbitPoint (orbitRadius moonData) moonAngle in
      let position' := addVectors parentPosition moonLocalPos in
      let m' :=
        mkMesh position'
               (JS.add (rotation_y m)
                       (JS.scale (JS.recip (rotationPeriod moonData)) 0.01))
               (rotation_z m) in
      let moonData' := set_mesh_position moonData (Some m') (Some position') in
      match orbitLine moonData' with
      | Some _ => set_orbitLine moonData' (Some (mkLine parentPosition))
      | None => moonData'
      end
  end.

(** The body of the loop [for (const planetData of solarSystem.planets)]. *)
Definition updatePlanet (time : R) (camera : Camera)
           (planetData : PlanetData) : PlanetData :=
  match mesh planetData with
  | None => planetData
  | Some m =>
      let angle := (time / orbitPeriod planetData) * 0.1 in
      let position' := orbitPoint (orbitRadius planetData) angle in
      let rotationSpeed :=
        if Req_dec_T (rotationPeriod planetData) 0 then 0
        else (1 / rotationPeriod planetData) * 0.01 in
      let m' :=
        mkMesh position' (JS.add (rotation_y m) (JS.Fin rotationSpeed))
               (rotation_z m) in
      let p1 := set_mesh_position planetData (Some m') (Some position') in
      let p2 :=
        match label p1 with
        | Some _ =>
            set_label p1
              (Some (mkSprite
                       (vec3 (vx position')
                             (vy position' + radius p1 * 2)
                             (vz position'))
                       (quaternion camera)))
        | None => p1
        end in
      match moons p2 with
      | Some ms => set_moons p2 (Some (map (updateMoon time position') ms))
      | None => p2
      end
  end.

(** [updateSolarSystem (solarSystem, time, camera)]. *)
Definition updateSolarSystem (solarSystem : SolarSystemObjects)
           (time : R) (camera : Camera) : SolarSystemObjects :=
  let sun' :=
    mkMesh (mesh_position (sun solarSystem)) (JS.Fin (time * 0.05))
           (rotation_z (sun solarSystem)) in
  mkSolarSystem sun' (map (updatePlanet time camera) (planets solarSystem)).

(** ** References to bodies

    A [PlanetData] object reachable from the planet list is named by its
    place in it. *)
Inductive BodyRef : Type :=
| PlanetRef (i : nat)
| MoonRef (i j : nat).

Definition lookup (ps : list PlanetData) (r : BodyRef) : option PlanetData :=
  match r with
  | PlanetRef i => nth_error ps i
  | MoonRef i j =>
      match nth_error ps i with
      | Some p =>
          match moons p with
          | Some ms => nth_error ms j
          | None => None
          end
      | None => None
      end
  end.

End SolarSystem.

(* ------------------------------------------------------------------ *)
(** * [src/controls/flightControls.ts] *)

Module Flight.

Import Three.

(** A callback is known by its identity; calling it is an effect. *)
Definition Callback : Type := nat.

(** What a handler does to the world outside the controller. *)
Inductive Effect : Type :=
| ConsoleError (message : string)
| BodyClassAdd (className : string)
| BodyClassRemove (className : string)
| InvokeCallback (cb : Callback)
| RequestPointerLock
| ExitPointerLock.

(** The events the controller listens to.  [PointerLockChange b] carries
    the value of [document.pointerLockElement === this.domElement]. *)
Inductive DomEvent : Type :=
| MouseMove (movementX movementY : R)
| PointerLockChange (onDomElement : bool)
| PointerLockError
| KeyDown (code : string)
| KeyUp (code : string).

Record FlightControls : Type := mkFlightControls
  { moveForward : bool;
    moveBackward : bool;
    moveLeft : bool;
    moveRight : bool;
    moveUp : bool;
    moveDown : bool;
    boost : bool;
    velocity : Vector3;
    direction : Vector3;
    euler : Euler;
    isLocked : bool;
    onLockCallback : option Callback;
    onUnlockCallback : option Callback }.

(** Speed settings and mouse look: private fields that are never
    assigned after their initialiser. *)
Definition baseSpeed : R := 30.
Definition boostMultiplier : R := 8.
Definition acceleration : R := 30.
Definition damping : R := 5.
Definition mouseSensitivity : R := 0.002.

Inductive Flag : Type :=
| MoveForward | MoveBackward | MoveLeft | MoveRight | MoveUp | MoveDown
| Boost.

Definition setFlag (s : FlightControls) (f : Flag) (b : bool)
  : FlightControls :=
  let mk fw bw l r u d bo :=
    mkFlightControls fw bw l r u d bo (velocity s) (direction s) (euler s)
                     (isLocked s) (onLockCallback s) (onUnlockCallback s) in
  match f with
  | MoveForward => mk b (moveBackward s) (moveLeft s) (moveRight s)
                      (moveUp s) (moveDown s) (boost s)
  | MoveBackward => mk (moveForward s) b (moveLeft s) (moveRight s)
                       (moveUp s) (moveDown s) (boost s)
  | MoveLeft => mk (moveForward s) (moveBackward s) b (moveRight s)
                   (moveUp s) (moveDown s) (boost s)
  | MoveRight => mk (moveForward s) (moveBackward s) (moveLeft s) b
                    (moveUp s) (moveDown s) (boost s)
  | MoveUp => mk (moveForward s) (moveBackward s) (moveLeft s)
                 (moveRight s) b (moveDown s) (boost s)
  | MoveDown => mk (moveForward s) (moveBackward s) (moveLeft s)
                   (moveRight s) (moveUp s) b (boost s)
  | Boost => mk (moveForward s) (moveBackward s) (moveLeft s)
                (moveRight s) (moveUp s) (moveDown s) b
  end.

Definition set_euler (s : FlightControls) (e : Euler) : FlightControls :=
  mkFlightControls (moveForward s) (moveBackward s) (moveLeft s)
                   (moveRight s) (moveUp s) (moveDown s) (boost s)
                   (velocity s) (direction s) e (isLocked s)
                   (onLockCallback s) (onUnlockCallback s).

Definition set_isLocked (s : FlightControls) (b : bool) : FlightControls :=
  mkFlightControls (moveForward s) (moveBackward s) (moveLeft s)
                   (moveRight s) (moveUp s) (moveDown s) (boost s)
                   (velocity s) (direction s) (euler s) b
                   (onLockCallback s) (onUnlockCallback s).

Definition set_velocity_direction (s : FlightControls) (v d : Vector3)
  : FlightControls :=
  mkFlightControls (moveForward s) (moveBackward s) (moveLeft s)
                   (moveRight s) (moveUp s) (moveDown s) (boost s)
                   v d (euler s) (isLocked s)
                   (onLockCallback s) (onUnlockCallback s).

(** ** Pointer lock *)

(** [onMouseMove]. *)
Definition onMouseMove (s : FlightControls) (movementX movementY : R)
  : FlightControls :=
  if negb (isLocked s) then s
  else
    let y' := ey (euler s) - movementX * mouseSensitivity in
    let x' := ex (euler s) - movementY * mouseSensitivity in
    set_euler s (mkEuler (MathUtils.clamp x' (- PI / 2) (PI / 2))
                         y' (ez (euler s))).

Definition invoke (cb : option Callback) : list Effect :=
  match cb with
  | Some c => [InvokeCallback c]
  | None => []
  end.

(** [onPointerlockChange]. *)
Definition onPointerlockChange (s : FlightControls) (onDomElement : bool)
  : FlightControls * list Effect :=
  let s' := set_isLocked s onDomElement in
  if isLocked s'
  then (s', BodyClassAdd "pointer-locked" :: invoke (onLockCallback s'))
  else (s', BodyClassRemove "pointer-locked" :: invoke (onUnlockCallback s')).

(** [onPointerlockError]. *)
Definition onPointerlockError (s : FlightControls)
  : FlightControls * list Effect :=
  (s, [ConsoleError "Pointer lock failed"]).

(** ** Keyboard *)

Definition keyFlag (code : string) : option Flag :=
  if String.eqb code "KeyW" then Some MoveForward
  else if String.eqb code "KeyS" then Some MoveBackward
  else if String.eqb code "KeyA" then Some MoveLeft
  else if String.eqb code "KeyD" then Some MoveRight
  else if String.eqb code "KeyQ" then Some MoveDown
  else if String.eqb code "KeyE" then Some MoveUp
  else if String.eqb code "ShiftLeft" then Some Boost
  else if String.eqb code "ShiftRight" then Some Boost
  else None.

(** [onKeyDown] and [onKeyUp]: the two [switch] statements. *)
Definition onKeyDown (s : FlightControls) (code : string) : FlightControls :=
  match keyFlag code with
  | Some f => setFlag s f true
  | None => s
  end.

Definition onKeyUp (s : FlightControls) (code : string) : FlightControls :=
  match keyFlag code with
  | Some f => setFlag s f false
  | None => s
  end.

(** The listeners registered on [document]. *)
Definition handle (s : FlightControls) (ev : DomEvent)
  : FlightControls * list Effect :=
  match ev with
  | MouseMove mx my => (onMouseMove s mx my, [])
  | PointerLockChange b => onPointerlockChange s b
  | PointerLockError => onPointerlockError s
  | KeyDown code => (onKeyDown s code, [])
  | KeyUp code => (onKeyUp s code, [])
  end.

(** ** Methods *)

(** [lock ()] and [unlock ()] only ask the browser. *)
Definition lock (s : FlightControls) : FlightControls * list Effect :=
  (s, [RequestPointerLock]).

Definition unlock (s : FlightControls) : FlightControls * list Effect :=
  (s, [ExitPointerLock]).

(** The direction built from the six movement flags, before it is
    normalised and rotated. *)
Definition commanded (s : FlightControls) : Vector3 :=
  let d0 := zero3 in
  let d1 := if moveForward s then vec3 (vx d0) (vy d0) (vz d0 - 1) else d0 in
  let d2 := if moveBackward s then vec3 (vx d1) (vy d1) (vz d1 + 1) else d1 in
  let d3 := if moveLeft s then vec3 (vx d2 - 1) (vy d2) (vz d2) else d2 in
  let d4 := if moveRight s then vec3 (vx d3 + 1) (vy d3) (vz d3) else d3 in
  let d5 := if moveUp s then vec3 (vx d4) (vy d4 + 1) (vz d4) else d4 in
  if moveDown s then vec3 (vx d5) (vy d5 - 1) (vz d5) else d5.

(** [this.direction] after [multiplyScalar (targetSpeed)]: the vector
    that the source names [targetVelocity] is this same object. *)
Definition targetVelocity (s : FlightControls) (q : Quaternion) : Vector3 :=
  let d := commanded s in
  let d' := if Rlt_dec 0 (length d) then normalize d else d in
  let d'' := applyQuaternion d' q in
  let speedMultiplier := if boost s then boostMultiplier else 1 in
  let targetSpeed := baseSpeed * speedMultiplier in
  multiplyScalar d'' targetSpeed.

(** [this.direction.length () > 0 ? this.acceleration : this.damping],
    read after the direction has been scaled. *)
Definition dampingFactor (scaledDirection : Vector3) : R :=
  if Rlt_dec 0 (length scaledDirection) then acceleration else damping.

(** [update (deltaTime)]. *)
Definition update (s : FlightControls) (camera : Camera) (deltaTime : R)
  : FlightControls * Camera :=
  if negb (isLocked s) then (s, camera)
  else
    let q := setFromEuler (euler s) in
    let tv := targetVelocity s q in
    let k := dampingFactor tv in
    let v := velocity s in
    let v' := vec3 (MathUtils.damp (vx v) (vx tv) k deltaTime)
                   (MathUtils.damp (vy v) (vy tv) k deltaTime)
                   (MathUtils.damp (vz v) (vz tv) k deltaTime) in
    (set_velocity_direction s v' tv,
     mkCamera (addVectors (position camera) (multiplyScalar v' deltaTime))
              q).

(** [getSpeed ()]. *)
Definition getSpeed (s : FlightControls) : R := length (velocity s).

(** [getIsLocked ()]. *)
Definition getIsLocked (s : FlightControls) : bool := isLocked s.

(** [onLock (callback)] and [onUnlock (callback)]. *)
Definition onLock (s : FlightControls) (cb : Callback) : FlightControls :=
  mkFlightControls (moveForward s) (moveBackward s) (moveLeft s)
                   (moveRight s) (moveUp s) (moveDown s) (boost s)
                   (velocity s) (direction s) (euler s) (isLocked s)
                   (Some cb) (onUnlockCallback s).

Definition onUnlock (s : FlightControls) (cb : Callback) : FlightControls :=
  mkFlightControls (moveForward s) (moveBackward s) (moveLeft s)
                   (moveRight s) (moveUp s) (moveDown s) (boost s)
                   (velocity s) (direction s) (euler s) (isLocked s)
                   (onLockCallback s) (Some cb).

(** [disable ()]. *)
Definition disable (s : FlightControls) : FlightControls :=
  mkFlightControls false false false false false false false
                   zero3 (direction s) (euler s) (isLocked s)
                   (onLockCallback s) (onUnlockCallback s).

(** ** Runs: events and frames in the order they arrive *)

Inductive Action : Type :=
| Dom (ev : DomEvent)
| Tick (deltaTime : R).

Definition step (sc : FlightControls * Camera) (a : Action)
  : FlightControls * Camera :=
  match a with
  | Dom ev => (fst (handle (fst sc) ev), snd sc)
  | Tick dt => update (fst sc) (snd sc) dt
  end.

Definition run (sc : FlightControls * Camera) (l : list Action)
  : FlightControls * Camera :=
  fold_left step l sc.

End Flight.

(* ------------------------------------------------------------------ *)
(** * [src/controls/focusControls.ts] *)

Module Focus.

Import Three.
Import SolarSystem.

Record FocusControls : Type := mkFocusControls
  { targetPlanet : option BodyRef;
    isFocused : bool;
    focusDistance : R;
    focusOffset : Vector3;
    currentOffset : Vector3;
    transitionProgress : R;
    orbitAngle : R;
    orbitRadius : R;
    originalPosition : Vector3;
    originalQuaternion : Quaternion }.

Definition transitionSpeed : R := 2.
Definition orbitSpeed : R := 0.3.

(** [focusOnPlanet (planet)]; [ref] is the identity of the object
    [planet].  The camera is read, never written. *)
Definition focusOnPlanet (fc : FocusControls) (camera : Camera)
           (ref : BodyRef) (planet : PlanetData) : FocusControls * Camera :=
  match mesh planet, SolarSystem.position planet with
  | Some _, Some planetPosition =>
      let orbitRadius' := radius planet * 3 in
      let focusDistance' := orbitRadius' in
      let directionToPlanet :=
        normalize (subVectors planetPosition (Three.position camera)) in
      let focusOffset' := multiplyScalar directionToPlanet (- focusDistance') in
      (mkFocusControls (Some ref) true focusDistance' focusOffset'
                       focusOffset' 0
                       (JS.atan2 (vx directionToPlanet) (vz directionToPlanet))
                       orbitRadius'
                       (Three.position camera) (quaternion camera),
       camera)
  | _, _ => (fc, camera)
  end.

(** The two locals of [focusOnNearest]; [None] as [nearestDistance] is
    the initial [Infinity]. *)
Record Scan : Type := mkScan
  { nearest : option (BodyRef * PlanetData);
    nearestDistance : option R }.

Definition closer (distance : R) (nearestDistance : option R) : bool :=
  match nearestDistance with
  | None => true
  | Some d => JS.ltb distance d
  end.

(** [if (distance < nearestDistance) { ... }] for the body [b] at [pos]. *)
Definition consider (cameraPosition : Vector3) (sc : Scan)
           (r : BodyRef) (b : PlanetData) (pos : Vector3) : Scan :=
  let distance := distanceTo cameraPosition pos in
  if closer distance (nearestDistance sc)
  then mkScan (Some (r, b)) (Some distance)
  else sc.

(** The loop over [planet.moons], from the moon of index [j] on. *)
Fixpoint scanMoons (cameraPosition : Vector3) (i j : nat)
         (ms : list PlanetData) (sc : Scan) : Scan :=
  match ms with
  | [] => sc
  | moon :: rest =>
      let sc' :=
        match SolarSystem.position moon with
        | None => sc
        | Some pos => consider cameraPosition sc (MoonRef i j) moon pos
        end in
      scanMoons cameraPosition i (S j) rest sc'
  end.

(** The loop over [planets], from the planet of index [i] on.  A planet
    without position is skipped by [continue], its moons with it. *)
Fixpoint scanPlanets (cameraPosition : Vector3) (i : nat)
         (ps : list PlanetData) (sc : Scan) : Scan :=
  match ps with
  | [] => sc
  | planet :: rest =>
      let sc' :=
        match SolarSystem.position planet with
        | None => sc
        | Some pos =>
            let sc1 := consider cameraPosition sc (PlanetRef i) planet pos in
            match moons planet with
            | Some ms => scanMoons cameraPosition i 0 ms sc1
            | None => sc1
            end
        end in
      scanPlanets cameraPosition (S i) rest sc'
  end.

(** [focusOnNearest (planets)]: the returned reference, and the state
    after the call. *)
Definition focusOnNearest (fc : FocusControls) (camera : Camera)
           (planets : list PlanetData)
  : option BodyRef * (FocusControls * Camera) :=
  let sc := scanPlanets (Three.position camera) 0 planets
                        (mkScan None None) in
  match nearest sc with
  | Some (r, b) => (Some r, focusOnPlanet fc camera r b)
  | None => (None, (fc, camera))
  end.

(** [returnToFreeFlight ()]. *)
Definition returnToFreeFlight (fc : FocusControls) : FocusControls :=
  if negb (isFocused fc) then fc
  else mkFocusControls None false (focusDistance fc) (focusOffset fc)
                       (currentOffset fc) (transitionProgress fc)
                       (orbitAngle fc) (orbitRadius fc)
                       (originalPosition fc) (originalQuaternion fc).

(** [easeInOutCubic (t)]. *)
Definition easeInOutCubic (t : R) : R :=
  if Rlt_dec t 0.5 then 4 * t * t * t
  else 1 - (- 2 * t + 2) ^ 3 / 2.

(** The position the target holds in the planet list at the time of
    the call: [this.targetPlanet.position]. *)
Definition targetPosition (fc : FocusControls) (planets : list PlanetData)
  : option Vector3 :=
  match targetPlanet fc with
  | Some r =>
      match lookup planets r with
      | Some planet => SolarSystem.position planet
      | None => None
      end
  | None => None
  end.

(** The camera position computed by [update] from the target position
    [target] it has read. *)
Definition nextCameraPosition (fc : FocusControls) (camera : Camera)
           (target : Vector3) (deltaTime : R) : Vector3 :=
  let progress := Rmin (transitionProgress fc + deltaTime * transitionSpeed) 1 in
  let angle := orbitAngle fc + orbitSpeed * deltaTime in
  let orbitOffset := vec3 (sin angle * orbitRadius fc)
                          (orbitRadius fc * 0.3)
                          (cos angle * orbitRadius fc) in
  let idealPosition := addVectors target orbitOffset in
  if Rlt_dec progress 1
  then lerpVectors (originalPosition fc) idealPosition
                   (easeInOutCubic progress)
  else lerp (Three.position camera) idealPosition
            (1 - exp (- 5 * deltaTime)).

(** [update (deltaTime)]; [planets] is the planet list as it is when
    the method runs. *)
Definition update (fc : FocusControls) (camera : Camera)
           (planets : list PlanetData) (deltaTime : R)
  : FocusControls * Camera :=
  if negb (isFocused fc) then (fc, camera)
  else
    match targetPosition fc planets with
    | None => (fc, camera)
    | Some target =>
        let progress :=
          Rmin (transitionProgress fc + deltaTime * transitionSpeed) 1 in
        let angle := orbitAngle fc + orbitSpeed * deltaTime in
        let position' := nextCameraPosition fc camera target deltaTime in
        let matrix := lookAt position' target (vec3 0 1 0) in
        let targetQuaternion := setFromRotationMatrix matrix in
        let quaternion' :=
          slerp (quaternion camera) targetQuaternion
                (1 - exp (- 8 * deltaTime)) in
        (mkFocusControls (targetPlanet fc) (isFocused fc) (focusDistance fc)
                         (focusOffset fc) (currentOffset fc) progress angle
                         (orbitRadius fc) (originalPosition fc)
                         (originalQuaternion fc),
         mkCamera position' quaternion')
    end.

(** [getIsFocused ()], [getTargetPlanet ()], [getDistanceToTarget ()]. *)
Definition getIsFocused (fc : FocusControls) : bool := isFocused fc.

Definition getTargetPlanet (fc : FocusControls) : option BodyRef :=
  targetPlanet fc.

Definition getDistanceToTarget (fc : FocusControls) (camera : Camera)
           (planets : list PlanetData) : R :=
  match targetPosition fc planets with
  | Some target => distanceTo (Three.position camera) target
  | None => 0
  end.

End Focus.

(* ------------------------------------------------------------------ *)
(** * [src/main.ts]: the frame loop of [CosmosApp] *)

Module App.

Import Three.

Record CosmosApp : Type := mkCosmosApp
  { camera : Camera;
    flightControls : Flight.FlightControls;
    focusControls : Focus.FocusControls;
    solarSystem : SolarSystem.SolarSystemObjects;
    time : R;
    isRunning : bool }.

(** The arguments of [this.hud.update (...)]. *)
Record HudData : Type := mkHudData
  { hud_speed : R;
    hud_isFocused : bool;
    hud_targetPlanet : option SolarSystem.BodyRef;
    hud_distance : R }.

(** The block [// Update controls] of [animate]. *)
Definition updateControls (app : CosmosApp) (deltaTime : R)
  : Flight.FlightControls * Focus.FocusControls * Camera :=
  if Focus.getIsFocused (focusControls app) then
    let '(fc, cam) :=
      Focus.update (focusControls app) (camera app)
                   (SolarSystem.planets (solarSystem app)) deltaTime in
    (flightControls app, fc, cam)
  else
    let '(fl, cam) :=
      Flight.update (flightControls app) (camera app) deltaTime in
    (fl, focusControls app, cam).

(** The block [// Update HUD] of [animate]. *)
Definition hudData (flight : Flight.FlightControls)
           (focus : Focus.FocusControls) (cam : Camera)
           (planets : list SolarSystem.PlanetData) : HudData :=
  let speed := if Focus.getIsFocused focus then 0
               else Flight.getSpeed flight in
  let targetPlanet := Focus.getTargetPlanet focus in
  let distance := if Focus.getIsFocused focus
                  then Focus.getDistanceToTarget focus cam planets
                  else 0 in
  mkHudData speed (Focus.getIsFocused focus) targetPlanet distance.

(** [animate]: one frame, for the delta [deltaTime] returned by the
    clock.  The result is the application after the frame and what the
    HUD was given ([None] when the loop is stopped).  Scheduling the next
    frame and rendering the scene write nothing the controllers read and
    are left out. *)
Definition animate (app : CosmosApp) (deltaTime : R)
  : CosmosApp * option HudData :=
  if negb (isRunning app) then (app, None)
  else
    let time' := time app + deltaTime in
    let '(flight', focus', camera') := updateControls app deltaTime in
    let solar' :=
      SolarSystem.updateSolarSystem (solarSystem app) time' camera' in
    let hud := hudData flight' focus' camera' (SolarSystem.planets solar') in
    (mkCosmosApp camera' flight' focus' solar' time' (isRunning app),
     Some hud).

(** The [keydown] listeners for [KeyF] and [KeyG], when neither the help
    overlay nor the settings panel is visible. *)
Definition onKeyF (app : CosmosApp) : CosmosApp :=
  if negb (Focus.getIsFocused (focusControls app)) then
    let '(_, (fc, cam)) :=
      Focus.focusOnNearest (focusControls app) (camera app)
                           (SolarSystem.planets (solarSystem app)) in
    mkCosmosApp cam (Flight.disable (flightControls app)) fc
                (solarSystem app) (time app) (isRunning app)
  else app.

Definition onKeyG (app : CosmosApp) : CosmosApp :=
  mkCosmosApp (camera app) (flightControls app)
              (Focus.returnToFreeFlight (focusControls app))
              (solarSystem app) (time app) (isRunning app).

(** Frames in sequence, each with its own delta. *)
Definition frames (app : CosmosApp) (deltas : list R) : CosmosApp :=
  fold_left (fun a dt => fst (animate a dt)) deltas app.

End App.

(* ------------------------------------------------------------------ *)
(** * The geometry helpers of [src/utils/math.ts] and
      [src/scene/createSolarSystem.ts] *)

Module Geometry.

Import Three.

(** The integer part of a real, toward zero. *)
Definition trunc (x : R) : Z :=
  if Rle_dec 0 x then Int_part x else (- Int_part (- x))%Z.

(** The remainder [a % b] of JavaScript on finite numbers, [b] not zero:
    [a] less the multiple of [b] given by the quotient cut toward zero,
    so that the result has the sign of [a]. *)
Definition rem (a b : R) : R := a - b * IZR (trunc (a / b)).

(** [getOrbitalPosition (semiMajorAxis, period, time, offset)]. *)
Definition getOrbitalPosition (semiMajorAxis period time offset : R)
  : Vector3 :=
  let angle := rem ((time / period) * PI * 2 + offset) (PI * 2) in
  vec3 (cos angle * semiMajorAxis) 0 (sin angle * semiMajorAxis).

(** The golden angle of [fibonacciSphere]. *)
Definition phi : R := PI * (3 - sqrt 5).

(** The point pushed by the turn [i] of the loop of [fibonacciSphere].
    With a single sample the source divides 0 by 0 and the point is not
    a number; what is stated about the points asks for two samples at
    least. *)
Definition fibonacciPoint (samples : nat) (radius : R) (i : nat) : Vector3 :=
  let y := 1 - (INR i / (INR samples - 1)) * 2 in
  let radiusAtY := sqrt (1 - y * y) in
  let theta := phi * INR i in
  let x := cos theta * radiusAtY in
  let z := sin theta * radiusAtY in
  vec3 (x * radius) (y * radius) (z * radius).

(** [fibonacciSphere (samples, radius)], for a whole number of samples:
    the loop runs [i] from 0 to [samples - 1]. *)
Definition fibonacciSphere (samples : nat) (radius : R) : list Vector3 :=
  map (fibonacciPoint samples radius) (seq 0 samples).

(** The points computed by [createOrbitLine (scene, radius)]: the loop
    runs [i] from 0 to [segments] included, with [segments = 128]. *)
Definition segments : nat := 128.

Definition orbitLinePoint (radius : R) (i : nat) : Vector3 :=
  let angle := (INR i / INR segments) * PI * 2 in
  vec3 (cos angle * radius) 0 (sin angle * radius).

Definition orbitLinePoints (radius : R) : list Vector3 :=
  map (orbitLinePoint radius) (seq 0 (S segments)).

End Geometry.

(* ------------------------------------------------------------------ *)
(** * [src/utils/units.ts]: display *)

Module UnitsFormat.

Import Units.

(** The template string [`${value.toFixed (digits)} unit`]: the number
    handed to [toFixed], the number of digits asked for, and the unit
    written after it. *)
Record Shown : Type := mkShown
  { value : R; digits : nat; unit : string }.

(** [formatDistance (simulationUnits)]. *)
Definition formatDistance (simulationUnits : R) : Shown :=
  let au := simulationUnits / (AU_TO_SIMULATION * ORBIT_RADIUS_SCALE) in
  if Rlt_dec au 0.01 then
    let km := simulationUnits / (KM_TO_SIMULATION * PLANET_RADIUS_SCALE) in
    mkShown km 0 "km"
  else if Rlt_dec au 1 then
    mkShown (au * 149597870.7) 0 "km"
  else
    mkShown au 2 "AU".

(** [formatSpeed (simulationUnitsPerSecond)]. *)
Definition formatSpeed (simulationUnitsPerSecond : R) : Shown :=
  let kmPerSecond := simulationUnitsPerSecond / KM_TO_SIMULATION in
  if Rlt_dec kmPerSecond 1 then
    mkShown (kmPerSecond * 1000) 0 "m/s"
  else
    mkShown kmPerSecond 1 "km/s".

End UnitsFormat.

(* ------------------------------------------------------------------ *)
(** * The listeners of the application: [src/main.ts]
      ([setupInputHandlers]), [HelpOverlay] of [src/ui/hud.ts] and the
      visibility of [Settings] of [src/ui/settings.ts] *)

Module Ui.

(** The application with the two panels that can cover it:
    [helpVisible] is [HelpOverlay.isVisible], [settingsVisible] is
    [Settings.isVisible].  (The quality buttons and the check boxes of
    the settings panel act on the renderer and on the visibility of lines
    and labels only; they are left out.) *)
Record State : Type := mkState
  { app : App.CosmosApp;
    helpVisible : bool;
    settingsVisible : bool }.

(** What the browser delivers. *)
Inductive Event : Type :=
| KeyDown (code : string)
| KeyUp (code : string)
| MouseMove (movementX movementY : R)
| PointerLockChange (onDomElement : bool)
| PointerLockError
| ClickCanvas
| ClickHelpBackdrop
| ClickCloseSettings
| AnimationFrame (deltaTime : R).

Definition withApp (st : State) (a : App.CosmosApp) : State :=
  mkState a (helpVisible st) (settingsVisible st).

Definition withFlight (st : State) (f : Flight.FlightControls) : State :=
  withApp st
    (App.mkCosmosApp (App.camera (app st)) f (App.focusControls (app st))
                     (App.solarSystem (app st)) (App.time (app st))
                     (App.isRunning (app st))).

(** [HelpOverlay.show], [hide] and [toggle]. *)
Definition helpShow (st : State) : State * list Flight.Effect :=
  (mkState (app st) true (settingsVisible st), [Flight.ExitPointerLock]).

Definition helpHide (st : State) : State * list Flight.Effect :=
  (mkState (app st) false (settingsVisible st), []).

Definition helpToggle (st : State) : State * list Flight.Effect :=
  if helpVisible st then helpHide st else helpShow st.

(** [Settings.show], [hide] and [toggle]. *)
Definition settingsShow (st : State) : State * list Flight.Effect :=
  (mkState (app st) (helpVisible st) true, [Flight.ExitPointerLock]).

Definition settingsHide (st : State) : State * list Flight.Effect :=
  (mkState (app st) (helpVisible st) false, []).

Definition settingsToggle (st : State) : State * list Flight.Effect :=
  if settingsVisible st then settingsHide st else settingsShow st.

(** One listener after another, the effects in order. *)
Definition andAlso (r : State * list Flight.Effect)
           (k : State -> State * list Flight.Effect)
  : State * list Flight.Effect :=
  let '(st', es') := k (fst r) in (st', snd r ++ es').

Definition skip (st : State) : State * list Flight.Effect := (st, []).

(** The [keydown] listeners on [document], in the order in which [init]
    has them registered: the one of [FlightControls], the two of
    [HelpOverlay], the two of [Settings], the three of
    [setupInputHandlers]. *)
Definition onKeyDown (st : State) (code : string)
  : State * list Flight.Effect :=
  andAlso
    (andAlso
       (andAlso
          (andAlso
             (andAlso
                (andAlso
                   (andAlso
                      (withFlight st
                         (Flight.onKeyDown (App.flightControls (app st)) code),
                       [])
                      (fun st =>
                         if String.eqb code "KeyH" then helpToggle st
                         else skip st))
                   (fun st =>
                      if andb (String.eqb code "Escape") (helpVisible st)
                      then helpHide st else skip st))
                (fun st =>
                   if String.eqb code "KeyP" then settingsToggle st
                   else skip st))
             (fun st =>
                if andb (String.eqb code "Escape") (settingsVisible st)
                then settingsHide st else skip st))
          (fun st =>
             if String.eqb code "Escape"
             then (st, snd (Flight.unlock (App.flightControls (app st))))
             else skip st))
       (fun st =>
          if andb (String.eqb code "KeyF")
                  (andb (negb (helpVisible st)) (negb (settingsVisible st)))
          then (withApp st (App.onKeyF (app st)), [])
          else skip st))
    (fun st =>
       if andb (String.eqb code "KeyG")
               (andb (negb (helpVisible st)) (negb (settingsVisible st)))
       then (withApp st (App.onKeyG (app st)), [])
       else skip st).

(** The [click] listener on the canvas. *)
Definition onClickCanvas (st : State) : State * list Flight.Effect :=
  if andb (negb (Flight.getIsLocked (App.flightControls (app st))))
          (andb (negb (helpVisible st)) (negb (settingsVisible st)))
  then (st, snd (Flight.lock (App.flightControls (app st))))
  else skip st.

(** Every listener of the application. *)
Definition handle (st : State) (ev : Event) : State * list Flight.Effect :=
  match ev with
  | KeyDown code => onKeyDown st code
  | KeyUp code =>
      (withFlight st (Flight.onKeyUp (App.flightControls (app st)) code), [])
  | MouseMove mx my =>
      (withFlight st (Flight.onMouseMove (App.flightControls (app st)) mx my),
       [])
  | PointerLockChange b =>
      let '(f, es) :=
        Flight.onPointerlockChange (App.flightControls (app st)) b in
      (withFlight st f, es)
  | PointerLockError =>
      let '(f, es) := Flight.onPointerlockError (App.flightControls (app st)) in
      (withFlight st f, es)
  | ClickCanvas => onClickCanvas st
  | ClickHelpBackdrop => helpHide st
  | ClickCloseSettings => settingsHide st
  | AnimationFrame dt => (withApp st (fst (App.animate (app st) dt)), [])
  end.

Definition run (st : State) (events : list Event) : State :=
  fold_left (fun s ev => fst (handle s ev)) events st.

(** The application as [init] leaves it, for the camera and the solar
    system it has built: nothing focused, nothing pressed, pointer not
    locked, clock at 0, loop running, panels hidden. *)
Definition initial (camera : Three.Camera) (e : Three.Euler)
           (solar : SolarSystem.SolarSystemObjects) : State :=
  mkState
    (App.mkCosmosApp
       camera
       (Flight.mkFlightControls false false false false false false false
                                Three.zero3 Three.zero3 e false None None)
       (Focus.mkFocusControls None false 0 Three.zero3 Three.zero3 0 0 0
                              Three.zero3 (Three.quat 0 0 0 1))
       solar 0 true)
    false false.

End Ui.

(* ------------------------------------------------------------------ *)
(** * Vocabulary of the statements *)

Module Spec.

Import Three.

(** The pitch of the free-flight orientation, in degrees. *)
Definition pitchDegrees (s : Flight.FlightControls) : R :=
  ex (Flight.euler s) * 180 / PI.

(** The pitch lies between a quarter turn down and a quarter turn up. *)
Definition pitchInRange (s : Flight.FlightControls) : Prop :=
  - PI / 2 <= ex (Flight.euler s) <= PI / 2.

(** The six movement flags and the velocity are all clear. *)
Definition atRest (s : Flight.FlightControls) : Prop :=
  Flight.moveForward s = false /\ Flight.moveBackward s = false /\
  Flight.moveLeft s = false /\ Flight.moveRight s = false /\
  Flight.moveUp s = false /\ Flight.moveDown s = false /\
  Flight.velocity s = zero3.

(** An action that raises one of the six movement flags. *)
Definition setsMoveFlag (a : Flight.Action) : bool :=
  match a with
  | Flight.Dom (Flight.KeyDown code) =>
      match Flight.keyFlag code with
      | Some Flight.Boost => false
      | Some _ => true
      | None => false
      end
  | _ => false
  end.

(** ** Bodies *)

(** The two constants written into [updateSolarSystem]. *)
Definition angularScale : R := 0.1.
Definition spinScale : R := 0.01.

(** The spin angle of a body: [mesh.rotation.y], when there is a mesh. *)
Definition spin (p : SolarSystem.PlanetData) : option JS.jsnum :=
  option_map SolarSystem.rotation_y (SolarSystem.mesh p).

(** The orbital angle of a body at the simulation time [t]. *)
Definition orbitAngleAt (t : R) (p : SolarSystem.PlanetData) : R :=
  (t / SolarSystem.orbitPeriod p) * angularScale.

(** The offset of a body from the centre of its orbit, as the
    specification writes it. *)
Definition orbitOffset (p : SolarSystem.PlanetData) (angle : R) : Vector3 :=
  vec3 (SolarSystem.orbitRadius p * cos angle) 0
       (SolarSystem.orbitRadius p * sin angle).

(** The positions held by a planet list: for each planet its own and
    those of its moons. *)
Definition bodyPositions (ps : list SolarSystem.PlanetData)
  : list (option Vector3 * option (list (option Vector3))) :=
  map (fun p => (SolarSystem.position p,
                 option_map (map SolarSystem.position) (SolarSystem.moons p)))
      ps.

(** The sum of the frame deltas. *)
Definition total (deltas : list R) : R := fold_right Rplus 0 deltas.

(** The periods the data model asks of a body. *)
Definition validPeriods (p : SolarSystem.PlanetData) : Prop :=
  0 < SolarSystem.orbitPeriod p /\ SolarSystem.rotationPeriod p <> 0.

(** What registration makes of a table entry [p]: the periods and the
    orbit radius are kept as given, the body is placed at
    [(orbitRadius, 0, 0)] and its mesh starts with spin 0. *)
Definition registeredAs (p p' : SolarSystem.PlanetData) : Prop :=
  SolarSystem.orbitPeriod p' = SolarSystem.orbitPeriod p /\
  SolarSystem.rotationPeriod p' = SolarSystem.rotationPeriod p /\
  SolarSystem.orbitRadius p' = SolarSystem.orbitRadius p /\
  SolarSystem.position p' = Some (vec3 (SolarSystem.orbitRadius p) 0 0) /\
  spin p' = Some (JS.Fin 0).

(** The same for the moons of an entry. *)
Definition moonsRegisteredAs (p p' : SolarSystem.PlanetData) : Prop :=
  match SolarSystem.moons p, SolarSystem.moons p' with
  | Some ms, Some ms' => Forall2 registeredAs ms ms'
  | None, None => True
  | _, _ => False
  end.

(** The positions a planet and its moons hold after an update step at
    the simulation time [t], read off the planet as it was before. *)
Definition positionsAt (t : R) (p : SolarSystem.PlanetData)
  : option Vector3 * option (list (option Vector3)) :=
  match SolarSystem.mesh p with
  | None => (SolarSystem.position p,
             option_map (map SolarSystem.position) (SolarSystem.moons p))
  | Some _ =>
      let pp := SolarSystem.orbitPoint (SolarSystem.orbitRadius p)
                                       (orbitAngleAt t p) in
      (Some pp,
       option_map
         (map (fun moon =>
                 match SolarSystem.mesh moon with
                 | None => SolarSystem.position moon
                 | Some _ =>
                     Some (addVectors pp
                             (SolarSystem.orbitPoint
                                (SolarSystem.orbitRadius moon)
                                (orbitAngleAt t moon)))
                 end))
         (SolarSystem.moons p))
  end.

(** ** The bodies [focusOnNearest] iterates over *)

(** The moons [ms] of the planet of index [i], the first of them having
    the index [j], each with its reference. *)
Fixpoint moonEntries (i j : nat) (ms : list SolarSystem.PlanetData)
  : list (SolarSystem.BodyRef * SolarSystem.PlanetData) :=
  match ms with
  | [] => []
  | moon :: rest => (SolarSystem.MoonRef i j, moon) :: moonEntries i (S j) rest
  end.

(** Every planet followed by its moons, in the order of the planet list,
    the first planet having the index [i]. *)
Fixpoint allBodiesFrom (i : nat) (ps : list SolarSystem.PlanetData)
  : list (SolarSystem.BodyRef * SolarSystem.PlanetData) :=
  match ps with
  | [] => []
  | p :: rest =>
      (SolarSystem.PlanetRef i, p)
        :: match SolarSystem.moons p with
           | Some ms => moonEntries i 0 ms
           | None => []
           end
        ++ allBodiesFrom (S i) rest
  end.

Definition allBodies (ps : list SolarSystem.PlanetData)
  : list (SolarSystem.BodyRef * SolarSystem.PlanetData) :=
  allBodiesFrom 0 ps.

(** Every planet and every moon has a current position. *)
Definition allPositioned (ps : list SolarSystem.PlanetData) : Prop :=
  Forall (fun e => SolarSystem.position (snd e) <> None) (allBodies ps).

(** The entry [e], found at index [k] of [l], is nearest to [c] among the
    entries of [l], and strictly nearer than every entry before it. *)
Definition firstNearest (c : Vector3)
           (l : list (SolarSystem.BodyRef * SolarSystem.PlanetData))
           (k : nat) (e : SolarSystem.BodyRef * SolarSystem.PlanetData)
           (pos : Vector3) : Prop :=
  nth_error l k = Some e /\
  SolarSystem.position (snd e) = Some pos /\
  forall k' e' pos',
    nth_error l k' = Some e' ->
    SolarSystem.position (snd e') = Some pos' ->
    distanceTo c pos <= distanceTo c pos' /\
    ((k' < k)%nat -> distanceTo c pos < distanceTo c pos').

(** One test of the scan of [focusOnNearest], for an entry of the
    iteration. *)
Definition considerEntry (c : Vector3) (sc : Focus.Scan)
           (e : SolarSystem.BodyRef * SolarSystem.PlanetData) : Focus.Scan :=
  match SolarSystem.position (snd e) with
  | Some pos => Focus.consider c sc (fst e) (snd e) pos
  | None => sc
  end.

(** ** The frame as the specification orders it

    Clock first, then the bodies, then the controller that is driving
    (which so reads the bodies just recomputed), then the display
    scalars. *)
Definition animateInSpecOrder (app : App.CosmosApp) (deltaTime : R)
  : App.CosmosApp * option App.HudData :=
  if negb (App.isRunning app) then (app, None)
  else
    let time' := App.time app + deltaTime in
    let solar' :=
      SolarSystem.updateSolarSystem (App.solarSystem app) time'
                                    (App.camera app) in
    let '(flight', focus', camera') :=
      App.updateControls
        (App.mkCosmosApp (App.camera app) (App.flightControls app)
                         (App.focusControls app) solar' time'
                         (App.isRunning app))
        deltaTime in
    (App.mkCosmosApp camera' flight' focus' solar' time' (App.isRunning app),
     Some (App.hudData flight' focus' camera'
                       (SolarSystem.planets solar'))).

End Spec.

(* ------------------------------------------------------------------ *)
(** * Concrete objects used in the examples *)

Module Examples.

Import Three.
Import SolarSystem.

Definition camera0 : Camera := mkCamera zero3 (quat 0 0 0 1).

(** Bodies as [createPlanet] leaves them, with simple numbers. *)
Definition placed (n : string) (r oR oP rP : R)
           (ms : option (list PlanetData)) : PlanetData :=
  mkPlanetData n r oR oP rP 0
               (Some (mkMesh (vec3 oR 0 0) (JS.Fin 0) 0))
               (Some (vec3 oR 0 0)) ms None None.

Definition venus : PlanetData := placed "Venus" 1 36 0.62 (-243) None.

Definition moon : PlanetData := placed "Moon" 0.5 3 0.075 27.3 None.

Definition earth : PlanetData := placed "Earth" 1 50 1 1 (Some [moon]).

Definition system0 : SolarSystemObjects :=
  mkSolarSystem (mkMesh zero3 (JS.Fin 0) 0) [venus; earth].

(** Table entries, not yet registered, whose orbit period is zero and
    negative. *)
Definition stalled : PlanetData := body "Stalled" 1 10 0 1 0 None.
Definition backward : PlanetData := body "Backward" 1 20 (-1) 0 0 None.

(** A running application ten seconds after start-up: the bodies are
    where the update step at time 10 has put them, the focus controller
    orbits the Earth, the free-flight controller is locked and at rest. *)
Definition flight0 : Flight.FlightControls :=
  Flight.mkFlightControls false false false false false false false
                          zero3 zero3 (mkEuler 0 0 0) true None None.

Definition focus0 : Focus.FocusControls :=
  Focus.mkFocusControls (Some (PlanetRef 1)) true 3 (vec3 0 0 3) (vec3 0 0 3)
                        1 0 3 zero3 (quat 0 0 0 1).

Definition system10 : SolarSystemObjects :=
  updateSolarSystem system0 10 camera0.

Definition app10 : App.CosmosApp :=
  App.mkCosmosApp camera0 flight0 focus0 system10 10 true.

(** A moon that never turns, with its mesh in place. *)
Definition stillMoon : PlanetData := placed "Still" 0.5 3 0.075 0 None.

(** Two bodies at the distances 20 and 10 from the origin, the farther one
    first; and a planet that has lost its position while its moon, the
    nearest body of all, has one. *)
Definition far : PlanetData := placed "Far" 1 20 1 1 None.
Definition near : PlanetData := placed "Near" 1 10 2 1 None.

Definition unplaced : PlanetData :=
  mkPlanetData "Unplaced" 1 5 1 1 0
               (Some (mkMesh (vec3 5 0 0) (JS.Fin 0) 0)) None
               (Some [placed "Close" 0.5 1 1 1 None]) None None.

End Examples.

(* ------------------------------------------------------------------ *)
(** * Vocabulary of the further statements *)

Module Props.

Import Three.
Import SolarSystem.

(** A body is placed: it has a mesh and a position, and the mesh sits at
    the position. *)
Definition wellPlaced (b : PlanetData) : Prop :=
  exists (m : Mesh) (pos : Vector3),
    mesh b = Some m /\ position b = Some pos /\ mesh_position m = pos.

(** Every planet and every moon of the list is placed. *)
Definition allPlaced (ps : list PlanetData) : Prop :=
  Forall (fun e => wellPlaced (snd e)) (Spec.allBodies ps).

(** The fields of a body that describe it rather than where it is. *)
Definition sameStatic (b b' : PlanetData) : Prop :=
  name b' = name b /\ radius b' = radius b /\
  orbitRadius b' = orbitRadius b /\ orbitPeriod b' = orbitPeriod b /\
  rotationPeriod b' = rotationPeriod b /\ tilt b' = tilt b /\
  option_map (@List.length PlanetData) (moons b')
  = option_map (@List.length PlanetData) (moons b) /\
  (mesh b' = None <-> mesh b = None).

(** The same for a planet and, one by one, for its moons. *)
Definition sameStaticDeep (p p' : PlanetData) : Prop :=
  sameStatic p p' /\
  match moons p, moons p' with
  | Some ms, Some ms' => Forall2 sameStatic ms ms'
  | None, None => True
  | _, _ => False
  end.

(** The body [b], named [r] in the planet list, can be returned by
    [focusOnNearest]: it has a position and, when it is a moon, so has its
    planet. *)
Definition eligible (planets : list PlanetData) (r : BodyRef)
           (b : PlanetData) : Prop :=
  lookup planets r = Some b /\
  position b <> None /\
  match r with
  | PlanetRef _ => True
  | MoonRef i _ =>
      exists p, nth_error planets i = Some p /\ position p <> None
  end.

(** The two locals of the scan agree, and the body held is eligible. *)
Definition scanOk (planets : list PlanetData) (sc : Focus.Scan) : Prop :=
  match Focus.nearest sc with
  | Some (r, b) => eligible planets r b /\ Focus.nearestDistance sc <> None
  | None => Focus.nearestDistance sc = None
  end.

(** ** Free flight *)

(** The events of a run that are pointer moves, in order. *)
Definition pointerMoves (deltas : list (R * R)) : list Flight.Action :=
  map (fun d => Flight.Dom (Flight.MouseMove (fst d) (snd d))) deltas.

(** The horizontal pointer travel of a sequence of moves. *)
Definition travelX (deltas : list (R * R)) : R :=
  fold_right (fun d acc => fst d + acc) 0 deltas.

(** A frame with a delta that is not negative, or any event. *)
Definition forwardInTime (a : Flight.Action) : Prop :=
  match a with
  | Flight.Tick dt => 0 <= dt
  | Flight.Dom _ => True
  end.

(** An action that is not a change of the pointer lock. *)
Definition keepsLock (a : Flight.Action) : Prop :=
  match a with
  | Flight.Dom (Flight.PointerLockChange _) => False
  | _ => True
  end.

(** ** Focus mode *)

(** The point on the orbit around [target] that [Focus.update] steers
    the camera to in a frame of delta [deltaTime]: its [idealPosition]. *)
Definition idealPosition (fc : Focus.FocusControls) (target : Vector3)
           (deltaTime : R) : Vector3 :=
  let angle := Focus.orbitAngle fc + Focus.orbitSpeed * deltaTime in
  addVectors target
             (vec3 (sin angle * Focus.orbitRadius fc)
                   (Focus.orbitRadius fc * 0.3)
                   (cos angle * Focus.orbitRadius fc)).

(** The application follows a body: the loop runs, focus mode is on and
    the target has a position. *)
Definition following (a : App.CosmosApp) : Prop :=
  App.isRunning a = true /\
  Focus.isFocused (App.focusControls a) = true /\
  Focus.targetPosition (App.focusControls a) (planets (App.solarSystem a))
  <> None.

(** Mode and target agree, and the free-flight velocity is zero while
    focus mode is on. *)
Definition modeOk (a : App.CosmosApp) : Prop :=
  (Focus.isFocused (App.focusControls a) = true
   <-> Focus.targetPlanet (App.focusControls a) <> None) /\
  (Focus.isFocused (App.focusControls a) = true
   -> Flight.velocity (App.flightControls a) = zero3).

(** What the HUD is given agrees with the mode it shows: in focus mode a
    target and speed 0, in free flight no target and distance 0. *)
Definition hudOk (h : App.HudData) : Prop :=
  if App.hud_isFocused h
  then App.hud_speed h = 0 /\ App.hud_targetPlanet h <> None
  else App.hud_targetPlanet h = None /\ App.hud_distance h = 0.

(** What every reachable state of the application satisfies. *)
Definition appOk (st : Ui.State) : Prop :=
  modeOk (Ui.app st) /\ App.isRunning (Ui.app st) = true.

(** The help overlay or the settings panel is open. *)
Definition panelOpen (st : Ui.State) : Prop :=
  Ui.helpVisible st = true \/ Ui.settingsVisible st = true.

(** ** Spin *)

(** The spin angle of a body is a finite number. *)
Definition finiteSpin (b : PlanetData) : Prop :=
  exists x : R, Spec.spin b = Some (JS.Fin x).

(** Every moon of the list of planets has a rotation period other than
    zero.  (Nothing is asked of the planets.) *)
Definition moonsTurn (ps : list PlanetData) : Prop :=
  Forall (fun p => match moons p with
                   | Some ms => Forall (fun m => rotationPeriod m <> 0) ms
                   | None => True
                   end) ps.

(** The spin angle of every planet and of every moon is finite. *)
Definition spinsFinite (ps : list PlanetData) : Prop :=
  Forall (fun p => finiteSpin p /\
                   match moons p with
                   | Some ms => Forall finiteSpin ms
                   | None => True
                   end) ps.

(** Update steps in sequence, each with its time and camera. *)
Definition updates (sys : SolarSystemObjects) (steps : list (R * Camera))
  : SolarSystemObjects :=
  fold_left (fun s step => updateSolarSystem s (fst step) (snd step))
            steps sys.

End Props.

(* ------------------------------------------------------------------ *)
(** * Facts about the utilities *)

Module MathFacts.

Import Three.

Lemma ltb_true (a b : R) : JS.ltb a b = true <-> a < b.
Proof. unfold JS.ltb; destruct (Rlt_dec a b); split; intros; try easy. Qed.

Lemma ltb_false (a b : R) : JS.ltb a b = false <-> b <= a.
Proof.
  unfold JS.ltb; destruct (Rlt_dec a b); split; intros; try easy; lra.
Qed.

Lemma clamp_bounds (v lo hi : R) :
  lo <= hi -> lo <= MathUtils.clamp v lo hi <= hi.
Proof.
  intros Hle; unfold MathUtils.clamp; split.
  - apply Rmax_l.
  - apply Rmax_lub; [exact Hle | apply Rmin_l].
Qed.

Lemma lerp_same (a t : R) : MathUtils.lerp a a t = a.
Proof. unfold MathUtils.lerp; ring. Qed.

Lemma damp_same (a tau dt : R) : MathUtils.damp a a tau dt = a.
Proof. unfold MathUtils.damp; apply lerp_same. Qed.

Lemma length_zero3 : length zero3 = 0.
Proof.
  unfold length, lengthSq, zero3; simpl.
  replace (0 * 0 + 0 * 0 + 0 * 0) with 0 by ring.
  apply sqrt_0.
Qed.

Lemma length_nonneg (v : Vector3) : 0 <= length v.
Proof. apply sqrt_pos. Qed.

Lemma multiplyScalar_zero3 (s : R) : multiplyScalar zero3 s = zero3.
Proof. unfold multiplyScalar, zero3; simpl; f_equal; ring. Qed.

Lemma applyQuaternion_zero3 (q : Quaternion) :
  applyQuaternion zero3 q = zero3.
Proof. unfold applyQuaternion, zero3; simpl; f_equal; ring. Qed.

Lemma addVectors_zero3_r (v : Vector3) : addVectors v zero3 = v.
Proof.
  destruct v as [x y z]; unfold addVectors, zero3; simpl; f_equal; ring.
Qed.

Lemma distanceTo_nonneg (a b : Vector3) : 0 <= distanceTo a b.
Proof. apply length_nonneg. Qed.

Lemma half_pi_ordered : - PI / 2 <= PI / 2.
Proof. pose proof PI_RGT_0; lra. Qed.

Example clamp_above : MathUtils.clamp 5 (- 1) 1 = 1.
Proof.
  unfold MathUtils.clamp; rewrite Rmin_left by lra; apply Rmax_right; lra.
Qed.

Example clamp_below : MathUtils.clamp (- 5) (- 1) 1 = - 1.
Proof.
  unfold MathUtils.clamp; rewrite Rmin_right by lra; apply Rmax_left; lra.
Qed.

Example lerp_half : MathUtils.lerp 2 4 0.5 = 3.
Proof. unfold MathUtils.lerp; lra. Qed.

Example damp_zero_delta : MathUtils.damp 3 7 5 0 = 3.
Proof.
  unfold MathUtils.damp, MathUtils.lerp.
  replace (- 0 / 5) with 0 by lra; rewrite exp_0; lra.
Qed.

Lemma distanceTo_along_x (a : R) :
  0 <= a -> distanceTo zero3 (vec3 a 0 0) = a.
Proof.
  intros Ha; unfold distanceTo, length, lengthSq, subVectors, zero3.
  cbn [vx vy vz].
  replace ((0 - a) * (0 - a) + (0 - 0) * (0 - 0) + (0 - 0) * (0 - 0))
    with (a * a) by ring.
  apply sqrt_square, Ha.
Qed.

End MathFacts.

(* ------------------------------------------------------------------ *)
(** * Facts about the free-flight controller *)

Module FlightFacts.

Import Three.
Import Flight.
Import Spec.
Import MathFacts.

(** ** Pitch clamp *)

Lemma setFlag_euler (s : FlightControls) (f : Flag) (b : bool) :
  euler (setFlag s f b) = euler s.
Proof. destruct f; reflexivity. Qed.

Lemma onMouseMove_pitch (s : FlightControls) (mx my : R) :
  pitchInRange s -> pitchInRange (onMouseMove s mx my).
Proof.
  intros H; unfold onMouseMove.
  destruct (isLocked s); simpl; [| exact H].
  unfold pitchInRange; simpl.
  apply clamp_bounds, half_pi_ordered.
Qed.

Lemma handle_pitch (s : FlightControls) (ev : DomEvent) :
  pitchInRange s -> pitchInRange (fst (handle s ev)).
Proof.
  intros H; destruct ev as [mx my | b | | code | code]; simpl.
  - apply onMouseMove_pitch, H.
  - unfold onPointerlockChange; simpl; destruct b; exact H.
  - exact H.
  - unfold onKeyDown; destruct (keyFlag code); [| exact H].
    unfold pitchInRange; rewrite setFlag_euler; exact H.
  - unfold onKeyUp; destruct (keyFlag code); [| exact H].
    unfold pitchInRange; rewrite setFlag_euler; exact H.
Qed.

Lemma update_euler (s : FlightControls) (cam : Camera) (dt : R) :
  euler (fst (update s cam dt)) = euler s.
Proof. unfold update; destruct (isLocked s); reflexivity. Qed.

Lemma step_pitch (sc : FlightControls * Camera) (a : Action) :
  pitchInRange (fst sc) -> pitchInRange (fst (step sc a)).
Proof.
  intros H; destruct a as [ev | dt]; simpl.
  - apply handle_pitch, H.
  - unfold pitchInRange; rewrite update_euler; exact H.
Qed.

Lemma run_pitch (l : list Action) (sc : FlightControls * Camera) :
  pitchInRange (fst sc) -> pitchInRange (fst (run sc l)).
Proof.
  revert sc; induction l as [| a l IH]; intros sc H; simpl.
  - exact H.
  - apply IH, step_pitch, H.
Qed.

Lemma pitchDegrees_range (s : FlightControls) :
  pitchInRange s <-> - 90 <= pitchDegrees s <= 90.
Proof.
  pose proof PI_RGT_0 as Hpi.
  unfold pitchInRange, pitchDegrees.
  assert (E : ex (euler s) = (ex (euler s) * 180 / PI) * (PI / 180))
    by (field; lra).
  split; intros [H1 H2].
  - split.
    + apply Rmult_le_reg_r with (PI / 180); [lra |].
      rewrite <- E; lra.
    + apply Rmult_le_reg_r with (PI / 180); [lra |].
      rewrite <- E; lra.
  - rewrite E; split.
    + apply Rle_trans with (- 90 * (PI / 180)); [lra |].
      apply Rmult_le_compat_r; lra.
    + apply Rle_trans with (90 * (PI / 180)); [| lra].
      apply Rmult_le_compat_r; lra.
Qed.

(** C7.  Starting from an orientation whose pitch lies in [-90, +90]
    degrees, the pitch lies in that range after any sequence of events and
    frames handled by the free-flight controller, in particular after any
    sequence of relative pointer-motion deltas. *)
Theorem pitch_stays_clamped :
  forall (s : FlightControls) (cam : Camera) (l : list Action),
    - 90 <= pitchDegrees s <= 90 ->
    - 90 <= pitchDegrees (fst (run (s, cam) l)) <= 90.
Proof.
  intros s cam l H.
  apply pitchDegrees_range, run_pitch; simpl.
  apply pitchDegrees_range, H.
Qed.

(** A concrete controller: unlocked, at rest, looking straight ahead, with
    both callbacks registered. *)
Lemma pitch_stays_clamped_witness :
  - 90 <= pitchDegrees
            (fst (run (mkFlightControls false false false false false false
                                        false zero3 zero3 (mkEuler 0 0 0)
                                        false (Some 1%nat) (Some 2%nat),
                       mkCamera zero3 (quat 0 0 0 1))
                      [Dom (PointerLockChange true);
                       Dom (MouseMove 10 100000);
                       Tick 0.016]))
  <= 90.
Proof.
  apply pitch_stays_clamped.
  unfold pitchDegrees; simpl.
  replace (0 * 180 / PI) with 0 by (unfold Rdiv; ring).
  lra.
Defined.

(** ** Rest after [disable] *)

Lemma disable_atRest (s : FlightControls) : atRest (disable s).
Proof. unfold atRest, disable; simpl; repeat split. Qed.

Lemma commanded_atRest (s : FlightControls) :
  atRest s -> commanded s = zero3.
Proof.
  intros (H1 & H2 & H3 & H4 & H5 & H6 & _).
  unfold commanded; rewrite H1, H2, H3, H4, H5, H6; reflexivity.
Qed.

Lemma targetVelocity_atRest (s : FlightControls) (q : Quaternion) :
  atRest s -> targetVelocity s q = zero3.
Proof.
  intros H; unfold targetVelocity.
  rewrite (commanded_atRest s H), length_zero3.
  destruct (Rlt_dec 0 0) as [Hlt | _]; [lra |].
  rewrite applyQuaternion_zero3; apply multiplyScalar_zero3.
Qed.

Lemma update_atRest (s : FlightControls) (cam : Camera) (dt : R) :
  atRest s ->
  atRest (fst (update s cam dt)) /\
  position (snd (update s cam dt)) = position cam.
Proof.
  intros H; unfold update.
  destruct (isLocked s); cbn [negb]; [| split; [exact H | reflexivity]].
  cbv zeta; rewrite (targetVelocity_atRest s _ H).
  destruct H as (H1 & H2 & H3 & H4 & H5 & H6 & Hv).
  rewrite Hv; unfold zero3 at 1 2 3 4 5 6 7 8 9 10 11 12; cbn [vx vy vz].
  rewrite !damp_same; fold zero3; cbn [fst snd position].
  split.
  - unfold atRest; simpl; repeat split; assumption.
  - rewrite multiplyScalar_zero3; apply addVectors_zero3_r.
Qed.

Lemma setFlag_false_atRest (s : FlightControls) (f : Flag) :
  atRest s -> atRest (setFlag s f false).
Proof.
  intros (H1 & H2 & H3 & H4 & H5 & H6 & Hv).
  destruct f; unfold atRest; simpl; repeat split; assumption.
Qed.

Lemma setFlag_boost_atRest (s : FlightControls) (b : bool) :
  atRest s -> atRest (setFlag s Boost b).
Proof.
  intros (H1 & H2 & H3 & H4 & H5 & H6 & Hv).
  unfold atRest; simpl; repeat split; assumption.
Qed.

Lemma step_atRest (sc : FlightControls * Camera) (a : Action) :
  setsMoveFlag a = false ->
  atRest (fst sc) ->
  atRest (fst (step sc a)) /\
  position (snd (step sc a)) = position (snd sc).
Proof.
  intros Ha H; destruct a as [ev | dt]; simpl.
  - split; [| reflexivity].
    destruct ev as [mx my | b | | code | code]; simpl.
    + unfold onMouseMove; destruct (isLocked (fst sc)); simpl; exact H.
    + unfold onPointerlockChange; simpl; destruct b; exact H.
    + exact H.
    + simpl in Ha; unfold onKeyDown.
      destruct (keyFlag code) as [f |]; [| exact H].
      destruct f; try discriminate Ha.
      apply setFlag_boost_atRest, H.
    + unfold onKeyUp; destruct (keyFlag code) as [f |]; [| exact H].
      apply setFlag_false_atRest, H.
  - apply update_atRest, H.
Qed.

Lemma run_atRest (l : list Action) (sc : FlightControls * Camera) :
  Forall (fun a => setsMoveFlag a = false) l ->
  atRest (fst sc) ->
  atRest (fst (run sc l)) /\
  position (snd (run sc l)) = position (snd sc).
Proof.
  revert sc; induction l as [| a l IH]; intros sc Hl H; simpl.
  - split; [exact H | reflexivity].
  - inversion Hl as [| ? ? Ha Hl']; subst.
    destruct (step_atRest sc a Ha H) as [H' Hp].
    destruct (IH (step sc a) Hl' H') as [H'' Hp'].
    split; [exact H'' | rewrite Hp'; exact Hp].
Qed.

Lemma getSpeed_atRest (s : FlightControls) : atRest s -> getSpeed s = 0.
Proof.
  intros (_ & _ & _ & _ & _ & _ & Hv).
  unfold getSpeed; rewrite Hv; apply length_zero3.
Qed.

(** C8.  [disable ()] clears the seven movement flags and sets the
    velocity to the zero vector; from then on, over any sequence of frames
    and events that raises none of the six movement flags, [getSpeed ()] is
    0 and the camera position does not move. *)
Theorem disable_stops_motion :
  forall (s : FlightControls) (cam : Camera) (l : list Action),
    Forall (fun a => setsMoveFlag a = false) l ->
    (moveForward (disable s) = false /\ moveBackward (disable s) = false /\
     moveLeft (disable s) = false /\ moveRight (disable s) = false /\
     moveUp (disable s) = false /\ moveDown (disable s) = false /\
     boost (disable s) = false) /\
    velocity (disable s) = zero3 /\
    getSpeed (disable s) = 0 /\
    getSpeed (fst (run (disable s, cam) l)) = 0 /\
    position (snd (run (disable s, cam) l)) = position cam.
Proof.
  intros s cam l Hl.
  pose proof (disable_atRest s) as H0.
  destruct (run_atRest l (disable s, cam) Hl H0) as [H1 H2].
  split; [repeat split |].
  split; [reflexivity |].
  split; [apply getSpeed_atRest, H0 |].
  split; [apply getSpeed_atRest, H1 | exact H2].
Qed.

(** A locked controller flying forward with boost is disabled; three
    frames, a boost key and a mouse move follow. *)
Lemma disable_stops_motion_witness :
  let s := mkFlightControls true false false false false false true
                            (vec3 0 0 (- 30)) (vec3 0 0 (- 240))
                            (mkEuler 0 0 0) true None None in
  let cam := mkCamera (vec3 1 2 3) (quat 0 0 0 1) in
  let l := [Tick 0.016; Dom (KeyDown "ShiftLeft"); Dom (MouseMove 3 4);
            Tick 0.016; Dom (KeyUp "KeyW"); Tick 0.5] in
  getSpeed (fst (run (disable s, cam) l)) = 0 /\
  position (snd (run (disable s, cam) l)) = vec3 1 2 3.
Proof.
  intros s cam l.
  assert (Hl : Forall (fun a => setsMoveFlag a = false) l)
    by (repeat constructor).
  destruct (disable_stops_motion s cam l Hl) as (_ & _ & _ & H1 & H2).
  split; [exact H1 | exact H2].
Defined.

(** ** Pointer-lock failure *)

(** C9, as stated, fails: with both of the controller's callbacks
    registered, handling a pointer-lock error calls no callback. *)
Lemma lock_failure_callback_cex :
  ~ (exists cb : Callback,
        In (InvokeCallback cb)
           (snd (handle (mkFlightControls false false false false false false
                                          false zero3 zero3 (mkEuler 0 0 0)
                                          false (Some 1%nat) (Some 2%nat))
                        PointerLockError))).
Proof.
  intros [cb H]; simpl in H.
  destruct H as [H | []]; discriminate H.
Qed.

(** C9, amended.  When a request for pointer capture fails while the
    controller is unlocked, the failure is written to the console and no
    callback is called; the controller is left as it was, hence unlocked,
    with pointer motion and frames having no effect; and the capture is
    not requested again.  [lock ()] itself only forwards the request. *)
Theorem lock_failure_is_logged_only :
  forall (s : FlightControls) (cam : Camera) (dt mx my : R),
    isLocked s = false ->
    handle s PointerLockError = (s, [ConsoleError "Pointer lock failed"]) /\
    (forall cb, ~ In (InvokeCallback cb) (snd (handle s PointerLockError))) /\
    ~ In RequestPointerLock (snd (handle s PointerLockError)) /\
    isLocked (fst (handle s PointerLockError)) = false /\
    update (fst (handle s PointerLockError)) cam dt = (s, cam) /\
    onMouseMove (fst (handle s PointerLockError)) mx my = s /\
    lock s = (s, [RequestPointerLock]).
Proof.
  intros s cam dt mx my Hu; simpl.
  repeat split.
  - intros cb [H | []]; discriminate H.
  - intros [H | []]; discriminate H.
  - exact Hu.
  - unfold update; rewrite Hu; reflexivity.
  - unfold onMouseMove; rewrite Hu; reflexivity.
Qed.

Lemma lock_failure_is_logged_only_witness :
  update (fst (handle (mkFlightControls true false false false false false
                                        false zero3 zero3 (mkEuler 0 0 0)
                                        false (Some 1%nat) (Some 2%nat))
                      PointerLockError))
         (mkCamera zero3 (quat 0 0 0 1)) 0.016
  = (mkFlightControls true false false false false false
                      false zero3 zero3 (mkEuler 0 0 0)
                      false (Some 1%nat) (Some 2%nat),
     mkCamera zero3 (quat 0 0 0 1)).
Proof.
  exact (proj1 (proj2 (proj2 (proj2 (proj2
    (lock_failure_is_logged_only
       (mkFlightControls true false false false false false
                         false zero3 zero3 (mkEuler 0 0 0)
                         false (Some 1%nat) (Some 2%nat))
       (mkCamera zero3 (quat 0 0 0 1)) 0.016 0 0 eq_refl)))))).
Defined.

(** ** Time constants of the velocity update *)

Lemma setFromEuler_unit (e : Euler) :
  qx (setFromEuler e) * qx (setFromEuler e)
  + qy (setFromEuler e) * qy (setFromEuler e)
  + qz (setFromEuler e) * qz (setFromEuler e)
  + qw (setFromEuler e) * qw (setFromEuler e) = 1.
Proof.
  unfold setFromEuler; cbn [qx qy qz qw].
  pose proof (sin2_cos2 (ex e / 2)) as H1.
  pose proof (sin2_cos2 (ey e / 2)) as H2.
  pose proof (sin2_cos2 (ez e / 2)) as H3.
  unfold Rsqr in H1, H2, H3.
  set (s1 := sin (ex e / 2)) in *. set (c1 := cos (ex e / 2)) in *.
  set (s2 := sin (ey e / 2)) in *. set (c2 := cos (ey e / 2)) in *.
  set (s3 := sin (ez e / 2)) in *. set (c3 := cos (ez e / 2)) in *.
  replace 1 with ((s1 * s1 + c1 * c1) * (s2 * s2 + c2 * c2)
                  * (s3 * s3 + c3 * c3))
    by (rewrite H1, H2, H3; ring).
  ring.
Qed.

Lemma applyQuaternion_lengthSq (v : Vector3) (q : Quaternion) :
  qx q * qx q + qy q * qy q + qz q * qz q + qw q * qw q = 1 ->
  lengthSq (applyQuaternion v q) = lengthSq v.
Proof.
  destruct v as [x y z], q as [a b c w]; unfold lengthSq, applyQuaternion.
  cbn [vx vy vz qx qy qz qw]; intros H.
  replace ((x + w * (2 * (b * z - c * y)) + b * (2 * (a * y - b * x))
            - c * (2 * (c * x - a * z)))
           * (x + w * (2 * (b * z - c * y)) + b * (2 * (a * y - b * x))
              - c * (2 * (c * x - a * z)))
           + (y + w * (2 * (c * x - a * z)) + c * (2 * (b * z - c * y))
              - a * (2 * (a * y - b * x)))
             * (y + w * (2 * (c * x - a * z)) + c * (2 * (b * z - c * y))
                - a * (2 * (a * y - b * x)))
           + (z + w * (2 * (a * y - b * x)) + a * (2 * (c * x - a * z))
              - b * (2 * (b * z - c * y)))
             * (z + w * (2 * (a * y - b * x)) + a * (2 * (c * x - a * z))
                - b * (2 * (b * z - c * y))))
    with (x * x + y * y + z * z
          + 4 * (a * a + b * b + c * c + w * w - 1)
              * ((b * z - c * y) * (b * z - c * y)
                 + (c * x - a * z) * (c * x - a * z)
                 + (a * y - b * x) * (a * y - b * x)))
    by ring.
  rewrite H; ring.
Qed.

Lemma lengthSq_nonneg (v : Vector3) : 0 <= lengthSq v.
Proof. unfold lengthSq; nra. Qed.

Lemma lengthSq_multiplyScalar (v : Vector3) (k : R) :
  lengthSq (multiplyScalar v k) = lengthSq v * (k * k).
Proof. unfold lengthSq, multiplyScalar; cbn [vx vy vz]; ring. Qed.

Lemma lengthSq_pos (v : Vector3) : v <> zero3 -> 0 < lengthSq v.
Proof.
  destruct v as [x y z]; unfold lengthSq, zero3; cbn [vx vy vz]; intros Hv.
  destruct (Req_dec x 0) as [Hx | Hx]; [| nra].
  destruct (Req_dec y 0) as [Hy | Hy]; [| nra].
  destruct (Req_dec z 0) as [Hz | Hz]; [| nra].
  subst; exfalso; apply Hv; reflexivity.
Qed.

Lemma length_pos (v : Vector3) : 0 < lengthSq v -> 0 < length v.
Proof. intros H; unfold length; apply sqrt_lt_R0, H. Qed.

Lemma lengthSq_normalize (v : Vector3) :
  0 < lengthSq v -> lengthSq (normalize v) = 1.
Proof.
  intros H; pose proof (length_pos v H) as Hl.
  unfold normalize; rewrite lengthSq_multiplyScalar.
  destruct (Req_dec_T (length v) 0) as [E | _]; [lra |].
  assert (Hs : lengthSq v = length v * length v)
    by (unfold length; rewrite sqrt_sqrt; [reflexivity | lra]).
  rewrite Hs; field; lra.
Qed.

Lemma targetSpeed_pos (b : bool) :
  0 < baseSpeed * (if b then boostMultiplier else 1).
Proof. unfold baseSpeed, boostMultiplier; destruct b; lra. Qed.

(** A commanded direction survives normalisation, rotation by the
    orientation and scaling by the target speed. *)
Lemma targetVelocity_nonzero (s : FlightControls) (e : Euler) :
  commanded s <> zero3 -> 0 < length (targetVelocity s (setFromEuler e)).
Proof.
  intros Hc; pose proof (lengthSq_pos _ Hc) as Hsq.
  pose proof (length_pos _ Hsq) as Hl.
  apply length_pos; unfold targetVelocity.
  destruct (Rlt_dec 0 (length (commanded s))) as [_ | Hn]; [| lra].
  rewrite lengthSq_multiplyScalar,
    (applyQuaternion_lengthSq _ _ (setFromEuler_unit e)),
    (lengthSq_normalize _ Hsq).
  pose proof (targetSpeed_pos (boost s)); nra.
Qed.

Lemma dampingFactor_commanded (s : FlightControls) (e : Euler) :
  commanded s <> zero3 ->
  dampingFactor (targetVelocity s (setFromEuler e)) = 30.
Proof.
  intros Hc; unfold dampingFactor.
  destruct (Rlt_dec 0 (length (targetVelocity s (setFromEuler e))))
    as [_ | Hn]; [reflexivity |].
  exfalso; apply Hn, targetVelocity_nonzero, Hc.
Qed.

Lemma targetVelocity_idle (s : FlightControls) (q : Quaternion) :
  commanded s = zero3 -> targetVelocity s q = zero3.
Proof.
  intros Hc; unfold targetVelocity; rewrite Hc, length_zero3.
  destruct (Rlt_dec 0 0) as [Hlt | _]; [lra |].
  rewrite applyQuaternion_zero3; apply multiplyScalar_zero3.
Qed.

Lemma dampingFactor_idle (s : FlightControls) (q : Quaternion) :
  commanded s = zero3 -> dampingFactor (targetVelocity s q) = 5.
Proof.
  intros Hc; rewrite (targetVelocity_idle s q Hc).
  unfold dampingFactor; rewrite length_zero3.
  destruct (Rlt_dec 0 0) as [Hlt | _]; [lra | reflexivity].
Qed.

(** For one and the same positive frame delta, the blend factor of
    [damp] is smaller for the time constant 30 than for 5. *)
Lemma blend_30_lt_blend_5 (dt : R) :
  0 < dt -> 1 - exp (- dt / 30) < 1 - exp (- dt / 5).
Proof.
  intros Hdt.
  assert (H : exp (- dt / 5) < exp (- dt / 30))
    by (apply exp_increasing; lra).
  lra.
Qed.

(** C4, as stated, fails: flying forward the update uses the time
    constant 30, coasting it uses 5, so the constant used while a
    direction is commanded is not the smaller one, and for the frame delta
    0.016 its blend factor is not the larger one. *)
Lemma accelerating_not_faster_cex :
  let flying := mkFlightControls true false false false false false false
                                 zero3 zero3 (mkEuler 0 0 0) true None None in
  let coasting := mkFlightControls false false false false false false false
                                   zero3 zero3 (mkEuler 0 0 0) true None None in
  let q := setFromEuler (mkEuler 0 0 0) in
  commanded flying <> zero3 /\ commanded coasting = zero3 /\
  ~ (dampingFactor (targetVelocity flying q)
     < dampingFactor (targetVelocity coasting q)) /\
  ~ (1 - exp (- (0.016) / dampingFactor (targetVelocity coasting q))
     < 1 - exp (- (0.016) / dampingFactor (targetVelocity flying q))).
Proof.
  intros flying coasting q.
  assert (Hf : commanded flying <> zero3).
  { unfold commanded, flying, zero3; cbn.
    intros E; apply (f_equal vz) in E; cbn in E; clear - E; lra. }
  assert (Hc : commanded coasting = zero3) by reflexivity.
  unfold q; rewrite (dampingFactor_commanded flying _ Hf),
              (dampingFactor_idle coasting _ Hc).
  split; [exact Hf | split; [exact Hc | split]].
  - clear; lra.
  - assert (Hdt : 0 < 0.016) by (clear; lra).
    pose proof (blend_30_lt_blend_5 0.016 Hdt) as H; clear - H; lra.
Qed.

(** C4, amended.  In a frame of a locked controller each velocity
    component moves toward the target velocity so that the remaining gap
    is multiplied by [exp (- dt / tau)]; [tau] is 30 while the movement
    flags command a non-zero direction and 5 when they command none (the
    target velocity is then zero).  The constant used while accelerating
    is thus the larger one, and for one and the same positive [dt] its
    response is strictly slower than the response while coasting. *)
Theorem velocity_update_time_constants :
  forall (s : FlightControls) (cam : Camera) (dt : R),
    isLocked s = true ->
    subVectors (velocity (fst (update s cam dt)))
               (targetVelocity s (setFromEuler (euler s)))
    = multiplyScalar
        (subVectors (velocity s) (targetVelocity s (setFromEuler (euler s))))
        (exp (- dt / dampingFactor (targetVelocity s (setFromEuler (euler s)))))
    /\ (commanded s <> zero3 ->
        dampingFactor (targetVelocity s (setFromEuler (euler s))) = 30)
    /\ (commanded s = zero3 ->
        dampingFactor (targetVelocity s (setFromEuler (euler s))) = 5
        /\ targetVelocity s (setFromEuler (euler s)) = zero3)
    /\ (0 < dt -> 1 - exp (- dt / 30) < 1 - exp (- dt / 5)).
Proof.
  intros s cam dt Hl.
  split; [| split; [| split]].
  - unfold update; rewrite Hl; cbn [negb fst]; cbv zeta.
    unfold set_velocity_direction; cbn [velocity].
    unfold subVectors, multiplyScalar, MathUtils.damp, MathUtils.lerp.
    cbn [vx vy vz]; f_equal; ring.
  - apply dampingFactor_commanded.
  - intros Hc; split;
      [apply dampingFactor_idle, Hc | apply targetVelocity_idle, Hc].
  - apply blend_30_lt_blend_5.
Qed.

Lemma velocity_update_time_constants_witness :
  dampingFactor
    (targetVelocity
       (mkFlightControls false false false false false false true
                         (vec3 0 0 (- 30)) zero3 (mkEuler 0 0 0)
                         true None None)
       (setFromEuler (mkEuler 0 0 0))) = 5
  /\ 1 - exp (- (0.016) / 30) < 1 - exp (- (0.016) / 5).
Proof.
  pose proof (velocity_update_time_constants
                (mkFlightControls false false false false false false true
                                  (vec3 0 0 (- 30)) zero3 (mkEuler 0 0 0)
                                  true None None)
                (mkCamera zero3 (quat 0 0 0 1)) 0.016 eq_refl)
    as (_ & _ & Hidle & Hblend).
  split.
  - exact (proj1 (Hidle eq_refl)).
  - apply Hblend; lra.
Defined.

Example keyFlag_W : keyFlag "KeyW" = Some MoveForward.
Proof. reflexivity. Qed.

Example keyFlag_Q : keyFlag "KeyQ" = Some MoveDown.
Proof. reflexivity. Qed.

Example keyFlag_other : keyFlag "KeyF" = None.
Proof. reflexivity. Qed.

Example pointer_lock_gained :
  onPointerlockChange
    (mkFlightControls false false false false false false false zero3 zero3
                      (mkEuler 0 0 0) false (Some 1%nat) (Some 2%nat))
    true
  = (mkFlightControls false false false false false false false zero3 zero3
                      (mkEuler 0 0 0) true (Some 1%nat) (Some 2%nat),
     [BodyClassAdd "pointer-locked"; InvokeCallback 1%nat]).
Proof. reflexivity. Qed.

End FlightFacts.

(* ------------------------------------------------------------------ *)
(** * Facts about the solar system *)

Module SolarFacts.

Import Three.
Import SolarSystem.
Import Spec.
Import MathFacts.

(** ** What an update keeps *)

Lemma updateMoon_params (t : R) (pp : Vector3) (moon : PlanetData) :
  orbitRadius (updateMoon t pp moon) = orbitRadius moon /\
  orbitPeriod (updateMoon t pp moon) = orbitPeriod moon /\
  rotationPeriod (updateMoon t pp moon) = rotationPeriod moon /\
  (mesh (updateMoon t pp moon) = None <-> mesh moon = None).
Proof.
  destruct moon as [n r oR oP rP tl me po ms ol lb]; unfold updateMoon.
  destruct me as [m |], ol; cbn; repeat split; intros; try discriminate;
    reflexivity.
Qed.

Lemma updatePlanet_no_mesh (t : R) (cam : Camera) (p : PlanetData) :
  mesh p = None -> updatePlanet t cam p = p.
Proof. intros E; unfold updatePlanet; rewrite E; reflexivity. Qed.

(** The fields of a planet after its turn of the loop. *)
Lemma updatePlanet_fields (t : R) (cam : Camera) (p : PlanetData) (m : Mesh) :
  mesh p = Some m ->
  let position' := orbitPoint (orbitRadius p) ((t / orbitPeriod p) * 0.1) in
  orbitRadius (updatePlanet t cam p) = orbitRadius p /\
  orbitPeriod (updatePlanet t cam p) = orbitPeriod p /\
  rotationPeriod (updatePlanet t cam p) = rotationPeriod p /\
  radius (updatePlanet t cam p) = radius p /\
  position (updatePlanet t cam p) = Some position' /\
  mesh (updatePlanet t cam p)
  = Some (mkMesh position'
                 (JS.add (rotation_y m)
                         (JS.Fin (if Req_dec_T (rotationPeriod p) 0 then 0
                                  else (1 / rotationPeriod p) * 0.01)))
                 (rotation_z m)) /\
  moons (updatePlanet t cam p)
  = option_map (map (updateMoon t position')) (moons p).
Proof.
  destruct p as [n r oR oP rP tl me po ms ol lb]; cbn [mesh].
  intros E; subst me; unfold updatePlanet; cbn.
  destruct lb, ms; cbn; repeat split.
Qed.

Lemma lookup_planet_update (sys : SolarSystemObjects) (t : R) (cam : Camera)
      (i : nat) :
  lookup (planets (updateSolarSystem sys t cam)) (PlanetRef i)
  = option_map (updatePlanet t cam) (lookup (planets sys) (PlanetRef i)).
Proof. cbn; apply nth_error_map. Qed.

Lemma lookup_moon_update (sys : SolarSystemObjects) (t : R) (cam : Camera)
      (i j : nat) (p : PlanetData) (m : Mesh) :
  lookup (planets sys) (PlanetRef i) = Some p ->
  mesh p = Some m ->
  lookup (planets (updateSolarSystem sys t cam)) (MoonRef i j)
  = option_map
      (updateMoon t (orbitPoint (orbitRadius p) ((t / orbitPeriod p) * 0.1)))
      (lookup (planets sys) (MoonRef i j)).
Proof.
  intros Hp Hm; cbn in *.
  rewrite nth_error_map, Hp; cbn [option_map].
  destruct (updatePlanet_fields t cam p m Hm) as (_ & _ & _ & _ & _ & _ & Hms).
  rewrite Hms.
  destruct (moons p) as [ms |]; cbn [option_map]; [| reflexivity].
  apply nth_error_map.
Qed.

(** ** Spin *)

(** C2, as stated, fails: the spin of a body (here one with rotation
    period 1, mesh at rest) advances by the same amount whatever the
    frame delta, so no constant [spinScale] makes the increment
    [(1 / rotationPeriod) * spinScale * dt]. *)
Lemma spin_not_scaled_by_dt_cex :
  ~ (exists spinScale' : R,
        forall time dt : R,
          spin (updatePlanet (time + dt) (mkCamera zero3 (quat 0 0 0 1))
                  (mkPlanetData "Earth" 1 50 1 1 0
                                (Some (mkMesh (vec3 50 0 0) (JS.Fin 0) 0))
                                (Some (vec3 50 0 0)) None None None))
          = Some (JS.Fin (0 + (1 / 1) * spinScale' * dt))).
Proof.
  intros [k H].
  pose proof (H 0 1) as H1; pose proof (H 0 2) as H2.
  unfold spin, updatePlanet in H1, H2; cbn in H1, H2.
  destruct (Req_dec_T 1 0) as [E | _]; [lra |].
  injection H1 as H1; injection H2 as H2; lra.
Qed.

(** C2, amended.  In one update step a body with a mesh and a non-zero
    [rotationPeriod] has its spin angle advanced by
    [(1 / rotationPeriod) * spinScale], whatever the simulation time and
    the frame delta: the accumulated spin counts frames.  This holds for a
    planet, and for a moon whose planet has a mesh.  A planet whose
    [rotationPeriod] is zero keeps its spin angle. *)
Theorem spin_step_per_frame :
  forall (sys : SolarSystemObjects) (t : R) (cam : Camera)
         (i j : nat) (p : PlanetData) (m : Mesh) (a : R),
    lookup (planets sys) (PlanetRef i) = Some p ->
    mesh p = Some m ->
    rotation_y m = JS.Fin a ->
    (rotationPeriod p <> 0 ->
     option_map spin (lookup (planets (updateSolarSystem sys t cam))
                             (PlanetRef i))
     = Some (Some (JS.Fin (a + (1 / rotationPeriod p) * spinScale)))) /\
    (rotationPeriod p = 0 ->
     option_map spin (lookup (planets (updateSolarSystem sys t cam))
                             (PlanetRef i))
     = Some (Some (JS.Fin a))) /\
    (forall (moon : PlanetData) (mm : Mesh) (b : R),
        lookup (planets sys) (MoonRef i j) = Some moon ->
        mesh moon = Some mm ->
        rotation_y mm = JS.Fin b ->
        rotationPeriod moon <> 0 ->
        option_map spin (lookup (planets (updateSolarSystem sys t cam))
                                (MoonRef i j))
        = Some (Some (JS.Fin (b + (1 / rotationPeriod moon) * spinScale)))).
Proof.
  intros sys t cam i j p m a Hp Hm Ha.
  destruct (updatePlanet_fields t cam p m Hm) as (_ & _ & _ & _ & _ & Hmesh & _).
  rewrite lookup_planet_update, Hp; cbn [option_map].
  unfold spin at 1 2; rewrite Hmesh, Ha; cbn [option_map rotation_y JS.add].
  split; [| split].
  - intros Hr; destruct (Req_dec_T (rotationPeriod p) 0) as [E | _];
      [contradiction | reflexivity].
  - intros Hr; destruct (Req_dec_T (rotationPeriod p) 0) as [_ | E];
      [| contradiction].
    do 3 f_equal; ring.
  - intros moon mm b Hmoon Hmm Hb Hr.
    rewrite (lookup_moon_update sys t cam i j p m Hp Hm), Hmoon.
    cbn [option_map]; unfold spin, updateMoon; rewrite Hmm; cbv zeta.
    cbn [orbitLine set_mesh_position].
    assert (Hs : JS.add (rotation_y mm)
                        (JS.scale (JS.recip (rotationPeriod moon)) 0.01)
                 = JS.Fin (b + 1 / rotationPeriod moon * spinScale)).
    { rewrite Hb; unfold JS.recip.
      destruct (Req_dec_T (rotationPeriod moon) 0) as [E | _];
        [contradiction | reflexivity]. }
    destruct (orbitLine moon); cbn; rewrite Hs; reflexivity.
Qed.

Lemma spin_step_per_frame_witness :
  option_map spin
    (lookup (planets (updateSolarSystem Examples.system0 0.016
                                        Examples.camera0))
            (PlanetRef 0))
  = Some (Some (JS.Fin (0 + (1 / (-243)) * spinScale))).
Proof.
  refine (proj1 (spin_step_per_frame
                   Examples.system0 0.016 Examples.camera0 0 0
                   Examples.venus
                   (mkMesh (vec3 36 0 0) (JS.Fin 0) 0) 0
                   eq_refl eq_refl eq_refl) _).
  cbn; lra.
Defined.

(** X1.  The spin of a moon that has a mesh and whose [rotationPeriod]
    is zero leaves the finite numbers in one update step: the moon loop
    divides by [rotationPeriod] without the test the planet loop has. *)
Lemma moon_zero_rotationPeriod_spin (t : R) (pp : Vector3)
      (moon : PlanetData) (mm : Mesh) :
  mesh moon = Some mm ->
  rotationPeriod moon = 0 ->
  spin (updateMoon t pp moon) = Some JS.NonFinite.
Proof.
  intros Hm Hr; unfold spin, updateMoon; rewrite Hm; cbv zeta.
  assert (Hs : JS.add (rotation_y mm)
                      (JS.scale (JS.recip (rotationPeriod moon)) 0.01)
               = JS.NonFinite).
  { unfold JS.recip; rewrite Hr.
    destruct (Req_dec_T 0 0) as [_ | E]; [| contradiction].
    destruct (rotation_y mm); reflexivity. }
  cbn [orbitLine set_mesh_position].
  destruct (orbitLine moon); cbn; rewrite Hs; reflexivity.
Qed.

(** ** Registration *)

Lemma createPlanet_registeredAs (p : PlanetData) :
  exists p', createPlanet p = Fulfilled p' /\ registeredAs p p' /\
             moons p' = moons p.
Proof.
  eexists; split; [reflexivity |].
  unfold registeredAs, spin; cbn; repeat split.
Qed.

Lemma createMoons_registeredAs (ms : list PlanetData) :
  exists ms', createMoons ms = Fulfilled ms' /\ Forall2 registeredAs ms ms'.
Proof.
  induction ms as [| moon rest (rest' & E & H)]; cbn.
  - exists []; split; [reflexivity | constructor].
  - rewrite E; cbn; eexists; split; [reflexivity |].
    constructor; [| exact H].
    unfold registeredAs, spin; cbn; repeat split.
Qed.

Lemma registerPlanet_registeredAs (p : PlanetData) :
  exists p', registerPlanet p = Fulfilled p' /\ registeredAs p p' /\
             moonsRegisteredAs p p'.
Proof.
  unfold registerPlanet, moonsRegisteredAs; cbn.
  destruct (moons p) as [ms |] eqn:Ems.
  - destruct (createMoons_registeredAs ms) as (ms' & E & H).
    rewrite E; cbn; eexists; split; [reflexivity |].
    split; [unfold registeredAs, spin; cbn; repeat split |].
    cbn; exact H.
  - eexists; split; [reflexivity |].
    split; [unfold registeredAs, spin; cbn; repeat split |].
    cbn; rewrite Ems; exact I.
Qed.

Lemma registered_zero_rotation_keeps_spin (p p' : PlanetData) :
  registeredAs p p' ->
  rotationPeriod p = 0 ->
  forall (t : R) (cam : Camera),
    spin (updatePlanet t cam p') = Some (JS.Fin 0).
Proof.
  intros (_ & Hr & _ & _ & Hs) H0 t cam.
  unfold spin in Hs.
  destruct (mesh p') as [m |] eqn:Em; [| discriminate Hs].
  injection Hs as Hs.
  destruct (updatePlanet_fields t cam p' m Em) as (_ & _ & _ & _ & _ & Hm & _).
  unfold spin; rewrite Hm, Hs, Hr, H0; cbn.
  destruct (Req_dec_T 0 0) as [_ | E]; [| contradiction].
  do 2 f_equal; ring.
Qed.

(** C3, as stated, fails: a table holding a body of orbit period 0 and
    a body of orbit period -1 is registered without any error. *)
Lemma registration_accepts_nonpositive_period_cex :
  orbitPeriod Examples.stalled <= 0 /\
  orbitPeriod Examples.backward <= 0 /\
  ~ (exists reason : string,
        registerBodies [Examples.stalled; Examples.backward]
        = Rejected reason).
Proof.
  split; [cbn; lra |].
  split; [cbn; lra |].
  intros [reason H]; cbn in H; discriminate H.
Qed.

(** C3, amended.  Registration checks no period: every table of bodies is
    registered without error, each body (and each of its moons) keeping
    its [orbitPeriod] and [rotationPeriod] as given, whatever their sign,
    and being placed at [(orbitRadius, 0, 0)] with spin 0.  A planet
    registered with [rotationPeriod] zero is accepted like any other and
    its spin stays 0 in every update step. *)
Theorem registration_checks_no_period :
  forall planetsData : list PlanetData,
  exists ps : list PlanetData,
    registerBodies planetsData = Fulfilled ps /\
    Forall2 (fun p p' =>
               registeredAs p p' /\ moonsRegisteredAs p p' /\
               (rotationPeriod p = 0 ->
                forall (t : R) (cam : Camera),
                  spin (updatePlanet t cam p') = Some (JS.Fin 0)))
            planetsData ps.
Proof.
  intros table; induction table as [| p rest (rest' & E & H)];
    cbn [registerBodies].
  - exists []; split; [reflexivity | constructor].
  - destruct (registerPlanet_registeredAs p) as (p' & Ep & Hp & Hms).
    rewrite Ep; cbn [andThen]; rewrite E; cbn [andThen].
    exists (p' :: rest'); split; [reflexivity |].
    constructor; [| exact H].
    split; [exact Hp | split; [exact Hms |]].
    apply registered_zero_rotation_keeps_spin, Hp.
Qed.

Lemma registration_checks_no_period_witness :
  exists ps : list PlanetData,
    registerBodies [Examples.stalled; Examples.backward] = Fulfilled ps /\
    Forall2 (fun p p' =>
               registeredAs p p' /\ moonsRegisteredAs p p' /\
               (rotationPeriod p = 0 ->
                forall (t : R) (cam : Camera),
                  spin (updatePlanet t cam p') = Some (JS.Fin 0)))
            [Examples.stalled; Examples.backward] ps.
Proof.
  exact (registration_checks_no_period
           [Examples.stalled; Examples.backward]).
Defined.

(** The table shipped with the program has positive orbit periods
    and non-zero rotation periods throughout, planets and moons. *)
Lemma planetsData_periods :
  Forall (fun p => validPeriods p /\
                   match moons p with
                   | Some ms => Forall validPeriods ms
                   | None => True
                   end)
         planetsData.
Proof.
  unfold planetsData, validPeriods, body.
  repeat constructor; cbn; lra.
Qed.

(** ** Positions *)

Lemma orbitPoint_offset (p : PlanetData) (a : R) :
  orbitPoint (orbitRadius p) a = addVectors zero3 (orbitOffset p a).
Proof.
  unfold orbitPoint, orbitOffset, addVectors, zero3; cbn [vx vy vz].
  f_equal; ring.
Qed.

Lemma updateMoon_position (t : R) (pp : Vector3) (moon : PlanetData) :
  position (updateMoon t pp moon)
  = match mesh moon with
    | None => position moon
    | Some _ =>
        Some (addVectors pp (orbitPoint (orbitRadius moon)
                                        (orbitAngleAt t moon)))
    end.
Proof.
  destruct moon as [n r oR oP rP tl me po ms ol lb]; unfold updateMoon.
  destruct me, ol; reflexivity.
Qed.

(** The positions after one update step are [positionsAt]. *)
Lemma updatePlanet_positions (t : R) (cam : Camera) (p : PlanetData) :
  (position (updatePlanet t cam p),
   option_map (map position) (moons (updatePlanet t cam p)))
  = positionsAt t p.
Proof.
  unfold positionsAt.
  destruct (mesh p) as [m |] eqn:Em.
  - destruct (updatePlanet_fields t cam p m Em)
      as (_ & _ & _ & _ & Hpos & _ & Hms).
    rewrite Hpos, Hms; unfold orbitAngleAt, angularScale; f_equal.
    destruct (moons p) as [ms |]; cbn [option_map]; [| reflexivity].
    f_equal; rewrite map_map; apply map_ext; intros moon.
    apply updateMoon_position.
  - rewrite (updatePlanet_no_mesh t cam p Em); reflexivity.
Qed.

(** [positionsAt] does not see an earlier update step. *)
Lemma positionsAt_updatePlanet (t t1 : R) (cam : Camera) (p : PlanetData) :
  positionsAt t (updatePlanet t1 cam p) = positionsAt t p.
Proof.
  destruct (mesh p) as [m |] eqn:Em.
  - destruct (updatePlanet_fields t1 cam p m Em)
      as (HoR & HoP & _ & _ & _ & Hm & Hms).
    unfold positionsAt, orbitAngleAt; rewrite Hm, Hms, HoR, HoP, Em.
    cbv zeta; f_equal.
    destruct (moons p) as [ms |]; cbn [option_map]; [| reflexivity].
    f_equal; rewrite map_map; apply map_ext; intros moon.
    destruct (updateMoon_params t1
                (orbitPoint (orbitRadius p) (t1 / orbitPeriod p * 0.1)) moon)
      as (HmR & HmP & _ & Hiff).
    rewrite HmR, HmP.
    destruct (mesh moon) as [mm |] eqn:Emm.
    + destruct (mesh (updateMoon t1 _ moon)); [reflexivity |].
      discriminate (proj1 Hiff eq_refl).
    + rewrite (proj2 Hiff eq_refl).
      unfold updateMoon; rewrite Emm; reflexivity.
  - rewrite (updatePlanet_no_mesh t1 cam p Em); reflexivity.
Qed.

Lemma bodyPositions_update (t : R) (cam : Camera) (ps : list PlanetData) :
  bodyPositions (map (updatePlanet t cam) ps) = map (positionsAt t) ps.
Proof.
  unfold bodyPositions; rewrite map_map; apply map_ext; intros p.
  apply updatePlanet_positions.
Qed.

Lemma positionsAt_update (t t1 : R) (cam : Camera) (ps : list PlanetData) :
  map (positionsAt t) (map (updatePlanet t1 cam) ps) = map (positionsAt t) ps.
Proof.
  rewrite map_map; apply map_ext; intros p; apply positionsAt_updatePlanet.
Qed.

Lemma planet_position_at (sys : SolarSystemObjects) (t : R) (cam : Camera)
      (i : nat) (p : PlanetData) (m : Mesh) :
  lookup (planets sys) (PlanetRef i) = Some p ->
  mesh p = Some m ->
  option_map position
    (lookup (planets (updateSolarSystem sys t cam)) (PlanetRef i))
  = Some (Some (addVectors zero3 (orbitOffset p (orbitAngleAt t p)))).
Proof.
  intros Hp Hm; rewrite lookup_planet_update, Hp; cbn [option_map].
  destruct (updatePlanet_fields t cam p m Hm) as (_ & _ & _ & _ & Hpos & _).
  rewrite Hpos, orbitPoint_offset; reflexivity.
Qed.

Lemma moon_position_at (sys : SolarSystemObjects) (t : R) (cam : Camera)
      (i j : nat) (p moon : PlanetData) (m mm : Mesh) :
  lookup (planets sys) (PlanetRef i) = Some p ->
  mesh p = Some m ->
  lookup (planets sys) (MoonRef i j) = Some moon ->
  mesh moon = Some mm ->
  option_map position
    (lookup (planets (updateSolarSystem sys t cam)) (MoonRef i j))
  = Some (Some (addVectors
                  (addVectors zero3 (orbitOffset p (orbitAngleAt t p)))
                  (orbitOffset moon (orbitAngleAt t moon)))).
Proof.
  intros Hp Hm Hmoon Hmm.
  rewrite (lookup_moon_update sys t cam i j p m Hp Hm), Hmoon.
  cbn [option_map]; rewrite updateMoon_position, Hmm.
  rewrite !orbitPoint_offset; unfold orbitAngleAt, angularScale.
  do 2 f_equal.
  unfold addVectors, zero3, orbitOffset; cbn [vx vy vz]; f_equal; ring.
Qed.

Lemma orbitOffset_at_zero (p : PlanetData) :
  orbitPeriod p <> 0 ->
  orbitOffset p (orbitAngleAt 0 p) = vec3 (orbitRadius p) 0 0.
Proof.
  intros Hp; unfold orbitOffset, orbitAngleAt.
  replace (0 / orbitPeriod p * angularScale) with 0 by (field; exact Hp).
  rewrite cos_0, sin_0; f_equal; ring.
Qed.

Lemma moon_zero_rotationPeriod_spin_witness :
  spin (updateMoon 0.016 (vec3 50 0 0) Examples.stillMoon)
  = Some JS.NonFinite.
Proof.
  exact (moon_zero_rotationPeriod_spin
           0.016 (vec3 50 0 0) Examples.stillMoon
           (mkMesh (vec3 3 0 0) (JS.Fin 0) 0) eq_refl eq_refl).
Defined.

End SolarFacts.

(* ------------------------------------------------------------------ *)
(** * Facts about the focus controller *)

Module FocusFacts.

Import Three.
Import SolarSystem.
Import Focus.
Import Spec.
Import MathFacts.

(** ** Focusing on a body that is not placed *)

(** C10.  [focusOnPlanet] called with a body whose mesh or position is
    unset changes nothing: every field of the focus state and the camera
    pose are as before. *)
Theorem focusOnPlanet_unset_is_noop :
  forall (fc : FocusControls) (cam : Camera) (r : BodyRef)
         (planet : PlanetData),
    mesh planet = None \/ SolarSystem.position planet = None ->
    focusOnPlanet fc cam r planet = (fc, cam).
Proof.
  intros fc cam r planet [H | H]; unfold focusOnPlanet; rewrite H.
  - reflexivity.
  - destruct (mesh planet); reflexivity.
Qed.

Lemma focusOnPlanet_unset_is_noop_witness :
  focusOnPlanet
    (mkFocusControls (Some (PlanetRef 0)) true 3 (vec3 0 0 3) (vec3 0 0 3)
                     0.5 1 3 (vec3 9 9 9) (quat 0 0 0 1))
    Examples.camera0 (PlanetRef 7) Examples.stalled
  = (mkFocusControls (Some (PlanetRef 0)) true 3 (vec3 0 0 3) (vec3 0 0 3)
                     0.5 1 3 (vec3 9 9 9) (quat 0 0 0 1),
     Examples.camera0).
Proof.
  apply focusOnPlanet_unset_is_noop; left; reflexivity.
Defined.

(** ** The nearest body *)

Lemma scanMoons_fold (c : Vector3) (i : nat) (ms : list PlanetData) :
  forall (j : nat) (sc : Scan),
    scanMoons c i j ms sc = fold_left (considerEntry c) (moonEntries i j ms) sc.
Proof.
  induction ms as [| moon rest IH]; intros j sc; cbn; [reflexivity |].
  rewrite IH; reflexivity.
Qed.

Lemma scanPlanets_fold (c : Vector3) (ps : list PlanetData) :
  forall (i : nat) (sc : Scan),
    Forall (fun p => SolarSystem.position p <> None) ps ->
    scanPlanets c i ps sc
    = fold_left (considerEntry c) (allBodiesFrom i ps) sc.
Proof.
  induction ps as [| p rest IH]; intros i sc H;
    cbn [scanPlanets allBodiesFrom fold_left]; [reflexivity |].
  inversion H as [| ? ? Hp Hrest]; subst.
  rewrite (IH _ _ Hrest), fold_left_app; f_equal.
  destruct (SolarSystem.position p) as [pos |] eqn:Epos; [| contradiction].
  replace (considerEntry c sc (PlanetRef i, p))
    with (consider c sc (PlanetRef i) p pos)
    by (unfold considerEntry; cbn [fst snd]; rewrite Epos; reflexivity).
  cbv zeta.
  destruct (moons p) as [ms |]; [rewrite scanMoons_fold |]; reflexivity.
Qed.

(** *** The iteration reaches exactly the bodies of the planet list *)

Lemma moonEntries_In (i : nat) (ms : list PlanetData) :
  forall (j n : nat) (b : PlanetData),
    nth_error ms n = Some b ->
    In (MoonRef i (j + n), b) (moonEntries i j ms).
Proof.
  induction ms as [| moon rest IH]; intros j n b H.
  - destruct n; discriminate H.
  - destruct n as [| n]; cbn in H |- *.
    + injection H as <-; left; rewrite Nat.add_0_r; reflexivity.
    + right; rewrite <- Nat.add_succ_comm; apply IH, H.
Qed.

Lemma moonEntries_inv (i : nat) (ms : list PlanetData) :
  forall (j : nat) (r : BodyRef) (b : PlanetData),
    In (r, b) (moonEntries i j ms) ->
    exists n, r = MoonRef i (j + n) /\ nth_error ms n = Some b.
Proof.
  induction ms as [| moon rest IH]; intros j r b H; cbn in H; [easy |].
  destruct H as [H | H].
  - injection H as <- <-; exists 0%nat; rewrite Nat.add_0_r; split; reflexivity.
  - destruct (IH _ _ _ H) as (n & -> & Hn).
    exists (S n); rewrite <- Nat.add_succ_comm; split; [reflexivity | exact Hn].
Qed.

Lemma allBodiesFrom_In (ps : list PlanetData) :
  forall (i : nat) (r : BodyRef) (b : PlanetData),
    match r with
    | PlanetRef a => exists n, a = (i + n)%nat /\ nth_error ps n = Some b
    | MoonRef a j =>
        exists n p ms, a = (i + n)%nat /\ nth_error ps n = Some p /\
                       moons p = Some ms /\ nth_error ms j = Some b
    end <->
    In (r, b) (allBodiesFrom i ps).
Proof.
  induction ps as [| p rest IH]; intros i r b.
  - split.
    + destruct r; [intros (n & _ & H) | intros (n & p & ms & _ & H & _)];
        destruct n; discriminate H.
    + intros [].
  - cbn [allBodiesFrom In]; rewrite in_app_iff, <- IH; split.
    + destruct r as [a | a j].
      * intros ([| n] & -> & H); cbn in H.
        -- injection H as <-; left; rewrite Nat.add_0_r; reflexivity.
        -- right; right; exists n; split; [lia | exact H].
      * intros ([| n] & q & ms & -> & Hq & Hms & Hb); cbn in Hq.
        -- injection Hq as <-; right; left; rewrite Hms, Nat.add_0_r.
           apply (moonEntries_In i ms 0 j b Hb).
        -- right; right; exists n, q, ms; repeat split; try assumption; lia.
    + intros [H | [H | H]].
      * injection H as <- <-; exists 0%nat; split; [lia | reflexivity].
      * destruct (moons p) as [ms |] eqn:Ems; [| destruct H].
        destruct (moonEntries_inv _ _ _ _ _ H) as (n & -> & Hn).
        exists 0%nat, p, ms; repeat split; try assumption; lia.
      * destruct r as [a | a j].
        -- destruct H as (n & -> & Hn); exists (S n); split; [lia | exact Hn].
        -- destruct H as (n & q & ms & -> & Hq & Hms & Hb).
           exists (S n), q, ms; repeat split; try assumption; lia.
Qed.

(** The iteration holds the body [b] under the reference [r] exactly
    when [r] names [b] in the planet list. *)
Lemma allBodies_lookup (ps : list PlanetData) (r : BodyRef) (b : PlanetData) :
  lookup ps r = Some b <-> In (r, b) (allBodies ps).
Proof.
  unfold allBodies; rewrite <- allBodiesFrom_In; destruct r as [a | a j]; cbn.
  - split; [intros H; exists a; split; [reflexivity | exact H] |].
    intros (n & -> & H); exact H.
  - split.
    + destruct (nth_error ps a) as [p |] eqn:Ep; [| discriminate].
      destruct (moons p) as [ms |] eqn:Ems; [| discriminate].
      intros H; exists a, p, ms; repeat split; assumption.
    + intros (n & p & ms & -> & Hp & Hms & Hb); cbn.
      rewrite Hp, Hms; exact Hb.
Qed.

Lemma allPositioned_planets (ps : list PlanetData) :
  allPositioned ps -> Forall (fun p => SolarSystem.position p <> None) ps.
Proof.
  unfold allPositioned; rewrite !Forall_forall; intros H p Hp.
  destruct (In_nth_error _ _ Hp) as [n Hn].
  apply (H (PlanetRef n, p)), allBodies_lookup; exact Hn.
Qed.

(** *** The scan keeps the first nearest entry *)

Lemma nth_error_snoc {A : Type} (l : list A) (x e : A) (k : nat) :
  nth_error (l ++ [x]) k = Some e ->
  ((k < List.length l)%nat /\ nth_error l k = Some e) \/
  (k = List.length l /\ e = x).
Proof.
  intros H; destruct (Nat.lt_ge_cases k (List.length l)) as [Hlt | Hge].
  - left; split; [exact Hlt |]; rewrite nth_error_app1 in H; assumption.
  - right; rewrite nth_error_app2 in H by exact Hge.
    destruct (k - List.length l)%nat as [| d] eqn:Ed; cbn in H.
    + injection H as <-; split; [lia | reflexivity].
    + destruct d; discriminate H.
Qed.

Lemma scan_keeps_first_nearest (c : Vector3) (l : list (BodyRef * PlanetData)) :
  Forall (fun e => SolarSystem.position (snd e) <> None) l ->
  (l = [] /\ fold_left (considerEntry c) l (mkScan None None)
             = mkScan None None) \/
  (exists k e pos,
      nearest (fold_left (considerEntry c) l (mkScan None None)) = Some e /\
      nearestDistance (fold_left (considerEntry c) l (mkScan None None))
      = Some (distanceTo c pos) /\
      firstNearest c l k e pos).
Proof.
  induction l as [| x l IH] using rev_ind; intros Hall.
  - left; split; reflexivity.
  - right; apply Forall_app in Hall; destruct Hall as [Hl Hx].
    inversion Hx as [| ? ? Hpx _]; subst; clear Hx.
    rewrite fold_left_app; cbn [fold_left].
    destruct x as [r b]; cbn [snd] in Hpx.
    destruct (SolarSystem.position b) as [px |] eqn:Epx; [| contradiction].
    unfold considerEntry at 1 3; cbn [fst snd]; rewrite Epx.
    unfold consider.
    destruct (IH Hl) as [[-> Hinit] | (k & e & pos & Hn & Hd & Hk & Hp & Hmin)].
    + cbn [fold_left nearestDistance closer nearest].
      exists 0%nat, (r, b), px; repeat split; try assumption.
      * destruct k' as [| k']; cbn in H; [| destruct k'; discriminate H].
        injection H as <-; cbn [snd] in H0; rewrite Epx in H0.
        injection H0 as <-; apply Rle_refl.
      * intros Hlt; inversion Hlt.
    + rewrite Hd; cbn [closer].
      destruct (JS.ltb (distanceTo c px) (distanceTo c pos)) eqn:Elt.
      * apply ltb_true in Elt; cbn [nearest nearestDistance].
        exists (List.length l), (r, b), px.
        split; [reflexivity | split; [reflexivity |]].
        split; [rewrite nth_error_app2, Nat.sub_diag by apply le_n;
                reflexivity |].
        split; [exact Epx |].
        intros k' e' pos' He' Hp'.
        destruct (nth_error_snoc _ _ _ _ He') as [[Hlt He''] | [-> ->]].
        -- destruct (Hmin _ _ _ He'' Hp') as [Hle _]; split; intros; lra.
        -- cbn [snd] in Hp'; rewrite Epx in Hp'; injection Hp' as <-.
           split; [apply Rle_refl | intros Hlt; lia].
      * apply ltb_false in Elt.
        exists k, e, pos.
        split; [exact Hn | split; [exact Hd |]].
        assert (Hklt : (k < List.length l)%nat)
          by (apply nth_error_Some; rewrite Hk; discriminate).
        split; [rewrite nth_error_app1 by exact Hklt; exact Hk |].
        split; [exact Hp |].
        intros k' e' pos' He' Hp'.
        destruct (nth_error_snoc _ _ _ _ He') as [[Hlt He''] | [-> ->]].
        -- apply (Hmin _ _ _ He'' Hp').
        -- cbn [snd] in Hp'; rewrite Epx in Hp'; injection Hp' as <-.
           split; [exact Elt | intros Hlt; lia].
Qed.

(** C6.  When every planet and every moon has a position,
    [focusOnNearest] on an empty planet list returns "no target" and
    leaves the focus state and the camera as they were; on a non-empty
    list the body it returns is one of the planet list, no planet and no
    moon is nearer to the camera (Euclidean distance to the current
    positions), every body met earlier in the iteration -- each planet
    followed by its moons -- is strictly farther, and the state after the
    call is that of [focusOnPlanet] applied to the returned body. *)
Theorem focusOnNearest_first_nearest :
  forall (fc : FocusControls) (cam : Camera) (planets : list PlanetData),
    allPositioned planets ->
    (planets = [] -> focusOnNearest fc cam planets = (None, (fc, cam))) /\
    (planets <> [] ->
     exists (k : nat) (r : BodyRef) (b : PlanetData) (pos : Vector3),
       firstNearest (Three.position cam) (allBodies planets) k (r, b) pos /\
       lookup planets r = Some b /\
       (forall r' b' pos',
           lookup planets r' = Some b' ->
           SolarSystem.position b' = Some pos' ->
           distanceTo (Three.position cam) pos
           <= distanceTo (Three.position cam) pos') /\
       focusOnNearest fc cam planets = (Some r, focusOnPlanet fc cam r b)).
Proof.
  intros fc cam planets Hall; split.
  - intros ->; reflexivity.
  - intros Hne; unfold focusOnNearest.
    rewrite (scanPlanets_fold _ _ 0 _ (allPositioned_planets _ Hall)).
    fold (allBodies planets).
    destruct (scan_keeps_first_nearest (Three.position cam)
                                       (allBodies planets) Hall)
      as [[Hnil _] | (k & [r b] & pos & Hn & _ & Hfirst)].
    + destruct planets; [contradiction | discriminate Hnil].
    + exists k, r, b, pos; rewrite Hn.
      split; [exact Hfirst |].
      destruct Hfirst as (Hk & _ & Hmin).
      split; [apply allBodies_lookup, (nth_error_In _ _ Hk) |].
      split; [| reflexivity].
      intros r' b' pos' Hl Hp.
      apply allBodies_lookup, In_nth_error in Hl; destruct Hl as [k' Hk'].
      apply (Hmin k' (r', b') pos' Hk' Hp).
Qed.

Lemma focusOnNearest_first_nearest_witness :
  exists (k : nat) (r : BodyRef) (b : PlanetData) (pos : Vector3),
    firstNearest (Three.position Examples.camera0)
                 (allBodies (planets Examples.system0)) k (r, b) pos /\
    lookup (planets Examples.system0) r = Some b /\
    (forall r' b' pos',
        lookup (planets Examples.system0) r' = Some b' ->
        SolarSystem.position b' = Some pos' ->
        distanceTo (Three.position Examples.camera0) pos
        <= distanceTo (Three.position Examples.camera0) pos') /\
    focusOnNearest
      (mkFocusControls None false 0 zero3 zero3 0 0 0 zero3 (quat 0 0 0 1))
      Examples.camera0 (planets Examples.system0)
    = (Some r,
       focusOnPlanet
         (mkFocusControls None false 0 zero3 zero3 0 0 0 zero3 (quat 0 0 0 1))
         Examples.camera0 r b).
Proof.
  refine (proj2 (focusOnNearest_first_nearest _ _ _ _) _).
  - repeat constructor; discriminate.
  - discriminate.
Defined.

(** A planet without a position is passed over by the scan of
    [focusOnNearest] together with its moons, even a moon that has a
    position. *)
Lemma scanPlanets_skips_unplaced (c : Vector3) (i : nat) (p : PlanetData)
      (rest : list PlanetData) (sc : Scan) :
  SolarSystem.position p = None ->
  scanPlanets c i (p :: rest) sc = scanPlanets c (S i) rest sc.
Proof. intros H; cbn; rewrite H; reflexivity. Qed.

Lemma scanPlanets_skips_unplaced_witness :
  scanPlanets zero3 0 [Examples.unplaced; Examples.far] (mkScan None None)
  = scanPlanets zero3 1 [Examples.far] (mkScan None None).
Proof.
  exact (scanPlanets_skips_unplaced zero3 0 Examples.unplaced
                                    [Examples.far] (mkScan None None)
                                    eq_refl).
Defined.

(** Two bodies at the distances 20 and 10 from the camera:
    [focusOnNearest] returns the one at distance 10. *)
Example focusOnNearest_two_bodies :
  fst (focusOnNearest
         (mkFocusControls None false 0 zero3 zero3 0 0 0 zero3 (quat 0 0 0 1))
         Examples.camera0 [Examples.far; Examples.near])
  = Some (PlanetRef 1).
Proof.
  unfold focusOnNearest.
  cbn [scanPlanets Examples.far Examples.near Examples.placed
       SolarSystem.position moons Three.position Examples.camera0].
  unfold consider at 2; cbn [closer nearestDistance].
  unfold consider; cbn [closer nearestDistance].
  fold zero3; rewrite !distanceTo_along_x by lra.
  unfold JS.ltb; destruct (Rlt_dec 10 20) as [_ | H]; [| lra].
  reflexivity.
Qed.

(** ** Entering and leaving focus *)

(** [focusOnNearest] either leaves the controller focused or leaves the
    focus state and the camera untouched; it never moves the camera. *)
Lemma focusOnNearest_focused_or_unchanged (fc : FocusControls) (cam : Camera)
      (planets : list PlanetData) :
  snd (snd (focusOnNearest fc cam planets)) = cam /\
  (isFocused (fst (snd (focusOnNearest fc cam planets))) = true \/
   fst (snd (focusOnNearest fc cam planets)) = fc).
Proof.
  unfold focusOnNearest.
  destruct (nearest _) as [[r b] |]; cbn [fst snd]; [| split; auto].
  unfold focusOnPlanet.
  destruct (mesh b), (SolarSystem.position b); cbn; split; auto.
Qed.

(** A focus request on a placed body overwrites the whole focus state:
    what it leaves does not depend on the state before, the transition
    starts at progress 0 from the camera's present pose, and the orbit
    radius is three times the radius of the body. *)
Lemma focusOnPlanet_fresh (fc1 fc2 : FocusControls) (cam : Camera)
      (r : BodyRef) (planet : PlanetData) (m : Mesh) (pos : Vector3) :
  mesh planet = Some m ->
  SolarSystem.position planet = Some pos ->
  focusOnPlanet fc1 cam r planet = focusOnPlanet fc2 cam r planet /\
  targetPlanet (fst (focusOnPlanet fc1 cam r planet)) = Some r /\
  isFocused (fst (focusOnPlanet fc1 cam r planet)) = true /\
  transitionProgress (fst (focusOnPlanet fc1 cam r planet)) = 0 /\
  Focus.orbitRadius (fst (focusOnPlanet fc1 cam r planet)) = radius planet * 3 /\
  originalPosition (fst (focusOnPlanet fc1 cam r planet))
  = Three.position cam /\
  originalQuaternion (fst (focusOnPlanet fc1 cam r planet)) = quaternion cam.
Proof.
  intros Hm Hp; unfold focusOnPlanet; rewrite Hm, Hp; cbn.
  repeat split.
Qed.

Lemma focusOnPlanet_fresh_witness :
  focusOnPlanet
    (returnToFreeFlight Examples.focus0) Examples.camera0 (PlanetRef 1)
    Examples.earth
  = focusOnPlanet
      (mkFocusControls None false 0 zero3 zero3 0 0 0 zero3 (quat 0 0 0 1))
      Examples.camera0 (PlanetRef 1) Examples.earth.
Proof.
  exact (proj1 (focusOnPlanet_fresh
                  (returnToFreeFlight Examples.focus0)
                  (mkFocusControls None false 0 zero3 zero3 0 0 0 zero3
                                   (quat 0 0 0 1))
                  Examples.camera0 (PlanetRef 1) Examples.earth
                  (mkMesh (vec3 50 0 0) (JS.Fin 0) 0) (vec3 50 0 0)
                  eq_refl eq_refl)).
Defined.

(** [returnToFreeFlight] clears the focused flag and, when the
    controller was focused, the target; with no target
    [getDistanceToTarget] is 0. *)
Lemma returnToFreeFlight_idle (fc : FocusControls) (cam : Camera)
      (planets : list PlanetData) :
  isFocused (returnToFreeFlight fc) = false /\
  (isFocused fc = true -> targetPlanet (returnToFreeFlight fc) = None) /\
  (targetPlanet fc = None -> getDistanceToTarget fc cam planets = 0).
Proof.
  unfold returnToFreeFlight, getDistanceToTarget, targetPosition.
  destruct (isFocused fc) eqn:E; cbn [negb].
  - split; [reflexivity | split; [reflexivity | intros ->; reflexivity]].
  - split; [exact E | split; [discriminate | intros ->; reflexivity]].
Qed.

End FocusFacts.

(* ------------------------------------------------------------------ *)
(** * Facts about the frame loop *)

Module AppFacts.

Import Three.
Import SolarSystem.
Import App.
Import Spec.
Import MathFacts.
Import SolarFacts.

(** What one frame of a running application computes, step by step. *)
Lemma animate_fields (app : CosmosApp) (dt : R) :
  isRunning app = true ->
  time (fst (animate app dt)) = time app + dt /\
  isRunning (fst (animate app dt)) = true /\
  (flightControls (fst (animate app dt)),
   focusControls (fst (animate app dt)),
   camera (fst (animate app dt))) = updateControls app dt /\
  solarSystem (fst (animate app dt))
  = updateSolarSystem (solarSystem app) (time app + dt)
                      (camera (fst (animate app dt))) /\
  snd (animate app dt)
  = Some (hudData (flightControls (fst (animate app dt)))
                  (focusControls (fst (animate app dt)))
                  (camera (fst (animate app dt)))
                  (planets (solarSystem (fst (animate app dt))))).
Proof.
  intros H; unfold animate; rewrite H; cbn [negb].
  destruct (updateControls app dt) as [[fl fo] cam]; cbn.
  repeat split; exact H.
Qed.

(** ** Positions over several frames *)

Lemma frames_positions (deltas : list R) :
  forall app : CosmosApp,
    isRunning app = true ->
    deltas <> [] ->
    bodyPositions (planets (solarSystem (frames app deltas)))
    = map (positionsAt (time app + total deltas))
          (planets (solarSystem app)).
Proof.
  induction deltas as [| d rest IH]; intros app Hrun Hne; [contradiction |].
  destruct (animate_fields app d Hrun) as (Ht & Hr & _ & Hs & _).
  unfold frames; cbn [fold_left]; fold (frames (fst (animate app d)) rest).
  destruct rest as [| d' rest'].
  - cbn [frames fold_left total fold_right].
    rewrite Hs; cbn [planets updateSolarSystem].
    rewrite bodyPositions_update; f_equal; f_equal; ring.
  - rewrite (IH _ Hr) by discriminate.
    rewrite Ht, Hs; cbn [planets updateSolarSystem].
    rewrite positionsAt_update; f_equal; f_equal.
    cbn [total fold_right]; ring.
Qed.

(** C5.  After an update step at the simulation time [t], a planet with
    a mesh is at the origin plus
    [(orbitRadius cos a, 0, orbitRadius sin a)], where
    [a = (t / orbitPeriod) * angularScale]; a moon with a mesh is at the
    position just computed for its planet plus the same expression in
    its own parameters.  Hence at [t = 0] a body is at
    [(orbitRadius, 0, 0)] from the centre of its orbit; the positions after
    an update step do not depend on the steps taken before it; and the
    positions held after any non-empty sequence of frames are those held
    after one frame whose delta is the sum of theirs. *)
Theorem body_position_from_time :
  forall (sys : SolarSystemObjects) (t : R) (cam : Camera) (i j : nat)
         (p : PlanetData) (m : Mesh),
    lookup (planets sys) (PlanetRef i) = Some p ->
    mesh p = Some m ->
    orbitPeriod p <> 0 ->
    option_map SolarSystem.position
      (lookup (planets (updateSolarSystem sys t cam)) (PlanetRef i))
    = Some (Some (addVectors zero3 (orbitOffset p (orbitAngleAt t p)))) /\
    option_map SolarSystem.position
      (lookup (planets (updateSolarSystem sys 0 cam)) (PlanetRef i))
    = Some (Some (vec3 (orbitRadius p) 0 0)) /\
    (forall (moon : PlanetData) (mm : Mesh),
        lookup (planets sys) (MoonRef i j) = Some moon ->
        mesh moon = Some mm ->
        orbitPeriod moon <> 0 ->
        option_map SolarSystem.position
          (lookup (planets (updateSolarSystem sys t cam)) (MoonRef i j))
        = Some (Some (addVectors
                        (addVectors zero3 (orbitOffset p (orbitAngleAt t p)))
                        (orbitOffset moon (orbitAngleAt t moon)))) /\
        option_map SolarSystem.position
          (lookup (planets (updateSolarSystem sys 0 cam)) (MoonRef i j))
        = Some (Some (addVectors (vec3 (orbitRadius p) 0 0)
                                 (vec3 (orbitRadius moon) 0 0)))) /\
    (forall (t1 : R) (cam1 : Camera),
        bodyPositions
          (planets (updateSolarSystem (updateSolarSystem sys t1 cam1) t cam))
        = bodyPositions (planets (updateSolarSystem sys t cam))) /\
    (forall (app : CosmosApp) (deltas : list R),
        isRunning app = true ->
        deltas <> [] ->
        bodyPositions (planets (solarSystem (frames app deltas)))
        = bodyPositions
            (planets (solarSystem (fst (animate app (total deltas)))))).
Proof.
  intros sys t cam i j p m Hp Hm Hper.
  assert (H0 : addVectors zero3 (orbitOffset p (orbitAngleAt 0 p))
               = vec3 (orbitRadius p) 0 0).
  { rewrite (orbitOffset_at_zero p Hper).
    unfold addVectors, zero3; cbn [vx vy vz]; f_equal; ring. }
  split; [apply (planet_position_at sys t cam i p m Hp Hm) |].
  split; [rewrite (planet_position_at sys 0 cam i p m Hp Hm), H0;
          reflexivity |].
  split.
  - intros moon mm Hmoon Hmm Hmper; split.
    + apply (moon_position_at sys t cam i j p moon m mm Hp Hm Hmoon Hmm).
    + rewrite (moon_position_at sys 0 cam i j p moon m mm Hp Hm Hmoon Hmm).
      rewrite H0, (orbitOffset_at_zero moon Hmper); reflexivity.
  - split.
    { intros t1 cam1; cbn [planets updateSolarSystem].
      rewrite !bodyPositions_update; apply positionsAt_update. }
    intros app deltas Hrun Hne.
    rewrite (frames_positions deltas app Hrun Hne).
    destruct (animate_fields app (total deltas) Hrun) as (_ & _ & _ & Hs & _).
    rewrite Hs; cbn [planets updateSolarSystem].
    symmetry; apply bodyPositions_update.
Qed.

Lemma body_position_from_time_witness :
  option_map SolarSystem.position
    (lookup (planets (updateSolarSystem Examples.system0 5 Examples.camera0))
            (MoonRef 1 0))
  = Some (Some (addVectors
                  (addVectors zero3
                     (orbitOffset Examples.earth
                                  (orbitAngleAt 5 Examples.earth)))
                  (orbitOffset Examples.moon
                               (orbitAngleAt 5 Examples.moon)))).
Proof.
  assert (He : orbitPeriod Examples.earth <> 0) by (cbn; lra).
  assert (Hm : orbitPeriod Examples.moon <> 0) by (cbn; lra).
  destruct (body_position_from_time
              Examples.system0 5 Examples.camera0 1 0 Examples.earth
              (mkMesh (vec3 50 0 0) (JS.Fin 0) 0) eq_refl eq_refl He)
    as (_ & _ & Hmoon & _ & _).
  exact (proj1 (Hmoon Examples.moon (mkMesh (vec3 3 0 0) (JS.Fin 0) 0)
                      eq_refl eq_refl Hm)).
Defined.

(** ** The order of the steps of a frame *)

Lemma focused_camera_position (app : CosmosApp) (dt : R) (target : Vector3) :
  Focus.isFocused (focusControls app) = true ->
  Focus.targetPosition (focusControls app) (planets (solarSystem app))
  = Some target ->
  Three.position (snd (updateControls app dt))
  = Focus.nextCameraPosition (focusControls app) (camera app) target dt.
Proof.
  intros Hf Ht; unfold updateControls, Focus.getIsFocused; rewrite Hf.
  unfold Focus.update; rewrite Hf, Ht; reflexivity.
Qed.

Lemma nextCameraPosition_orbiting (fc : Focus.FocusControls) (cam : Camera)
      (target : Vector3) (dt : R) :
  1 <= Focus.transitionProgress fc ->
  0 <= dt ->
  Focus.nextCameraPosition fc cam target dt
  = Three.lerp (Three.position cam)
      (addVectors target
         (vec3 (sin (Focus.orbitAngle fc + Focus.orbitSpeed * dt)
                * Focus.orbitRadius fc)
               (Focus.orbitRadius fc * 0.3)
               (cos (Focus.orbitAngle fc + Focus.orbitSpeed * dt)
                * Focus.orbitRadius fc)))
      (1 - exp (- 5 * dt)).
Proof.
  intros Hp Hdt; unfold Focus.nextCameraPosition, Focus.transitionSpeed.
  rewrite Rmin_right by lra.
  destruct (Rlt_dec 1 1) as [H | _]; [lra | reflexivity].
Qed.

(** The Earth of [system0] after two update steps. *)
Lemma earth_after_two_steps (t1 t2 : R) (cam1 cam2 : Camera) :
  Focus.targetPosition Examples.focus0
    (planets (updateSolarSystem
                (updateSolarSystem Examples.system0 t1 cam1) t2 cam2))
  = Some (orbitPoint 50 (t2 / 1 * 0.1)).
Proof.
  unfold Focus.targetPosition; cbn [Focus.targetPlanet Examples.focus0].
  rewrite !lookup_planet_update.
  change (lookup (planets Examples.system0) (PlanetRef 1))
    with (Some Examples.earth).
  cbn [option_map].
  destruct (updatePlanet_fields t1 cam1 Examples.earth
              (mkMesh (vec3 50 0 0) (JS.Fin 0) 0) eq_refl)
    as (HoR & HoP & _ & _ & _ & Hm & _).
  destruct (updatePlanet_fields t2 cam2 _ _ Hm) as (_ & _ & _ & _ & Hpos & _).
  rewrite Hpos, HoR, HoP; reflexivity.
Qed.

Lemma earth_at_ten :
  Focus.targetPosition Examples.focus0 (planets Examples.system10)
  = Some (orbitPoint 50 (10 / 1 * 0.1)).
Proof.
  unfold Focus.targetPosition; cbn [Focus.targetPlanet Examples.focus0].
  unfold Examples.system10; rewrite lookup_planet_update.
  change (lookup (planets Examples.system0) (PlanetRef 1))
    with (Some Examples.earth).
  cbn [option_map].
  apply (updatePlanet_fields 10 Examples.camera0 Examples.earth
                             (mkMesh (vec3 50 0 0) (JS.Fin 0) 0) eq_refl).
Qed.

Lemma sin_grows_in_frame :
  sin (10 / 1 * 0.1) < sin ((10 + 0.016) / 1 * 0.1).
Proof.
  pose proof PI2_3_2 as Hpi.
  apply sin_increasing_1; lra.
Qed.

(** C1, as stated, fails.  Ten seconds into the run, in a frame of delta
    0.016 of an application focused on the Earth, the position the focus
    controller reads is not the one recomputed in that frame, and the
    frame leaves the camera elsewhere than the frame ordered as the claim
    says. *)
Lemma controller_reads_previous_positions_cex :
  Focus.targetPosition (focusControls Examples.app10)
                       (planets (solarSystem Examples.app10))
  <> Focus.targetPosition
       (focusControls Examples.app10)
       (planets (solarSystem (fst (animate Examples.app10 0.016)))) /\
  camera (fst (animate Examples.app10 0.016))
  <> camera (fst (animateInSpecOrder Examples.app10 0.016)).
Proof.
  pose proof sin_grows_in_frame as Hsin.
  destruct (animate_fields Examples.app10 0.016 eq_refl)
    as (_ & _ & Hc & Hs & _).
  split.
  - rewrite Hs.
    change (time Examples.app10) with 10.
    change (solarSystem Examples.app10) with Examples.system10.
    change (focusControls Examples.app10) with Examples.focus0.
    unfold Examples.system10 at 2.
    rewrite earth_after_two_steps, earth_at_ten.
    unfold orbitPoint; intros E; injection E as _ E; lra.
  - intros E; apply (f_equal (fun c => vz (Three.position c))) in E.
    revert E.
    replace (camera (fst (animate Examples.app10 0.016)))
      with (snd (updateControls Examples.app10 0.016))
      by (rewrite <- Hc; reflexivity).
    rewrite (focused_camera_position Examples.app10 0.016
               (orbitPoint 50 (10 / 1 * 0.1)) eq_refl earth_at_ten).
    unfold animateInSpecOrder.
    change (isRunning Examples.app10) with true; cbn [negb].
    set (app1 := mkCosmosApp _ _ _ _ _ _).
    replace (camera (fst (let '(flight', focus', camera') :=
                            updateControls app1 0.016 in _)))
      with (snd (updateControls app1 0.016))
      by (destruct (updateControls app1 0.016) as [[fl fo] c]; reflexivity).
    rewrite (focused_camera_position app1 0.016
               (orbitPoint 50 ((10 + 0.016) / 1 * 0.1)) eq_refl
               (earth_after_two_steps _ _ _ _)).
    change (focusControls app1) with Examples.focus0.
    change (focusControls Examples.app10) with Examples.focus0.
    change (camera app1) with Examples.camera0.
    change (camera Examples.app10) with Examples.camera0.
    assert (H1 : 1 <= Focus.transitionProgress Examples.focus0)
      by (cbn; lra).
    assert (H2 : 0 <= 0.016) by lra.
    rewrite !(nextCameraPosition_orbiting _ _ _ _ H1 H2).
    unfold Three.lerp, addVectors, orbitPoint; cbn [vx vy vz].
    assert (Hexp : exp (- 5 * 0.016) < 1).
    { rewrite <- exp_0; apply exp_increasing; lra. }
    clear - Hsin Hexp; intros E.
    set (s1 := sin (10 / 1 * 0.1)) in *.
    set (s2 := sin ((10 + 0.016) / 1 * 0.1)) in *.
    set (z := vz (Three.position Examples.camera0)) in *.
    set (o := cos _ * _) in *.
    set (e := exp _) in *.
    assert (E' : 50 * (s2 - s1) * (1 - e) = 0) by lra.
    nra.
Qed.

(** C1, amended.  A frame of the running loop (1) advances the clock by
    the frame delta, (2) updates the controller that is driving -- the
    focus controller when focused, the free-flight controller otherwise --
    on the planet list as the previous frame left it, (3) recomputes the
    bodies at the advanced clock, and (4) derives the display scalars from
    the updated controller, the updated camera and the recomputed bodies.
    In particular the target position from which the focus controller
    computes the camera position is the one stored before the bodies are
    recomputed in this frame. *)
Theorem frame_updates_controller_before_bodies :
  forall (app : CosmosApp) (dt : R),
    isRunning app = true ->
    time (fst (animate app dt)) = time app + dt /\
    (flightControls (fst (animate app dt)),
     focusControls (fst (animate app dt)),
     camera (fst (animate app dt)))
    = (if Focus.getIsFocused (focusControls app)
       then (flightControls app,
             fst (Focus.update (focusControls app) (camera app)
                               (planets (solarSystem app)) dt),
             snd (Focus.update (focusControls app) (camera app)
                               (planets (solarSystem app)) dt))
       else (fst (Flight.update (flightControls app) (camera app) dt),
             focusControls app,
             snd (Flight.update (flightControls app) (camera app) dt))) /\
    solarSystem (fst (animate app dt))
    = updateSolarSystem (solarSystem app) (time app + dt)
                        (camera (fst (animate app dt))) /\
    snd (animate app dt)
    = Some (hudData (flightControls (fst (animate app dt)))
                    (focusControls (fst (animate app dt)))
                    (camera (fst (animate app dt)))
                    (planets (solarSystem (fst (animate app dt))))) /\
    (forall target : Vector3,
        Focus.isFocused (focusControls app) = true ->
        Focus.targetPosition (focusControls app) (planets (solarSystem app))
        = Some target ->
        Three.position (camera (fst (animate app dt)))
        = Focus.nextCameraPosition (focusControls app) (camera app)
                                   target dt).
Proof.
  intros app dt Hrun.
  destruct (animate_fields app dt Hrun) as (Ht & _ & Hc & Hs & Hh).
  split; [exact Ht |].
  split.
  - rewrite Hc; unfold updateControls.
    destruct (Focus.getIsFocused (focusControls app)).
    + destruct (Focus.update _ _ _ _); reflexivity.
    + destruct (Flight.update _ _ _); reflexivity.
  - split; [exact Hs | split; [exact Hh |]].
    intros target Hf Htgt.
    rewrite <- (focused_camera_position app dt target Hf Htgt), <- Hc.
    reflexivity.
Qed.

Lemma frame_updates_controller_before_bodies_witness :
  Three.position (camera (fst (animate Examples.app10 0.016)))
  = Focus.nextCameraPosition Examples.focus0 Examples.camera0
                             (orbitPoint 50 (10 / 1 * 0.1)) 0.016.
Proof.
  destruct (frame_updates_controller_before_bodies Examples.app10 0.016
                                                   eq_refl)
    as (_ & _ & _ & _ & H).
  exact (H (orbitPoint 50 (10 / 1 * 0.1)) eq_refl earth_at_ten).
Defined.

(** ** Focus requests *)

Lemma disable_twice (s : Flight.FlightControls) :
  Flight.disable (Flight.disable s) = Flight.disable s.
Proof. reflexivity. Qed.

(** X19.  A second focus request with no release in between leaves the
    application as the first one left it. *)
Lemma onKeyF_idempotent (app : CosmosApp) :
  onKeyF (onKeyF app) = onKeyF app.
Proof.
  unfold onKeyF at 2 3; unfold Focus.getIsFocused.
  destruct (Focus.isFocused (focusControls app)) eqn:Ef; cbn [negb].
  - unfold onKeyF, Focus.getIsFocused; rewrite Ef; reflexivity.
  - pose proof (FocusFacts.focusOnNearest_focused_or_unchanged
                  (focusControls app) (camera app)
                  (planets (solarSystem app))) as [Hc Hf].
    destruct (Focus.focusOnNearest _ _ _) as [res [fc cam]] eqn:En.
    cbn [fst snd] in Hc, Hf; subst cam.
    unfold onKeyF, Focus.getIsFocused.
    cbn [focusControls camera solarSystem flightControls time isRunning].
    destruct Hf as [Hf | ->].
    + rewrite Hf; reflexivity.
    + rewrite Ef; cbn [negb]; rewrite En; reflexivity.
Qed.

End AppFacts.

(* ------------------------------------------------------------------ *)
(** * More about the utilities of [src/utils/math.ts] *)

Module UtilProps.

Import MathUtils.

Lemma damp_gap (current target smoothTime dt : R) :
  target - damp current target smoothTime dt
  = (target - current) * exp (- dt / smoothTime).
Proof. unfold damp, lerp; ring. Qed.

(** X10.  Damping toward a fixed target composes: two steps of deltas
    [dt1] and [dt2] give what one step of delta [dt1 + dt2] gives, so the
    value reached does not depend on how the time is cut into frames. *)
Theorem damp_composes :
  forall current target smoothTime dt1 dt2 : R,
    smoothTime <> 0 ->
    damp (damp current target smoothTime dt1) target smoothTime dt2
    = damp current target smoothTime (dt1 + dt2).
Proof.
  intros c t s d1 d2 Hs.
  assert (E : exp (- (d1 + d2) / s) = exp (- d1 / s) * exp (- d2 / s)).
  { rewrite <- exp_plus; f_equal; field; exact Hs. }
  unfold damp, lerp; rewrite E; ring.
Qed.

Lemma damp_composes_witness :
  damp (damp 0 30 5 0.016) 30 5 0.034 = damp 0 30 5 (0.016 + 0.034).
Proof. apply damp_composes; lra. Defined.

(** X11.  With a positive time constant and a non-negative delta, [damp]
    never overshoots and never moves away: the result lies between the
    current value and the target, the remaining gap is the old gap times
    [exp (- dt / smoothTime)], and a zero delta changes nothing. *)
Theorem damp_no_overshoot :
  forall current target smoothTime dt : R,
    0 < smoothTime ->
    0 <= dt ->
    Rmin current target <= damp current target smoothTime dt
    <= Rmax current target /\
    Rabs (target - damp current target smoothTime dt)
    = Rabs (target - current) * exp (- dt / smoothTime) /\
    Rabs (target - damp current target smoothTime dt)
    <= Rabs (target - current) /\
    damp current target smoothTime 0 = current.
Proof.
  intros c t s dt Hs Hdt.
  assert (He : 0 < exp (- dt / s) <= 1).
  { split; [apply exp_pos |].
    rewrite <- exp_0.
    destruct (Req_dec dt 0) as [-> | Hne].
    - replace (- 0 / s) with 0 by (field; lra); apply Rle_refl.
    - left; apply exp_increasing.
      apply Rmult_lt_reg_r with s; [exact Hs |].
      replace (- dt / s * s) with (- dt) by (field; lra); lra. }
  assert (Hgap := damp_gap c t s dt).
  set (d := damp c t s dt) in *; set (e := exp (- dt / s)) in *.
  split; [| split; [| split]].
  - unfold Rmin, Rmax; destruct (Rle_dec c t); split; nra.
  - rewrite Hgap, Rabs_mult, (Rabs_pos_eq e); [reflexivity | lra].
  - rewrite Hgap, Rabs_mult, (Rabs_pos_eq e) by lra.
    pose proof (Rabs_pos (t - c)); nra.
  - unfold damp, lerp.
    replace (- 0 / s) with 0 by (field; lra); rewrite exp_0; ring.
Qed.

Lemma damp_no_overshoot_witness :
  Rmin 0 30 <= damp 0 30 5 0.016 <= Rmax 0 30.
Proof.
  assert (H1 : 0 < 5) by lra.
  assert (H2 : 0 <= 0.016) by lra.
  exact (proj1 (damp_no_overshoot 0 30 5 0.016 H1 H2)).
Defined.

(** X12.  [clamp] with ordered bounds returns a value within the bounds,
    returns a value already within them unchanged, and clamping twice is
    clamping once; with the bounds in the wrong order it returns [min]
    whatever the value. *)
Theorem clamp_behaviour :
  forall value min max : R,
    (min <= max ->
     min <= clamp value min max <= max /\
     (min <= value <= max -> clamp value min max = value) /\
     clamp (clamp value min max) min max = clamp value min max) /\
    (max < min -> clamp value min max = min).
Proof.
  intros v lo hi; unfold clamp; split.
  - intros Hle; split; [| split].
    + split; [apply Rmax_l | apply Rmax_lub; [exact Hle | apply Rmin_l]].
    + intros [H1 H2]; rewrite Rmin_right, Rmax_right by lra; reflexivity.
    + unfold Rmax, Rmin.
      repeat (destruct (Rle_dec _ _)); try lra.
  - intros Hlt; unfold Rmax, Rmin.
    repeat (destruct (Rle_dec _ _)); lra.
Qed.

Lemma clamp_behaviour_witness :
  - 1 <= clamp 5 (- 1) 1 <= 1 /\ clamp 5 1 (- 1) = 1.
Proof.
  destruct (clamp_behaviour 5 (- 1) 1) as [H1 _].
  destruct (clamp_behaviour 5 1 (- 1)) as [_ H2].
  split; [apply H1; lra | apply H2; lra].
Defined.

End UtilProps.

(* ------------------------------------------------------------------ *)
(** * Facts about the geometry helpers *)

Module GeometryProps.

Import Three.
Import Geometry.
Import MathFacts.

Lemma cos_shift_nat (x : R) (k : nat) : cos (x - PI * 2 * INR k) = cos x.
Proof.
  rewrite <- (cos_period (x - PI * 2 * INR k) k); f_equal; ring.
Qed.

Lemma sin_shift_nat (x : R) (k : nat) : sin (x - PI * 2 * INR k) = sin x.
Proof.
  rewrite <- (sin_period (x - PI * 2 * INR k) k); f_equal; ring.
Qed.

Lemma trig_shift_Z (x : R) (k : Z) :
  cos (x - PI * 2 * IZR k) = cos x /\ sin (x - PI * 2 * IZR k) = sin x.
Proof.
  destruct (Z.le_gt_cases 0 k) as [Hk | Hk].
  - rewrite <- (Z2Nat.id k Hk), <- INR_IZR_INZ.
    split; [apply cos_shift_nat | apply sin_shift_nat].
  - assert (E : IZR k = - INR (Z.to_nat (- k))).
    { rewrite INR_IZR_INZ, Z2Nat.id by lia; rewrite opp_IZR; ring. }
    rewrite E.
    replace (x - PI * 2 * - INR (Z.to_nat (- k)))
      with (x + 2 * INR (Z.to_nat (- k)) * PI) by ring.
    split; [apply cos_period | apply sin_period].
Qed.

Lemma trig_turn (x : R) :
  cos (x + 2 * PI) = cos x /\ sin (x + 2 * PI) = sin x.
Proof.
  replace (x + 2 * PI) with (x + 2 * INR 1 * PI) by (cbn; ring).
  split; [apply cos_period | apply sin_period].
Qed.

Lemma length_circle_point (a r : R) :
  length (vec3 (cos a * r) 0 (sin a * r)) = Rabs r.
Proof.
  unfold length, lengthSq; cbn [vx vy vz].
  replace (cos a * r * (cos a * r) + 0 * 0 + sin a * r * (sin a * r))
    with ((Rsqr (sin a) + Rsqr (cos a)) * Rsqr r) by (unfold Rsqr; ring).
  rewrite sin2_cos2, Rmult_1_l; apply sqrt_Rsqr_abs.
Qed.

(** X8.  [getOrbitalPosition] is the point of the circle of radius
    [semiMajorAxis] in the plane [y = 0] at the angle
    [(time / period) 2 pi + offset]: reducing the angle modulo a full turn
    does not show.  The point is at the distance [|semiMajorAxis|] from
    the origin, and advancing the time by one [period] (not zero) gives
    the same point. *)
Theorem getOrbitalPosition_circle :
  forall semiMajorAxis period time offset : R,
    period <> 0 ->
    getOrbitalPosition semiMajorAxis period time offset
    = vec3 (cos ((time / period) * PI * 2 + offset) * semiMajorAxis) 0
           (sin ((time / period) * PI * 2 + offset) * semiMajorAxis) /\
    length (getOrbitalPosition semiMajorAxis period time offset)
    = Rabs semiMajorAxis /\
    getOrbitalPosition semiMajorAxis period (time + period) offset
    = getOrbitalPosition semiMajorAxis period time offset.
Proof.
  intros a p t off Hp.
  assert (E : forall t',
             getOrbitalPosition a p t' off
             = vec3 (cos ((t' / p) * PI * 2 + off) * a) 0
                    (sin ((t' / p) * PI * 2 + off) * a)).
  { intros t'; unfold getOrbitalPosition, rem.
    destruct (trig_shift_Z ((t' / p) * PI * 2 + off)
                (trunc (((t' / p) * PI * 2 + off) / (PI * 2))))
      as [Hc Hs].
    rewrite Hc, Hs; reflexivity. }
  split; [apply E |].
  split; [rewrite E; apply length_circle_point |].
  rewrite !E.
  replace ((t + p) / p * PI * 2 + off)
    with ((t / p * PI * 2 + off) + 2 * PI) by (field; exact Hp).
  destruct (trig_turn (t / p * PI * 2 + off)) as [-> ->]; reflexivity.
Qed.

Lemma getOrbitalPosition_circle_witness :
  getOrbitalPosition 50 1 (0.25 + 1) 0 = getOrbitalPosition 50 1 0.25 0.
Proof.
  assert (H : 1 <> 0) by lra.
  exact (proj2 (proj2 (getOrbitalPosition_circle 50 1 0.25 0 H))).
Defined.

Lemma fibonacci_height (samples i : nat) :
  (2 <= samples)%nat -> (i < samples)%nat ->
  - 1 <= 1 - (INR i / (INR samples - 1)) * 2 <= 1.
Proof.
  intros Hs Hi.
  assert (Hn : 1 <= INR samples - 1).
  { apply le_INR in Hs; cbn in Hs; lra. }
  assert (H0 : 0 <= INR i) by apply pos_INR.
  assert (H1 : INR i <= INR samples - 1).
  { assert (H : (i <= samples - 1)%nat) by lia.
    apply le_INR in H; rewrite minus_INR in H by lia; cbn in H; lra. }
  assert (Hq : 0 <= INR i / (INR samples - 1) <= 1).
  { split.
    - apply Rmult_le_pos; [exact H0 |].
      left; apply Rinv_0_lt_compat; lra.
    - apply Rmult_le_reg_r with (INR samples - 1); [lra |].
      replace (INR i / (INR samples - 1) * (INR samples - 1)) with (INR i)
        by (field; lra).
      lra. }
  lra.
Qed.

Lemma fibonacciPoint_on_sphere (samples : nat) (radius : R) (i : nat) :
  (2 <= samples)%nat -> (i < samples)%nat ->
  length (fibonacciPoint samples radius i) = Rabs radius.
Proof.
  intros Hs Hi; pose proof (fibonacci_height samples i Hs Hi) as Hy.
  unfold fibonacciPoint, length, lengthSq; cbv zeta; cbn [vx vy vz].
  set (y := 1 - INR i / (INR samples - 1) * 2) in *.
  set (th := phi * INR i).
  assert (Hq : 0 <= 1 - y * y) by nra.
  pose proof (sqrt_sqrt _ Hq) as Hsq.
  pose proof (sin2_cos2 th) as Htr; unfold Rsqr in Htr.
  set (s := sqrt (1 - y * y)) in *.
  replace (cos th * s * radius * (cos th * s * radius)
           + y * radius * (y * radius)
           + sin th * s * radius * (sin th * s * radius))
    with (((sin th * sin th + cos th * cos th) * (s * s) + y * y)
          * Rsqr radius) by (unfold Rsqr; ring).
  rewrite Htr, Hsq.
  replace (1 * (1 - y * y) + y * y) with 1 by ring.
  rewrite Rmult_1_l; apply sqrt_Rsqr_abs.
Qed.

(** X9.  [fibonacciSphere] returns as many points as asked for; when at
    least two are asked for, every point lies on the sphere of radius
    [|radius|] about the origin, the first is the pole [(0, radius, 0)]
    and the last the opposite pole [(0, - radius, 0)]. *)
Theorem fibonacciSphere_on_sphere :
  forall (samples : nat) (radius : R),
    List.length (fibonacciSphere samples radius) = samples /\
    ((2 <= samples)%nat ->
     Forall (fun pt => length pt = Rabs radius)
            (fibonacciSphere samples radius) /\
     nth_error (fibonacciSphere samples radius) 0 = Some (vec3 0 radius 0) /\
     nth_error (fibonacciSphere samples radius) (samples - 1)
     = Some (vec3 0 (- radius) 0)).
Proof.
  intros samples radius; unfold fibonacciSphere; split.
  - rewrite length_map; apply length_seq.
  - intros Hs; split; [| split].
    + apply Forall_forall; intros pt Hin.
      apply in_map_iff in Hin; destruct Hin as (i & <- & Hi).
      apply in_seq in Hi.
      apply fibonacciPoint_on_sphere; [exact Hs | lia].
    + rewrite nth_error_map.
      destruct samples as [| n]; [lia |]; cbn [seq nth_error option_map].
      f_equal; unfold fibonacciPoint; cbv zeta.
      change (INR 0) with 0.
      replace (1 - 0 / (INR (S n) - 1) * 2) with 1 by (unfold Rdiv; ring).
      replace (1 - 1 * 1) with 0 by ring; rewrite sqrt_0.
      f_equal; ring.
    + rewrite nth_error_map.
      assert (Hnth : nth_error (seq 0 samples) (samples - 1)
                     = Some (samples - 1)%nat).
      { rewrite nth_error_nth' with (d := 0%nat)
          by (rewrite length_seq; lia).
        rewrite seq_nth by lia; reflexivity. }
      rewrite Hnth; cbn [option_map]; f_equal.
      unfold fibonacciPoint; cbv zeta.
      assert (Hn : 1 <= INR samples - 1).
      { apply le_INR in Hs; cbn in Hs; lra. }
      rewrite minus_INR by lia; change (INR 1) with 1.
      replace (1 - (INR samples - 1) / (INR samples - 1) * 2) with (- 1)
        by (field; lra).
      replace (1 - - 1 * - 1) with 0 by ring; rewrite sqrt_0.
      f_equal; ring.
Qed.

Lemma fibonacciSphere_on_sphere_witness :
  Forall (fun pt => length pt = Rabs 10000) (fibonacciSphere 800 10000).
Proof.
  refine (proj1 (proj2 (fibonacciSphere_on_sphere 800 10000) _)).
  apply Nat.leb_le; reflexivity.
Defined.

Lemma INR_segments : INR segments = 128.
Proof. unfold segments; rewrite INR_IZR_INZ; reflexivity. Qed.

(** X7.  The orbit line built by [createOrbitLine] has 129 vertices,
    all in the plane [y = 0] at the distance [|radius|] from its centre,
    and is closed: its first and its last vertex are both
    [(radius, 0, 0)]. *)
Theorem orbitLine_closed_circle :
  forall radius : R,
    List.length (orbitLinePoints radius) = 129%nat /\
    Forall (fun pt => vy pt = 0 /\ length pt = Rabs radius)
           (orbitLinePoints radius) /\
    nth_error (orbitLinePoints radius) 0 = Some (vec3 radius 0 0) /\
    nth_error (orbitLinePoints radius) 128 = Some (vec3 radius 0 0).
Proof.
  intros radius; unfold orbitLinePoints.
  split; [rewrite length_map, length_seq; reflexivity |].
  split.
  - apply Forall_forall; intros pt Hin.
    apply in_map_iff in Hin; destruct Hin as (i & <- & _).
    unfold orbitLinePoint; cbv zeta.
    split; [reflexivity | apply length_circle_point].
  - rewrite !nth_error_map.
    change (nth_error (seq 0 (S segments)) 0) with (Some 0%nat).
    change (nth_error (seq 0 (S segments)) 128) with (Some 128%nat).
    cbn [option_map]; unfold orbitLinePoint; cbv zeta.
    fold segments; rewrite INR_segments; change (INR 0) with 0.
    replace (0 / 128 * PI * 2) with 0 by field.
    replace (128 / 128 * PI * 2) with (0 + 2 * PI) by field.
    destruct (trig_turn 0) as [-> ->]; rewrite cos_0, sin_0.
    split; f_equal; f_equal; ring.
Qed.

End GeometryProps.

(* ------------------------------------------------------------------ *)
(** * More about the solar system *)

Module SolarProps.

Import Three.
Import SolarSystem.
Import Spec.
Import Props.
Import MathFacts.
Import SolarFacts.

(** ** Bodies stay on their orbits *)

Lemma distance_from_centre (c : Vector3) (r a : R) :
  distanceTo c (addVectors c (orbitPoint r a)) = Rabs r.
Proof.
  unfold distanceTo, length, lengthSq, subVectors, addVectors, orbitPoint.
  cbn [vx vy vz].
  replace ((vx c - (vx c + cos a * r)) * (vx c - (vx c + cos a * r))
           + (vy c - (vy c + 0)) * (vy c - (vy c + 0))
           + (vz c - (vz c + sin a * r)) * (vz c - (vz c + sin a * r)))
    with ((Rsqr (sin a) + Rsqr (cos a)) * Rsqr r) by (unfold Rsqr; ring).
  rewrite sin2_cos2, Rmult_1_l; apply sqrt_Rsqr_abs.
Qed.

(** X5.  After an update step a planet that has a mesh lies in the
    plane [y = 0] at the distance [|orbitRadius|] from the origin -- on
    the circle its orbit line draws -- and a moon that has a mesh lies at
    the distance of its own [|orbitRadius|] from the position just given
    to its planet, at the same height. *)
Theorem bodies_stay_on_orbit :
  forall (sys : SolarSystemObjects) (t : R) (cam : Camera) (i j : nat)
         (p : PlanetData) (m : Mesh),
    lookup (planets sys) (PlanetRef i) = Some p ->
    mesh p = Some m ->
    orbitPeriod p <> 0 ->
    exists pos : Vector3,
      option_map position
        (lookup (planets (updateSolarSystem sys t cam)) (PlanetRef i))
      = Some (Some pos) /\
      vy pos = 0 /\
      distanceTo zero3 pos = Rabs (orbitRadius p) /\
      forall (moon : PlanetData) (mm : Mesh),
        lookup (planets sys) (MoonRef i j) = Some moon ->
        mesh moon = Some mm ->
        orbitPeriod moon <> 0 ->
        exists mpos : Vector3,
          option_map position
            (lookup (planets (updateSolarSystem sys t cam)) (MoonRef i j))
          = Some (Some mpos) /\
          vy mpos = 0 /\
          distanceTo pos mpos = Rabs (orbitRadius moon).
Proof.
  intros sys t cam i j p m Hp Hm _.
  destruct (updatePlanet_fields t cam p m Hm) as (_ & _ & _ & _ & Hpos & _).
  exists (orbitPoint (orbitRadius p) (t / orbitPeriod p * 0.1)).
  split; [rewrite lookup_planet_update, Hp; cbn [option_map];
          rewrite Hpos; reflexivity |].
  split; [reflexivity |].
  split.
  - replace (orbitPoint (orbitRadius p) (t / orbitPeriod p * 0.1))
      with (addVectors zero3
              (orbitPoint (orbitRadius p) (t / orbitPeriod p * 0.1)))
      by (unfold addVectors, orbitPoint, zero3; cbn [vx vy vz];
          f_equal; ring).
    apply distance_from_centre.
  - intros moon mm Hmoon Hmm _.
    exists (addVectors (orbitPoint (orbitRadius p) (t / orbitPeriod p * 0.1))
                       (orbitPoint (orbitRadius moon) (orbitAngleAt t moon))).
    split.
    + rewrite (lookup_moon_update sys t cam i j p m Hp Hm), Hmoon.
      cbn [option_map]; rewrite updateMoon_position, Hmm; reflexivity.
    + split; [cbn; ring | apply distance_from_centre].
Qed.

Lemma bodies_stay_on_orbit_witness :
  exists pos : Vector3,
    option_map position
      (lookup (planets (updateSolarSystem Examples.system0 5
                                          Examples.camera0))
              (PlanetRef 1))
    = Some (Some pos) /\
    vy pos = 0 /\
    distanceTo zero3 pos = Rabs (orbitRadius Examples.earth).
Proof.
  assert (He : orbitPeriod Examples.earth <> 0) by (cbn; lra).
  destruct (bodies_stay_on_orbit
              Examples.system0 5 Examples.camera0 1 0 Examples.earth
              (mkMesh (vec3 50 0 0) (JS.Fin 0) 0) eq_refl eq_refl He)
    as (pos & H1 & H2 & H3 & _).
  exists pos; repeat split; assumption.
Defined.

(** X6.  A planet that has a mesh is back at the same position after
    [20 pi orbitPeriod] of simulation time: with the angular scale 0.1
    one revolution takes [2 pi / 0.1] times the orbit period. *)
Theorem planet_revolution_time :
  forall (sys : SolarSystemObjects) (t : R) (cam cam' : Camera) (i : nat)
         (p : PlanetData) (m : Mesh),
    lookup (planets sys) (PlanetRef i) = Some p ->
    mesh p = Some m ->
    orbitPeriod p <> 0 ->
    option_map position
      (lookup (planets (updateSolarSystem sys
                          (t + 20 * PI * orbitPeriod p) cam'))
              (PlanetRef i))
    = option_map position
        (lookup (planets (updateSolarSystem sys t cam)) (PlanetRef i)).
Proof.
  intros sys t cam cam' i p m Hp Hm Hper.
  rewrite !lookup_planet_update, Hp; cbn [option_map].
  destruct (updatePlanet_fields t cam p m Hm) as (_ & _ & _ & _ & -> & _).
  destruct (updatePlanet_fields (t + 20 * PI * orbitPeriod p) cam' p m Hm)
    as (_ & _ & _ & _ & -> & _).
  do 2 f_equal; unfold orbitPoint.
  assert (Htenth : 0.1 = 1 / 10) by lra.
  replace ((t + 20 * PI * orbitPeriod p) / orbitPeriod p * 0.1)
    with (t / orbitPeriod p * 0.1 + 2 * PI)
    by (rewrite Htenth; field; exact Hper).
  destruct (GeometryProps.trig_turn (t / orbitPeriod p * 0.1)) as [-> ->].
  reflexivity.
Qed.

Lemma planet_revolution_time_witness :
  option_map position
    (lookup (planets (updateSolarSystem
                        Examples.system0
                        (3 + 20 * PI * orbitPeriod Examples.earth)
                        Examples.camera0))
            (PlanetRef 1))
  = option_map position
      (lookup (planets (updateSolarSystem Examples.system0 3
                                          Examples.camera0))
              (PlanetRef 1)).
Proof.
  assert (He : orbitPeriod Examples.earth <> 0) by (cbn; lra).
  exact (planet_revolution_time
           Examples.system0 3 Examples.camera0 Examples.camera0 1
           Examples.earth (mkMesh (vec3 50 0 0) (JS.Fin 0) 0)
           eq_refl eq_refl He).
Defined.

(** ** What an update step never touches *)

Lemma updateMoon_sameStatic (t : R) (pp : Vector3) (moon : PlanetData) :
  sameStatic moon (updateMoon t pp moon).
Proof.
  destruct moon as [n r oR oP rP tl me po ms ol lb]; unfold updateMoon.
  destruct me as [m |], ol; cbn; unfold sameStatic; cbn;
    repeat split; intros; try discriminate; reflexivity.
Qed.

Lemma updateMoons_sameStatic (t : R) (pp : Vector3) (ms : list PlanetData) :
  Forall2 sameStatic ms (map (updateMoon t pp) ms).
Proof.
  induction ms as [| moon rest IH]; cbn; constructor;
    [apply updateMoon_sameStatic | exact IH].
Qed.

Lemma sameStatic_refl (b : PlanetData) : sameStatic b b.
Proof. unfold sameStatic; repeat split; intros; assumption. Qed.

Lemma Forall2_sameStatic_refl (ms : list PlanetData) :
  Forall2 sameStatic ms ms.
Proof.
  induction ms; constructor; [apply sameStatic_refl | assumption].
Qed.

Lemma updatePlanet_sameStaticDeep (t : R) (cam : Camera) (p : PlanetData) :
  sameStaticDeep p (updatePlanet t cam p).
Proof.
  destruct (mesh p) as [m |] eqn:Em.
  - destruct (updatePlanet_fields t cam p m Em)
      as (HoR & HoP & HrP & Hr & _ & Hm & Hms).
    assert (Hn : name (updatePlanet t cam p) = name p
                 /\ tilt (updatePlanet t cam p) = tilt p).
    { destruct p as [n r oR oP rP tl me po ms ol lb]; cbn in Em; subst me.
      unfold updatePlanet; cbn; destruct lb, ms; cbn; split; reflexivity. }
    destruct Hn as [Hn Ht].
    split.
    + unfold sameStatic; rewrite Hn, Hr, HoR, HoP, HrP, Ht, Hms, Hm, Em.
      repeat split; try (intros; discriminate).
      destruct (moons p); cbn; [rewrite length_map |]; reflexivity.
    + rewrite Hms; destruct (moons p) as [ms |]; cbn [option_map];
        [apply updateMoons_sameStatic | exact I].
  - rewrite (updatePlanet_no_mesh t cam p Em); split.
    + apply sameStatic_refl.
    + destruct (moons p); [apply Forall2_sameStatic_refl | exact I].
Qed.

(** X4.  An update step changes neither the number nor the order of
    the planets, and for every planet and every moon it keeps the name,
    the radius, the orbit radius, both periods, the tilt, the number of
    moons and whether there is a mesh; a planet without a mesh is left
    exactly as it was, with its moons. *)
Theorem update_keeps_static_data :
  forall (sys : SolarSystemObjects) (t : R) (cam : Camera),
    Forall2 (fun p p' =>
               sameStaticDeep p p' /\ (mesh p = None -> p' = p))
            (planets sys) (planets (updateSolarSystem sys t cam)).
Proof.
  intros sys t cam; cbn [planets updateSolarSystem].
  induction (planets sys) as [| p rest IH]; cbn [map]; constructor.
  - split; [apply updatePlanet_sameStaticDeep |].
    apply updatePlanet_no_mesh.
  - exact IH.
Qed.

(** ** Placed bodies *)

Lemma allPlaced_lookup (ps : list PlanetData) :
  allPlaced ps <-> forall r b, lookup ps r = Some b -> wellPlaced b.
Proof.
  unfold allPlaced; rewrite Forall_forall; split.
  - intros H r b Hl; apply (H (r, b)), FocusFacts.allBodies_lookup, Hl.
  - intros H [r b] Hin; apply (H r b), FocusFacts.allBodies_lookup, Hin.
Qed.

Lemma updatePlanet_wellPlaced (t : R) (cam : Camera) (p : PlanetData) :
  wellPlaced p -> wellPlaced (updatePlanet t cam p).
Proof.
  intros (m & pos & Hm & _ & _).
  destruct (updatePlanet_fields t cam p m Hm) as (_ & _ & _ & _ & Hp & Hm' & _).
  eexists _, _; split; [exact Hm' | split; [exact Hp | reflexivity]].
Qed.

Lemma updateMoon_wellPlaced (t : R) (pp : Vector3) (moon : PlanetData) :
  wellPlaced moon -> wellPlaced (updateMoon t pp moon).
Proof.
  intros (m & pos & Hm & _ & _).
  destruct moon as [n r oR oP rP tl me po ms ol lb]; cbn in Hm; subst me.
  unfold updateMoon; cbn; destruct ol; cbn;
    eexists _, _; cbn; repeat split.
Qed.

(** Where a body of the list after an update step comes from. *)
Lemma lookup_update_origin (ps : list PlanetData) (t : R) (cam : Camera)
      (r : BodyRef) (b' : PlanetData) :
  lookup (map (updatePlanet t cam) ps) r = Some b' ->
  exists b, lookup ps r = Some b /\
            (b' = b \/ b' = updatePlanet t cam b \/
             exists pp, b' = updateMoon t pp b).
Proof.
  destruct r as [i | i j]; cbn.
  - rewrite nth_error_map.
    destruct (nth_error ps i) as [p |]; [| discriminate].
    cbn; intros H; injection H as <-; exists p; auto.
  - rewrite nth_error_map.
    destruct (nth_error ps i) as [p |]; [| discriminate].
    cbn [option_map].
    destruct (mesh p) as [m |] eqn:Em.
    + destruct (updatePlanet_fields t cam p m Em)
        as (_ & _ & _ & _ & _ & _ & ->).
      destruct (moons p) as [ms |]; cbn [option_map]; [| discriminate].
      rewrite nth_error_map.
      destruct (nth_error ms j) as [moon |]; [| discriminate].
      cbn; intros H; injection H as <-; exists moon; eauto.
    + rewrite (updatePlanet_no_mesh t cam p Em).
      intros H; exists b'; auto.
Qed.

Lemma createMoons_placed (ms : list PlanetData) :
  exists ms', createMoons ms = Fulfilled ms' /\ Forall wellPlaced ms'.
Proof.
  induction ms as [| moon rest (rest' & E & H)]; cbn.
  - exists []; split; [reflexivity | constructor].
  - rewrite E; cbn; eexists; split; [reflexivity |].
    constructor; [| exact H].
    eexists _, _; cbn; repeat split.
Qed.

Lemma registerPlanet_placed (p : PlanetData) :
  exists p', registerPlanet p = Fulfilled p' /\ wellPlaced p' /\
             label p' <> None /\ orbitLine p' <> None /\
             match moons p' with
             | Some ms' => Forall wellPlaced ms'
             | None => True
             end.
Proof.
  unfold registerPlanet; cbn.
  destruct (moons p) as [ms |] eqn:Ems.
  - destruct (createMoons_placed ms) as (ms' & E & H).
    rewrite E; cbn; eexists; split; [reflexivity |].
    split; [eexists _, _; cbn; repeat split |].
    cbn; repeat split; try discriminate; exact H.
  - eexists; split; [reflexivity |].
    split; [eexists _, _; cbn; repeat split |].
    cbn; rewrite Ems; repeat split; discriminate.
Qed.

Lemma moonEntries_Forall (P : PlanetData -> Prop) (i : nat)
      (ms : list PlanetData) :
  forall j, Forall P ms -> Forall (fun e => P (snd e)) (moonEntries i j ms).
Proof.
  induction ms as [| moon rest IH]; intros j H; cbn; [constructor |].
  inversion H; subst; constructor; [assumption | apply IH; assumption].
Qed.

Lemma registerBodies_placed (table : list PlanetData) :
  forall i, exists ps,
    registerBodies table = Fulfilled ps /\
    List.length ps = List.length table /\
    Forall (fun e => wellPlaced (snd e)) (allBodiesFrom i ps) /\
    Forall (fun p => label p <> None /\ orbitLine p <> None) ps.
Proof.
  induction table as [| p rest IH]; intros i; cbn [registerBodies].
  - exists []; repeat split; constructor.
  - destruct (registerPlanet_placed p) as (p' & Ep & Hp & Hl & Ho & Hms).
    destruct (IH (S i)) as (rest' & E & Hlen & Hall & Hlab).
    rewrite Ep; cbn [andThen]; rewrite E; cbn [andThen].
    exists (p' :: rest'); split; [reflexivity |].
    split; [cbn; f_equal; exact Hlen |].
    split; [| constructor; [split; assumption | exact Hlab]].
    cbn [allBodiesFrom]; constructor; [exact Hp |].
    apply Forall_app; split; [| exact Hall].
    destruct (moons p'); [apply moonEntries_Forall, Hms | constructor].
Qed.

(** An update step keeps every body placed. *)
Lemma updateSolarSystem_placed (sys : SolarSystemObjects) (t : R)
      (cam : Camera) :
  allPlaced (planets sys) ->
  allPlaced (planets (updateSolarSystem sys t cam)).
Proof.
  intros Hq; cbn [planets updateSolarSystem].
  apply allPlaced_lookup; intros r b' Hl.
  destruct (lookup_update_origin (planets sys) t cam r b' Hl)
    as (b & Hb & [-> | [-> | [pp ->]]]).
  - apply (proj1 (allPlaced_lookup _) Hq r b Hb).
  - apply updatePlanet_wellPlaced, (proj1 (allPlaced_lookup _) Hq r b Hb).
  - apply updateMoon_wellPlaced, (proj1 (allPlaced_lookup _) Hq r b Hb).
Qed.

Lemma updates_placed (steps : list (R * Camera)) :
  forall sys : SolarSystemObjects,
    allPlaced (planets sys) ->
    allPlaced (planets (Props.updates sys steps)).
Proof.
  induction steps as [| [t cam] rest IH]; intros sys H; [exact H |].
  apply IH, updateSolarSystem_placed, H.
Qed.

(** X3.  Every body is placed, from registration on.  Whatever the
    table, it is registered without error, planet for planet; every
    planet gets a label and an orbit line; and after registration and
    after any number of update steps -- at any times, for any camera --
    every planet and every moon has a mesh and a position, the mesh
    sitting at the position. *)
Theorem bodies_are_placed_at_every_frame :
  forall (table : list PlanetData) (sun : Mesh) (steps : list (R * Camera)),
  exists ps : list PlanetData,
    registerBodies table = Fulfilled ps /\
    List.length ps = List.length table /\
    Forall (fun p => label p <> None /\ orbitLine p <> None) ps /\
    allPlaced ps /\
    allPlaced (planets (Props.updates (mkSolarSystem sun ps) steps)).
Proof.
  intros table sun0 steps.
  destruct (registerBodies_placed table 0) as (ps & E & Hlen & Hall & Hlab).
  exists ps; repeat split; try assumption.
  apply updates_placed; exact Hall.
Qed.

Lemma system0_placed : allPlaced (planets Examples.system0).
Proof.
  repeat constructor; cbn; eexists _, _; cbn; repeat split.
Qed.

(** ** Finite spin *)

(** Finite spin everywhere, and moons that turn: what update steps keep. *)
Lemma spinsSafe_split (ps : list PlanetData) :
  Forall (fun p => Props.finiteSpin p /\
                   match moons p with
                   | Some ms => Forall (fun m => Props.finiteSpin m /\
                                                 rotationPeriod m <> 0) ms
                   | None => True
                   end) ps ->
  Props.spinsFinite ps /\ Props.moonsTurn ps.
Proof.
  induction 1 as [| p rest [Hp Hms] _ [IH1 IH2]];
    [split; constructor |].
  split; constructor; try assumption.
  - split; [exact Hp |].
    destruct (moons p); [| exact I].
    eapply Forall_impl; [| exact Hms]; intros m Hm; apply Hm.
  - destruct (moons p); [| exact I].
    eapply Forall_impl; [| exact Hms]; intros m Hm; apply Hm.
Qed.

Lemma updateMoon_finiteSpin (t : R) (pp : Vector3) (moon : PlanetData) :
  Props.finiteSpin moon -> rotationPeriod moon <> 0 ->
  Props.finiteSpin (updateMoon t pp moon) /\
  rotationPeriod (updateMoon t pp moon) <> 0.
Proof.
  intros [x Hx] Hr.
  split; [| rewrite (proj1 (proj2 (proj2 (updateMoon_params t pp moon))));
            exact Hr].
  destruct moon as [n r oR oP rP tl me po ms ol lb]; cbn in Hr.
  unfold spin in Hx; cbn in Hx.
  destruct me as [m |]; [| discriminate].
  injection Hx as Hx.
  unfold Props.finiteSpin, spin, updateMoon, JS.recip; cbn.
  destruct (Req_dec_T rP 0) as [E | _]; [contradiction |].
  rewrite Hx; destruct ol; cbn; eexists; reflexivity.
Qed.

Lemma updatePlanet_finiteSpin (t : R) (cam : Camera) (p : PlanetData) :
  Props.finiteSpin p -> Props.finiteSpin (updatePlanet t cam p).
Proof.
  intros [x Hx]; unfold spin in Hx.
  destruct (mesh p) as [m |] eqn:Em; [| discriminate].
  injection Hx as Hx.
  destruct (updatePlanet_fields t cam p m Em)
    as (_ & _ & _ & _ & _ & Hm & _).
  unfold Props.finiteSpin, spin; rewrite Hm, Hx; cbn.
  eexists; reflexivity.
Qed.

Lemma updatePlanet_spinsSafe (t : R) (cam : Camera) (p : PlanetData) :
  Props.finiteSpin p ->
  match moons p with
  | Some ms => Forall (fun m => Props.finiteSpin m /\ rotationPeriod m <> 0) ms
  | None => True
  end ->
  Props.finiteSpin (updatePlanet t cam p) /\
  match moons (updatePlanet t cam p) with
  | Some ms => Forall (fun m => Props.finiteSpin m /\ rotationPeriod m <> 0) ms
  | None => True
  end.
Proof.
  intros Hp Hms; split; [apply updatePlanet_finiteSpin, Hp |].
  destruct Hp as [x Hx]; unfold spin in Hx.
  destruct (mesh p) as [m |] eqn:Em; [| discriminate].
  destruct (updatePlanet_fields t cam p m Em)
    as (_ & _ & _ & _ & _ & _ & ->).
  destruct (moons p) as [ms |]; cbn [option_map]; [| exact I].
  induction Hms as [| moon rest [H1 H2] _ IH]; cbn [map]; constructor.
  - apply updateMoon_finiteSpin; assumption.
  - exact IH.
Qed.

Lemma registerBodies_spinsSafe (table : list PlanetData) :
  Props.moonsTurn table ->
  exists ps,
    registerBodies table = Fulfilled ps /\
    Forall (fun p => Props.finiteSpin p /\
                     match moons p with
                     | Some ms => Forall (fun m => Props.finiteSpin m /\
                                                   rotationPeriod m <> 0) ms
                     | None => True
                     end) ps.
Proof.
  induction 1 as [| p rest Hp _ (rest' & E & IH)]; cbn [registerBodies].
  - exists []; split; [reflexivity | constructor].
  - destruct (registerPlanet_registeredAs p)
      as (p' & Ep & (_ & _ & _ & _ & Hs) & Hms).
    rewrite Ep; cbn [andThen]; rewrite E; cbn [andThen].
    exists (p' :: rest'); split; [reflexivity |].
    constructor; [| exact IH].
    split; [eexists; exact Hs |].
    unfold Spec.moonsRegisteredAs in Hms.
    destruct (moons p) as [ms |], (moons p') as [ms' |];
      try contradiction; [| exact I].
    clear - Hp Hms.
    induction Hms as [| m m' ms ms' (_ & Hr & _ & _ & Hs) _ IH];
      constructor.
    + inversion Hp; subst.
      split; [eexists; exact Hs | rewrite Hr; assumption].
    + apply IH; inversion Hp; assumption.
Qed.

(** X2.  Spin angles stay finite.  If every moon of the table has a
    rotation period other than zero, then registration succeeds and,
    after any number of update steps at any times and for any camera,
    the spin angle of every planet and of every moon is a finite number.
    The planets need no such condition: their update guards the
    division. *)
Theorem spins_stay_finite :
  forall (table : list PlanetData) (sun : Mesh) (steps : list (R * Camera)),
    Props.moonsTurn table ->
    exists ps : list PlanetData,
      registerBodies table = Fulfilled ps /\
      Props.spinsFinite
        (planets (Props.updates (mkSolarSystem sun ps) steps)).
Proof.
  intros table sun0 steps Ht.
  destruct (registerBodies_spinsSafe table Ht) as (ps & E & Hs).
  exists ps; split; [exact E |].
  clear E Ht; revert sun0 ps Hs.
  induction steps as [| [t cam] rest IH]; intros sun0 ps Hs.
  - apply spinsSafe_split, Hs.
  - unfold Props.updates; cbn [fold_left fst snd].
    unfold updateSolarSystem at 2; cbn [planets sun].
    apply IH.
    induction Hs as [| p ps' [Hp Hms] _ IHs]; cbn [map]; constructor.
    + apply updatePlanet_spinsSafe; assumption.
    + exact IHs.
Qed.

Lemma planetsData_moonsTurn : Props.moonsTurn planetsData.
Proof.
  unfold Props.moonsTurn, planetsData, body.
  repeat constructor; cbn; lra.
Qed.

Lemma spins_stay_finite_witness :
  exists ps : list PlanetData,
    registerBodies planetsData = Fulfilled ps /\
    Props.spinsFinite
      (planets (Props.updates (mkSolarSystem (mkMesh zero3 (JS.Fin 0) 0) ps)
                              [(1, Examples.camera0);
                               (2, Examples.camera0)])).
Proof.
  exact (spins_stay_finite planetsData (mkMesh zero3 (JS.Fin 0) 0)
                           [(1, Examples.camera0); (2, Examples.camera0)]
                           planetsData_moonsTurn).
Defined.

End SolarProps.

(* ------------------------------------------------------------------ *)
(** * More about the focus controller *)

Module FocusProps.

Import Three.
Import SolarSystem.
Import Focus.
Import Spec.
Import MathFacts.
Import SolarFacts.

(** ** The easing curve *)

Lemma ease_low (t : R) : t < 0.5 -> easeInOutCubic t = 4 * t * t * t.
Proof.
  intros H; unfold easeInOutCubic.
  destruct (Rlt_dec t 0.5); [reflexivity | contradiction].
Qed.

Lemma ease_high (t : R) :
  0.5 <= t -> easeInOutCubic t = 1 - 4 * (1 - t) * (1 - t) * (1 - t).
Proof.
  intros H; unfold easeInOutCubic.
  destruct (Rlt_dec t 0.5); [lra | cbn [pow]; field].
Qed.

Lemma cube_le (a b : R) : 0 <= a -> a <= b -> a * a * a <= b * b * b.
Proof.
  intros Ha Hab.
  assert (H : b * b * b - a * a * a
              = (b - a) * (b * b + a * b + a * a)) by ring.
  assert (0 <= b * b + a * b + a * a) by nra.
  assert (0 <= (b - a) * (b * b + a * b + a * a))
    by (apply Rmult_le_pos; lra).
  lra.
Qed.

(** X13.  The easing curve of the entry transition starts at 0, ends at
    1, passes through 1/2 at the middle where its two pieces meet, stays
    within [0, 1] and never decreases on [0, 1], and is symmetric about
    the middle: [ease (1 - t) = 1 - ease t]. *)
Theorem easeInOutCubic_shape :
  easeInOutCubic 0 = 0 /\
  easeInOutCubic 1 = 1 /\
  easeInOutCubic 0.5 = 0.5 /\
  4 * 0.5 * 0.5 * 0.5 = easeInOutCubic 0.5 /\
  (forall t, 0 <= t <= 1 -> 0 <= easeInOutCubic t <= 1) /\
  (forall t u, 0 <= t -> t <= u -> u <= 1 ->
               easeInOutCubic t <= easeInOutCubic u) /\
  (forall t, easeInOutCubic (1 - t) = 1 - easeInOutCubic t).
Proof.
  assert (Hmono : forall t u, 0 <= t -> t <= u -> u <= 1 ->
                              easeInOutCubic t <= easeInOutCubic u).
  { intros t u Ht Htu Hu.
    destruct (Rlt_dec t 0.5) as [Ht5 | Ht5];
      destruct (Rlt_dec u 0.5) as [Hu5 | Hu5].
    - rewrite !ease_low by assumption.
      pose proof (cube_le t u Ht Htu); lra.
    - rewrite ease_low, ease_high by lra.
      pose proof (cube_le t 0.5 Ht ltac:(lra)).
      pose proof (cube_le (1 - u) 0.5 ltac:(lra) ltac:(lra)).
      lra.
    - lra.
    - rewrite !ease_high by lra.
      pose proof (cube_le (1 - u) (1 - t) ltac:(lra) ltac:(lra)); lra. }
  assert (H0 : easeInOutCubic 0 = 0) by (rewrite ease_low; lra).
  assert (H1 : easeInOutCubic 1 = 1) by (rewrite ease_high; lra).
  split; [exact H0 |]. split; [exact H1 |].
  split; [rewrite ease_high; lra |].
  split; [rewrite ease_high; lra |].
  split.
  - intros t [Ht0 Ht1]; split.
    + rewrite <- H0; apply Hmono; lra.
    + rewrite <- H1; apply Hmono; lra.
  - split; [exact Hmono |].
    intros t.
    destruct (Rlt_dec t 0.5) as [Ht | Ht].
    + rewrite (ease_low t Ht), ease_high by lra; ring.
    + destruct (Req_dec t 0.5) as [-> | Hne].
      * replace (1 - 0.5) with 0.5 by lra; rewrite ease_high; lra.
      * rewrite (ease_high t ltac:(lra)), ease_low by lra; ring.
Qed.

(** ** Focus requests on placed bodies *)

Lemma allPlaced_allPositioned (ps : list PlanetData) :
  Props.allPlaced ps -> allPositioned ps.
Proof.
  unfold Props.allPlaced, allPositioned; apply Forall_impl.
  intros e (m & pos & _ & Hp & _); rewrite Hp; discriminate.
Qed.

(** X14.  On a non-empty planet list whose bodies are all placed -- as
    registration leaves them and update steps keep them -- a focus
    request always finds a target: [focusOnNearest] returns a body of the
    list and leaves the controller focused on it, at transition progress
    0, with the camera where it was. *)
Theorem focusOnNearest_always_focuses :
  forall (fc : FocusControls) (cam : Camera) (planets : list PlanetData),
    Props.allPlaced planets ->
    planets <> [] ->
    exists (r : BodyRef) (b : PlanetData),
      lookup planets r = Some b /\
      fst (focusOnNearest fc cam planets) = Some r /\
      isFocused (fst (snd (focusOnNearest fc cam planets))) = true /\
      targetPlanet (fst (snd (focusOnNearest fc cam planets))) = Some r /\
      transitionProgress (fst (snd (focusOnNearest fc cam planets))) = 0 /\
      snd (snd (focusOnNearest fc cam planets)) = cam.
Proof.
  intros fc cam planets Hplaced Hne.
  pose proof (allPlaced_allPositioned planets Hplaced) as Hpos.
  unfold focusOnNearest.
  rewrite (FocusFacts.scanPlanets_fold
             _ _ 0 _ (FocusFacts.allPositioned_planets _ Hpos)).
  fold (allBodies planets).
  destruct (FocusFacts.scan_keeps_first_nearest
              (Three.position cam) (allBodies planets) Hpos)
    as [[Hnil _] | (k & [r b] & pos & Hn & _ & Hk & _)].
  - destruct planets; [contradiction | discriminate Hnil].
  - rewrite Hn; exists r, b.
    assert (Hin : In (r, b) (allBodies planets))
      by (apply (nth_error_In _ _ Hk)).
    pose proof (proj2 (FocusFacts.allBodies_lookup planets r b) Hin) as Hl.
    split; [exact Hl |].
    unfold Props.allPlaced in Hplaced; rewrite Forall_forall in Hplaced.
    destruct (Hplaced (r, b) Hin) as (m & p & Hm & Hp & _); cbn [snd] in *.
    unfold focusOnPlanet; rewrite Hm, Hp; cbn; repeat split.
Qed.

Lemma focusOnNearest_always_focuses_witness :
  exists (r : BodyRef) (b : PlanetData),
    lookup (planets Examples.system0) r = Some b /\
    fst (focusOnNearest Examples.focus0 Examples.camera0
                        (planets Examples.system0)) = Some r /\
    isFocused (fst (snd (focusOnNearest Examples.focus0 Examples.camera0
                                        (planets Examples.system0)))) = true.
Proof.
  assert (Hne : planets Examples.system0 <> []) by discriminate.
  destruct (focusOnNearest_always_focuses
              Examples.focus0 Examples.camera0 (planets Examples.system0)
              SolarProps.system0_placed Hne)
    as (r & b & H1 & H2 & H3 & _).
  exists r, b; repeat split; assumption.
Defined.

(** ** Which body a focus request can return *)

Lemma consider_ok (planets : list PlanetData) (c : Vector3) (sc : Scan)
      (r : BodyRef) (b : PlanetData) (pos : Vector3) :
  Props.eligible planets r b ->
  Props.scanOk planets sc ->
  Props.scanOk planets (consider c sc r b pos) /\
  nearest (consider c sc r b pos) <> None.
Proof.
  intros He Hok; unfold consider, Props.scanOk in *.
  destruct (nearestDistance sc) as [d |] eqn:Ed; cbn [closer].
  - destruct (nearest sc) as [[r0 b0] |] eqn:En; [| discriminate Hok].
    destruct (JS.ltb _ d); cbn.
    + split; [split; [exact He | discriminate] | discriminate].
    + rewrite En, Ed; split; [exact Hok | discriminate].
  - cbn; split; [split; [exact He | discriminate] | discriminate].
Qed.

Lemma scanMoons_ok (planets : list PlanetData) (c : Vector3) (i : nat)
      (ms : list PlanetData) :
  forall (j : nat) (sc : Scan),
    (forall n moon, nth_error ms n = Some moon ->
                    SolarSystem.position moon <> None ->
                    Props.eligible planets (MoonRef i (j + n)) moon) ->
    Props.scanOk planets sc ->
    Props.scanOk planets (scanMoons c i j ms sc) /\
    (nearest sc <> None -> nearest (scanMoons c i j ms sc) <> None).
Proof.
  induction ms as [| moon rest IH]; intros j sc Hel Hok; cbn [scanMoons].
  - split; [exact Hok | auto].
  - assert (Hrest : forall n m, nth_error rest n = Some m ->
                                SolarSystem.position m <> None ->
                                Props.eligible planets (MoonRef i (S j + n)) m).
    { intros n m Hn Hp; rewrite Nat.add_succ_comm.
      apply (Hel (S n) m Hn Hp). }
    destruct (SolarSystem.position moon) as [pos |] eqn:Ep.
    + assert (He : Props.eligible planets (MoonRef i j) moon).
      { rewrite <- (Nat.add_0_r j); apply (Hel 0%nat moon eq_refl).
        rewrite Ep; discriminate. }
      destruct (consider_ok planets c sc _ _ pos He Hok) as [Hok' Hsome].
      destruct (IH (S j) _ Hrest Hok') as [Hfin Hkeep].
      split; [exact Hfin | intros _; apply Hkeep, Hsome].
    + apply (IH (S j) sc Hrest Hok).
Qed.

Lemma scanPlanets_ok (planets : list PlanetData) (c : Vector3)
      (ps : list PlanetData) :
  forall (pre : list PlanetData) (sc : Scan),
    planets = pre ++ ps ->
    Props.scanOk planets sc ->
    Props.scanOk planets (scanPlanets c (List.length pre) ps sc) /\
    (nearest sc <> None ->
     nearest (scanPlanets c (List.length pre) ps sc) <> None) /\
    (nearest (scanPlanets c (List.length pre) ps sc) = None ->
     Forall (fun p => SolarSystem.position p = None) ps).
Proof.
  induction ps as [| p rest IH]; intros pre sc Hsplit Hok;
    cbn [scanPlanets].
  - split; [exact Hok | split; [auto | constructor]].
  - assert (Hnth : nth_error planets (List.length pre) = Some p).
    { rewrite Hsplit, nth_error_app2, Nat.sub_diag by apply le_n.
      reflexivity. }
    assert (Hsplit' : planets = (pre ++ [p]) ++ rest)
      by (rewrite <- app_assoc; exact Hsplit).
    assert (Hlen : List.length (pre ++ [p]) = S (List.length pre))
      by (rewrite length_app; cbn; lia).
    destruct (SolarSystem.position p) as [pos |] eqn:Ep.
    + assert (He : Props.eligible planets (PlanetRef (List.length pre)) p).
      { split; [exact Hnth | split; [rewrite Ep; discriminate | exact I]]. }
      destruct (consider_ok planets c sc _ _ pos He Hok) as [Hok1 Hsome1].
      cbv zeta.
      assert (Hstep :
                Props.scanOk planets
                  (match moons p with
                   | Some ms => scanMoons c (List.length pre) 0 ms
                                  (consider c sc (PlanetRef (List.length pre))
                                            p pos)
                   | None => consider c sc (PlanetRef (List.length pre)) p pos
                   end) /\
                nearest
                  (match moons p with
                   | Some ms => scanMoons c (List.length pre) 0 ms
                                  (consider c sc (PlanetRef (List.length pre))
                                            p pos)
                   | None => consider c sc (PlanetRef (List.length pre)) p pos
                   end) <> None).
      { destruct (moons p) as [ms |] eqn:Ems; [| split; assumption].
        destruct (scanMoons_ok planets c (List.length pre) ms 0 _
                    ltac:(intros n moon Hn Hp; cbn [Nat.add];
                          split; [cbn; rewrite Hnth, Ems; exact Hn |];
                          split; [exact Hp |];
                          exists p; split; [exact Hnth |];
                          rewrite Ep; discriminate)
                    Hok1) as [H1 H2].
        split; [exact H1 | apply H2, Hsome1]. }
      destruct Hstep as [Hok2 Hsome2].
      rewrite <- Hlen.
      destruct (IH (pre ++ [p]) _ Hsplit' Hok2) as (Hfin & Hkeep & _).
      split; [exact Hfin |].
      split; [intros _; apply Hkeep, Hsome2 |].
      intros Hnone; exfalso; apply (Hkeep Hsome2), Hnone.
    + rewrite <- Hlen.
      destruct (IH (pre ++ [p]) sc Hsplit' Hok) as (Hfin & Hkeep & Hall).
      split; [exact Hfin |].
      split; [exact Hkeep |].
      intros Hnone; constructor; [exact Ep | apply Hall, Hnone].
Qed.

(** X15.  Whatever the planet list, [focusOnNearest] returns "no target"
    exactly when no planet has a position, and then changes nothing; a
    body it returns is a body of the list that has a position and, when it
    is a moon, one whose planet has a position too: the moons of a planet
    without position are never returned. *)
Theorem focusOnNearest_returns_eligible :
  forall (fc : FocusControls) (cam : Camera) (planets : list PlanetData),
    (fst (focusOnNearest fc cam planets) = None <->
     Forall (fun p => SolarSystem.position p = None) planets) /\
    (fst (focusOnNearest fc cam planets) = None ->
     snd (focusOnNearest fc cam planets) = (fc, cam)) /\
    (forall r, fst (focusOnNearest fc cam planets) = Some r ->
               exists b, Props.eligible planets r b).
Proof.
  intros fc cam planets.
  destruct (scanPlanets_ok planets (Three.position cam) planets []
                           (mkScan None None) eq_refl eq_refl)
    as (Hok & _ & Hall).
  cbn [List.length] in Hok, Hall.
  unfold focusOnNearest.
  destruct (nearest (scanPlanets (Three.position cam) 0 planets
                                 (mkScan None None)))
    as [[r b] |] eqn:En; cbn [fst snd].
  - unfold Props.scanOk in Hok; rewrite En in Hok; destruct Hok as [He _].
    split; [| split].
    + split; [discriminate |].
      intros Hnone; exfalso.
      rewrite Forall_forall in Hnone.
      destruct He as (Hl & Hp & Hparent).
      destruct r as [i | i j].
      * apply Hp, (Hnone b), (nth_error_In _ _ Hl).
      * destruct Hparent as (p & Hn & Hpp).
        apply Hpp, (Hnone p), (nth_error_In _ _ Hn).
    + discriminate.
    + intros r' Hr; injection Hr as <-; exists b; exact He.
  - split; [| split].
    + split; [intros _; apply Hall; reflexivity | reflexivity].
    + reflexivity.
    + discriminate.
Qed.

Lemma focusOnNearest_returns_eligible_witness :
  fst (focusOnNearest Examples.focus0 Examples.camera0 [Examples.unplaced])
  = None.
Proof.
  refine (proj2 (proj1 (focusOnNearest_returns_eligible
                          Examples.focus0 Examples.camera0
                          [Examples.unplaced])) _).
  repeat constructor.
Defined.

(** ** The camera in focus mode *)

Lemma ease_range (t : R) : 0 <= t <= 1 -> 0 <= easeInOutCubic t <= 1.
Proof.
  intros [H0 H1].
  destruct (Rlt_dec t 0.5) as [Ht | Ht].
  - rewrite (ease_low t Ht).
    pose proof (cube_le 0 t ltac:(lra) H0).
    pose proof (cube_le t 0.5 H0 ltac:(lra)).
    lra.
  - rewrite (ease_high t ltac:(lra)).
    pose proof (cube_le 0 (1 - t) ltac:(lra) ltac:(lra)).
    pose proof (cube_le (1 - t) 0.5 ltac:(lra) ltac:(lra)).
    lra.
Qed.

Lemma length_scaled (v : Vector3) (k : R) :
  0 <= k -> Three.length (multiplyScalar v k) = k * Three.length v.
Proof.
  intros Hk; unfold Three.length.
  replace (lengthSq (multiplyScalar v k)) with (k * k * lengthSq v)
    by (unfold lengthSq, multiplyScalar; cbn; ring).
  rewrite sqrt_mult_alt by (apply Rle_0_sqr).
  rewrite sqrt_square by exact Hk; reflexivity.
Qed.

Lemma distanceTo_blend (a b : Vector3) (alpha : R) :
  alpha <= 1 ->
  distanceTo (lerpVectors a b alpha) b = (1 - alpha) * distanceTo a b.
Proof.
  intros H; unfold distanceTo.
  rewrite <- length_scaled by lra; f_equal.
  unfold lerpVectors, subVectors, multiplyScalar; cbn; f_equal; ring.
Qed.

Lemma idealPosition_distance (fc : FocusControls) (target : Vector3)
      (dt : R) :
  distanceTo (Props.idealPosition fc target dt) target
  = sqrt 1.09 * Rabs (Focus.orbitRadius fc).
Proof.
  unfold distanceTo, Three.length, Props.idealPosition.
  set (a := orbitAngle fc + orbitSpeed * dt).
  set (r := Focus.orbitRadius fc).
  replace (lengthSq _) with (1.09 * Rsqr r).
  - rewrite sqrt_mult_alt by lra; rewrite sqrt_Rsqr_abs; reflexivity.
  - unfold lengthSq, subVectors, addVectors, Rsqr; cbn.
    pose proof (sin2_cos2 a) as H; unfold Rsqr in H.
    replace ((vx target + sin a * r - vx target)
             * (vx target + sin a * r - vx target)
             + (vy target + r * 0.3 - vy target)
               * (vy target + r * 0.3 - vy target)
             + (vz target + cos a * r - vz target)
               * (vz target + cos a * r - vz target))
      with ((sin a * sin a + cos a * cos a) * (r * r)
            + 0.3 * 0.3 * (r * r))
      by ring.
    rewrite H; lra.
Qed.

(** X17.  Where focus mode puts the camera.  The point the camera is
    steered to lies at [sqrt 1.09] orbit radii from the target,
    [0.3] orbit radii above it.  During the entry transition (progress
    after the frame below 1) the camera is on the segment from the place
    where the focus request was made to that point, the remaining
    fraction of the way being [1 - easeInOutCubic progress]; afterwards
    each frame of delta [dt] shrinks the gap between the camera and the
    point by the factor [exp (- 5 dt)].  The camera never passes the
    point. *)
Theorem focus_camera_approach :
  forall (fc : FocusControls) (cam : Camera) (target : Vector3) (dt : R),
    0 <= dt ->
    0 <= transitionProgress fc ->
    let ideal := Props.idealPosition fc target dt in
    let next := nextCameraPosition fc cam target dt in
    let progress := transitionProgress fc + dt * 2 in
    distanceTo ideal target = sqrt 1.09 * Rabs (Focus.orbitRadius fc) /\
    vy ideal = vy target + Focus.orbitRadius fc * 0.3 /\
    (progress < 1 ->
     0 <= 1 - easeInOutCubic progress <= 1 /\
     distanceTo next ideal
     = (1 - easeInOutCubic progress)
       * distanceTo (originalPosition fc) ideal) /\
    (1 <= progress ->
     0 < exp (- 5 * dt) <= 1 /\
     distanceTo next ideal
     = exp (- 5 * dt) * distanceTo (Three.position cam) ideal).
Proof.
  intros fc cam target dt Hdt Hp ideal next progress.
  split; [apply idealPosition_distance |].
  split; [reflexivity |].
  split.
  - intros Hlt.
    pose proof (ease_range progress ltac:(unfold progress in *; lra)) as He.
    split; [lra |].
    unfold next, nextCameraPosition, transitionSpeed.
    fold progress; fold (Props.idealPosition fc target dt); fold ideal.
    rewrite Rmin_left by lra.
    destruct (Rlt_dec progress 1) as [_ | Hn]; [| contradiction].
    apply distanceTo_blend; lra.
  - intros Hge.
    assert (Hexp : 0 < exp (- 5 * dt) <= 1).
    { split; [apply exp_pos |].
      rewrite <- exp_0.
      destruct (Req_dec dt 0) as [-> | Hne].
      - replace (- 5 * 0) with 0 by ring; lra.
      - left; apply exp_increasing; lra. }
    split; [exact Hexp |].
    unfold next, nextCameraPosition, transitionSpeed.
    fold progress; fold (Props.idealPosition fc target dt); fold ideal.
    rewrite Rmin_right by lra.
    destruct (Rlt_dec 1 1) as [Hn | _]; [lra |].
    change (lerp (Three.position cam) ideal (1 - exp (- 5 * dt)))
      with (lerpVectors (Three.position cam) ideal (1 - exp (- 5 * dt))).
    rewrite distanceTo_blend by lra.
    f_equal; ring.
Qed.

Lemma focus_camera_approach_witness :
  distanceTo
    (nextCameraPosition Examples.focus0 Examples.camera0 (vec3 50 0 0) 0.016)
    (Props.idealPosition Examples.focus0 (vec3 50 0 0) 0.016)
  = exp (- 5 * 0.016)
    * distanceTo (Three.position Examples.camera0)
                 (Props.idealPosition Examples.focus0 (vec3 50 0 0) 0.016).
Proof.
  assert (H1 : 0 <= 0.016) by lra.
  assert (H2 : 0 <= transitionProgress Examples.focus0) by (cbn; lra).
  assert (H3 : 1 <= transitionProgress Examples.focus0 + 0.016 * 2)
    by (cbn; lra).
  exact (proj2 (proj2 (proj2 (proj2
           (focus_camera_approach Examples.focus0 Examples.camera0
                                  (vec3 50 0 0) 0.016 H1 H2))) H3)).
Defined.

(** ** Where the orbit is entered *)

Lemma atan2_sin_cos (y x : R) :
  x <> 0 \/ y <> 0 ->
  sin (JS.atan2 y x) = y / sqrt (x * x + y * y) /\
  cos (JS.atan2 y x) = x / sqrt (x * x + y * y).
Proof.
  intros Hne.
  set (h := sqrt (x * x + y * y)).
  assert (Hpos : 0 < x * x + y * y).
  { pose proof (Rle_0_sqr x) as Hx; pose proof (Rle_0_sqr y) as Hy.
    unfold Rsqr in Hx, Hy.
    destruct Hne as [H | H].
    - pose proof (Rsqr_pos_lt x H) as H'; unfold Rsqr in H'; lra.
    - pose proof (Rsqr_pos_lt y H) as H'; unfold Rsqr in H'; lra. }
  assert (Hh : 0 < h) by (apply sqrt_lt_R0, Hpos).
  assert (Hh2 : h * h = x * x + y * y) by (apply sqrt_sqrt; lra).
  assert (Hroot : forall d, 0 < d -> d * d = x * x ->
                            sqrt (1 + (y / x)²) = h / d).
  { intros d Hd Hdd.
    assert (Hx : x <> 0) by (intros ->; nra).
    apply sqrt_lem_1.
    - pose proof (Rle_0_sqr (y / x)); lra.
    - apply Rlt_le, Rdiv_lt_0_compat; assumption.
    - replace (h / d * (h / d)) with (h * h / (d * d)) by (field; lra).
      rewrite Hh2, Hdd; unfold Rsqr; field; exact Hx. }
  unfold JS.atan2.
  destruct (Rlt_dec 0 x) as [Hx | Hx].
  - rewrite sin_atan, cos_atan, (Hroot x Hx eq_refl).
    split; field; lra.
  - destruct (Rlt_dec x 0) as [Hx' | Hx'].
    + assert (E : sqrt (1 + (y / x)²) = h / - x)
        by (apply Hroot; [lra | ring]).
      destruct (Rle_dec 0 y) as [Hy | Hy].
      * rewrite sin_plus, cos_plus, sin_PI, cos_PI, sin_atan, cos_atan, E.
        split; field; lra.
      * rewrite sin_minus, cos_minus, sin_PI, cos_PI, sin_atan, cos_atan, E.
        split; field; lra.
    + assert (Hx0 : x = 0) by lra.
      assert (Hy0 : y <> 0) by (destruct Hne; [lra | assumption]).
      destruct (Rlt_dec 0 y) as [Hy | Hy].
      * assert (E : h = y).
        { unfold h; rewrite Hx0.
          replace (0 * 0 + y * y) with (y * y) by ring.
          apply sqrt_square; lra. }
        rewrite sin_PI2, cos_PI2, E, Hx0; split; field; lra.
      * destruct (Rlt_dec y 0) as [Hy' | Hy']; [| lra].
        assert (E : h = - y).
        { unfold h; rewrite Hx0.
          replace (0 * 0 + y * y) with (- y * - y) by ring.
          apply sqrt_square; lra. }
        rewrite sin_neg, cos_neg, sin_PI2, cos_PI2, E, Hx0.
        split; field; lra.
Qed.

(** X16.  The orbit is entered on the far side of the body.  When a
    focus request is made on a placed body that is not exactly above or
    below the camera, the orbit angle it sets points from the camera to
    the body: the point the camera is first steered to is the position
    of the body moved by one orbit radius -- three times the radius of
    the body -- along the horizontal direction from the camera to the
    body, and raised by 0.3 orbit radii. *)
Theorem focus_enters_orbit_behind_body :
  forall (fc : FocusControls) (cam : Camera) (r : BodyRef)
         (planet : PlanetData) (m : Mesh) (pos : Vector3),
    mesh planet = Some m ->
    SolarSystem.position planet = Some pos ->
    let dx := vx pos - vx (Three.position cam) in
    let dz := vz pos - vz (Three.position cam) in
    let h := sqrt (dx * dx + dz * dz) in
    dx <> 0 \/ dz <> 0 ->
    Props.idealPosition (fst (focusOnPlanet fc cam r planet)) pos 0
    = vec3 (vx pos + dx / h * (radius planet * 3))
           (vy pos + radius planet * 3 * 0.3)
           (vz pos + dz / h * (radius planet * 3)).
Proof.
  intros fc cam r planet m pos Hm Hp dx dz h Hne.
  unfold focusOnPlanet; rewrite Hm, Hp; cbv zeta; cbn [fst].
  unfold Props.idealPosition;
    cbn [Focus.orbitAngle Focus.orbitRadius addVectors vx vy vz].
  set (d := subVectors pos (Three.position cam)).
  assert (Hdx : vx d = dx) by reflexivity.
  assert (Hdz : vz d = dz) by reflexivity.
  assert (Hh : 0 < h).
  { apply sqrt_lt_R0.
    pose proof (Rle_0_sqr dx) as Hx; pose proof (Rle_0_sqr dz) as Hz.
    unfold Rsqr in Hx, Hz.
    destruct Hne as [H | H].
    - pose proof (Rsqr_pos_lt dx H) as H'; unfold Rsqr in H'; lra.
    - pose proof (Rsqr_pos_lt dz H) as H'; unfold Rsqr in H'; lra. }
  assert (Hl : 0 < Three.length d).
  { apply sqrt_lt_R0; unfold lengthSq; rewrite Hdx, Hdz.
    pose proof (Rle_0_sqr dx) as Hx; pose proof (Rle_0_sqr dz) as Hz.
    pose proof (Rle_0_sqr (vy d)) as Hy.
    unfold Rsqr in Hx, Hy, Hz.
    destruct Hne as [H | H].
    - pose proof (Rsqr_pos_lt dx H) as H'; unfold Rsqr in H'; lra.
    - pose proof (Rsqr_pos_lt dz H) as H'; unfold Rsqr in H'; lra. }
  unfold normalize.
  destruct (Req_dec_T (Three.length d) 0) as [E | _]; [lra |].
  set (k := 1 / Three.length d).
  assert (Hk : 0 < k) by (apply Rdiv_lt_0_compat; lra).
  cbn [multiplyScalar vx vz]; rewrite Hdx, Hdz.
  assert (Hne' : dz * k <> 0 \/ dx * k <> 0).
  { destruct Hne as [H | H]; [right | left];
      apply Rmult_integral_contrapositive_currified; lra. }
  destruct (atan2_sin_cos (dx * k) (dz * k) Hne') as [Hs Hc].
  assert (Hroot : sqrt (dz * k * (dz * k) + dx * k * (dx * k)) = h * k).
  { apply sqrt_lem_1.
    - pose proof (Rle_0_sqr (dz * k)) as H1.
      pose proof (Rle_0_sqr (dx * k)) as H2.
      unfold Rsqr in H1, H2; lra.
    - apply Rmult_le_pos; lra.
    - replace (h * k * (h * k)) with (h * h * (k * k)) by ring.
      unfold h; rewrite sqrt_sqrt; [ring |].
      pose proof (Rle_0_sqr dx) as Hx; pose proof (Rle_0_sqr dz) as Hz.
      unfold Rsqr in Hx, Hz; lra. }
  rewrite Hroot in Hs, Hc.
  replace (JS.atan2 (dx * k) (dz * k) + orbitSpeed * 0)
    with (JS.atan2 (dx * k) (dz * k)) by ring.
  rewrite Hs, Hc.
  unfold addVectors; cbn [vx vy vz].
  f_equal; field; lra.
Qed.

Lemma focus_enters_orbit_behind_body_witness :
  Props.idealPosition
    (fst (focusOnPlanet Examples.focus0 Examples.camera0 (PlanetRef 1)
                        Examples.earth))
    (vec3 50 0 0) 0
  = vec3 (50 + (50 - 0) / sqrt ((50 - 0) * (50 - 0) + (0 - 0) * (0 - 0))
               * (1 * 3))
         (0 + 1 * 3 * 0.3)
         (0 + (0 - 0) / sqrt ((50 - 0) * (50 - 0) + (0 - 0) * (0 - 0))
              * (1 * 3)).
Proof.
  refine (focus_enters_orbit_behind_body
            Examples.focus0 Examples.camera0 (PlanetRef 1) Examples.earth
            (mkMesh (vec3 50 0 0) (JS.Fin 0) 0) (vec3 50 0 0)
            eq_refl eq_refl _).
  left; cbn; lra.
Defined.

End FocusProps.

(* ------------------------------------------------------------------ *)
(** * More about the free-flight controller *)

Module FlightProps.

Import Three.
Import Flight.
Import Spec.
Import Props.
Import MathFacts.
Import FlightFacts.

(** ** Speed *)

(** X20.  Whatever combination of direction keys is held, as long as it
    commands a direction, the target velocity has the magnitude
    [baseSpeed] -- 30 -- or, with boost, [baseSpeed boostMultiplier] --
    240: moving diagonally is not faster. *)
Theorem target_speed_is_direction_independent :
  forall (s : FlightControls) (e : Euler),
    commanded s <> zero3 ->
    length (targetVelocity s (setFromEuler e))
    = (if boost s then 240 else 30).
Proof.
  intros s e Hc.
  pose proof (lengthSq_pos _ Hc) as Hsq.
  pose proof (length_pos _ Hsq) as Hl.
  unfold length at 1, targetVelocity.
  destruct (Rlt_dec 0 (length (commanded s))) as [_ | Hn]; [| lra].
  rewrite lengthSq_multiplyScalar,
    (applyQuaternion_lengthSq _ _ (setFromEuler_unit e)),
    (lengthSq_normalize _ Hsq), Rmult_1_l.
  unfold baseSpeed, boostMultiplier; destruct (boost s).
  - replace (30 * 8 * (30 * 8)) with (240 * 240) by ring.
    apply sqrt_square; lra.
  - replace (30 * 1 * (30 * 1)) with (30 * 30) by ring.
    apply sqrt_square; lra.
Qed.

Lemma target_speed_is_direction_independent_witness :
  length (targetVelocity
            (mkFlightControls true false false true true false true
                              zero3 zero3 (mkEuler 0.3 1 0) true None None)
            (setFromEuler (mkEuler 0.3 1 0)))
  = 240.
Proof.
  refine (target_speed_is_direction_independent
            (mkFlightControls true false false true true false true
                              zero3 zero3 (mkEuler 0.3 1 0) true None None)
            (mkEuler 0.3 1 0) _).
  unfold commanded, zero3; cbn.
  intros E; apply (f_equal vz) in E; cbn in E; lra.
Defined.

Lemma lengthSq_pos_or_zero (v : Vector3) : v = zero3 \/ v <> zero3.
Proof.
  destruct v as [x y z]; unfold zero3.
  destruct (Req_dec x 0) as [-> | Hx];
    [| right; intros E; injection E; intros; contradiction].
  destruct (Req_dec y 0) as [-> | Hy];
    [| right; intros E; injection E; intros; contradiction].
  destruct (Req_dec z 0) as [-> | Hz];
    [left; reflexivity | right; intros E; injection E; intros; contradiction].
Qed.

Lemma targetVelocity_bounded (s : FlightControls) (e : Euler) :
  lengthSq (targetVelocity s (setFromEuler e)) <= 240 * 240.
Proof.
  destruct (lengthSq_pos_or_zero (commanded s)) as [Hz | Hc].
  - rewrite (targetVelocity_idle s _ Hz).
    unfold lengthSq, zero3; cbn; lra.
  - pose proof (target_speed_is_direction_independent s e Hc) as H.
    unfold length in H.
    pose proof (lengthSq_nonneg (targetVelocity s (setFromEuler e))) as Hn.
    rewrite <- (sqrt_sqrt _ Hn), H.
    destruct (boost s); lra.
Qed.

Lemma blend_lengthSq (v t : Vector3) (a : R) :
  0 <= a <= 1 ->
  lengthSq (vec3 (MathUtils.lerp (vx v) (vx t) a)
                 (MathUtils.lerp (vy v) (vy t) a)
                 (MathUtils.lerp (vz v) (vz t) a))
  <= (1 - a) * lengthSq v + a * lengthSq t.
Proof.
  intros Ha; destruct v as [x y z], t as [p q r].
  unfold lengthSq, MathUtils.lerp; cbn [vx vy vz].
  assert (H : (1 - a) * (x * x + y * y + z * z) + a * (p * p + q * q + r * r)
              - ((x + (p - x) * a) * (x + (p - x) * a)
                 + (y + (q - y) * a) * (y + (q - y) * a)
                 + (z + (r - z) * a) * (z + (r - z) * a))
              = a * (1 - a) * ((p - x) * (p - x) + (q - y) * (q - y)
                               + (r - z) * (r - z))) by ring.
  assert (0 <= a * (1 - a)) by (apply Rmult_le_pos; lra).
  assert (0 <= (p - x) * (p - x) + (q - y) * (q - y) + (r - z) * (r - z)).
  { pose proof (Rle_0_sqr (p - x)); pose proof (Rle_0_sqr (q - y)).
    pose proof (Rle_0_sqr (r - z)); unfold Rsqr in *; lra. }
  assert (0 <= a * (1 - a) * ((p - x) * (p - x) + (q - y) * (q - y)
                              + (r - z) * (r - z)))
    by (apply Rmult_le_pos; assumption).
  lra.
Qed.

Lemma blend_factor_range (dt k : R) :
  0 < k -> 0 <= dt -> 0 <= 1 - exp (- dt / k) <= 1.
Proof.
  intros Hk Hdt.
  pose proof (exp_pos (- dt / k)).
  assert (exp (- dt / k) <= 1).
  { rewrite <- exp_0.
    destruct (Req_dec dt 0) as [-> | Hne].
    - replace (- 0 / k) with 0 by (field; lra); apply Rle_refl.
    - left; apply exp_increasing.
      apply Rmult_lt_reg_r with k; [exact Hk |].
      replace (- dt / k * k) with (- dt) by (field; lra); lra. }
  lra.
Qed.

Lemma dampingFactor_pos (v : Vector3) : 0 < dampingFactor v.
Proof.
  unfold dampingFactor, acceleration, damping.
  destruct (Rlt_dec 0 (length v)); lra.
Qed.

Lemma update_speed_bound (s : FlightControls) (cam : Camera) (dt : R) :
  0 <= dt ->
  lengthSq (velocity s) <= 240 * 240 ->
  lengthSq (velocity (fst (update s cam dt))) <= 240 * 240.
Proof.
  intros Hdt Hv; unfold update.
  destruct (isLocked s); cbn [negb fst]; [| exact Hv].
  cbv zeta; unfold set_velocity_direction; cbn [velocity].
  set (tv := targetVelocity s (setFromEuler (euler s))).
  pose proof (targetVelocity_bounded s (euler s)) as Ht; fold tv in Ht.
  pose proof (blend_factor_range dt (dampingFactor tv)
                                 (dampingFactor_pos tv) Hdt) as Ha.
  pose proof (blend_lengthSq (velocity s) tv _ Ha) as Hb.
  unfold MathUtils.damp.
  set (a := 1 - exp (- dt / dampingFactor tv)) in *.
  nra.
Qed.

Lemma step_speed_bound (sc : FlightControls * Camera) (a : Action) :
  forwardInTime a ->
  lengthSq (velocity (fst sc)) <= 240 * 240 ->
  lengthSq (velocity (fst (step sc a))) <= 240 * 240.
Proof.
  intros Ha Hv; destruct a as [ev | dt]; cbn [step].
  - destruct ev as [mx my | b | | code | code]; cbn.
    + unfold onMouseMove; destruct (isLocked (fst sc)); exact Hv.
    + destruct b; exact Hv.
    + exact Hv.
    + unfold onKeyDown; destruct (keyFlag code) as [f |]; [| exact Hv].
      destruct f; exact Hv.
    + unfold onKeyUp; destruct (keyFlag code) as [f |]; [| exact Hv].
      destruct f; exact Hv.
  - apply update_speed_bound; assumption.
Qed.

(** X21.  The speed never exceeds [baseSpeed boostMultiplier] = 240: if
    it is at most 240, it is at most 240 after any sequence of events and
    of frames whose deltas are not negative. *)
Theorem speed_never_exceeds_boost_speed :
  forall (s : FlightControls) (cam : Camera) (l : list Action),
    Forall forwardInTime l ->
    getSpeed s <= 240 ->
    getSpeed (fst (run (s, cam) l)) <= 240.
Proof.
  intros s cam l Hl Hs.
  assert (Hsq : forall v, lengthSq v <= 240 * 240 <-> length v <= 240).
  { intros v; unfold length; split; intros H.
    - rewrite <- (sqrt_square 240) by lra; apply sqrt_le_1_alt, H.
    - pose proof (lengthSq_nonneg v) as Hn.
      rewrite <- (sqrt_sqrt _ Hn).
      pose proof (sqrt_pos (lengthSq v)); nra. }
  unfold getSpeed in *; apply Hsq; apply Hsq in Hs.
  change (velocity s) with (velocity (fst (s, cam))) in Hs.
  generalize dependent (s, cam); clear s cam.
  induction l as [| a l IH]; intros sc Hs; cbn [run fold_left].
  - exact Hs.
  - inversion Hl as [| ? ? Ha Hl']; subst.
    apply (IH Hl'), step_speed_bound; assumption.
Qed.

Lemma speed_never_exceeds_boost_speed_witness :
  getSpeed
    (fst (run (mkFlightControls true false false true false false true
                                zero3 zero3 (mkEuler 0 0 0) true None None,
               mkCamera zero3 (quat 0 0 0 1))
              [Tick 0.016; Dom (KeyDown "KeyE"); Tick 2; Tick 0.016]))
  <= 240.
Proof.
  apply speed_never_exceeds_boost_speed.
  - repeat constructor; cbn; lra.
  - unfold getSpeed; cbn [velocity]; rewrite length_zero3; lra.
Defined.

(** ** Orientation *)

Lemma step_roll (sc : FlightControls * Camera) (a : Action) :
  ez (euler (fst (step sc a))) = ez (euler (fst sc)).
Proof.
  destruct a as [ev | dt]; cbn [step].
  - destruct ev as [mx my | b | | code | code]; cbn.
    + unfold onMouseMove; destruct (isLocked (fst sc)); reflexivity.
    + destruct b; reflexivity.
    + reflexivity.
    + unfold onKeyDown; destruct (keyFlag code) as [f |]; [| reflexivity].
      rewrite setFlag_euler; reflexivity.
    + unfold onKeyUp; destruct (keyFlag code) as [f |]; [| reflexivity].
      rewrite setFlag_euler; reflexivity.
  - rewrite update_euler; reflexivity.
Qed.

Lemma run_pointerMoves (deltas : list (R * R)) :
  forall (s : FlightControls) (cam : Camera),
    isLocked s = true ->
    isLocked (fst (run (s, cam) (pointerMoves deltas))) = true /\
    ey (euler (fst (run (s, cam) (pointerMoves deltas))))
    = ey (euler s) - mouseSensitivity * travelX deltas /\
    snd (run (s, cam) (pointerMoves deltas)) = cam /\
    velocity (fst (run (s, cam) (pointerMoves deltas))) = velocity s.
Proof.
  induction deltas as [| [mx my] rest IH]; intros s cam Hl;
    cbn [pointerMoves map run fold_left travelX fold_right].
  - cbn [fst snd]; repeat split; [exact Hl | ring].
  - cbn [step handle fst snd].
    assert (Hl' : isLocked (onMouseMove s mx my) = true)
      by (unfold onMouseMove; rewrite Hl; exact Hl).
    destruct (IH (onMouseMove s mx my) cam Hl') as (H1 & H2 & H3 & H4).
    fold (pointerMoves rest); fold (run (onMouseMove s mx my, cam)
                                        (pointerMoves rest)).
    split; [exact H1 |].
    split; [| split; [exact H3 |]].
    + rewrite H2; unfold onMouseMove; rewrite Hl; cbn.
      fold (travelX rest); ring.
    + rewrite H4; unfold onMouseMove; rewrite Hl; reflexivity.
Qed.

(** X22.  While the pointer is locked, the yaw after a sequence of
    pointer moves is the yaw before less [mouseSensitivity] times the
    total horizontal travel -- it is not clamped and does not depend on
    how the travel is split into events -- and the moves change neither
    the camera nor the velocity; the roll angle is never changed by any
    event or frame. *)
Theorem yaw_accumulates_roll_is_kept :
  forall (s : FlightControls) (cam : Camera) (deltas : list (R * R))
         (l : list Action),
    isLocked s = true ->
    ey (euler (fst (run (s, cam) (pointerMoves deltas))))
    = ey (euler s) - 0.002 * travelX deltas /\
    snd (run (s, cam) (pointerMoves deltas)) = cam /\
    velocity (fst (run (s, cam) (pointerMoves deltas))) = velocity s /\
    ez (euler (fst (run (s, cam) l))) = ez (euler s).
Proof.
  intros s cam deltas l Hl.
  destruct (run_pointerMoves deltas s cam Hl) as (_ & H2 & H3 & H4).
  split; [exact H2 | split; [exact H3 | split; [exact H4 |]]].
  change (ez (euler s)) with (ez (euler (fst (s, cam)))).
  generalize (s, cam); clear.
  induction l as [| a l IH]; intros sc; cbn [run fold_left];
    [reflexivity |].
  fold (run (step sc a) l); rewrite IH; apply step_roll.
Qed.

Lemma yaw_accumulates_roll_is_kept_witness :
  ey (euler (fst (run (Examples.flight0, Examples.camera0)
                      (pointerMoves [(10, 3); (- 4, 0); (6, 1)]))))
  = ey (euler Examples.flight0) - 0.002 * travelX [(10, 3); (- 4, 0); (6, 1)].
Proof.
  exact (proj1 (yaw_accumulates_roll_is_kept
                  Examples.flight0 Examples.camera0
                  [(10, 3); (- 4, 0); (6, 1)] [] eq_refl)).
Defined.

(** ** Keys *)

(** X23.  The movement flags command no direction exactly when on each
    of the three axes both keys or neither key is held: opposite keys
    cancel.  The target velocity is then zero and the velocity coasts
    with the time constant of [damping]. *)
Theorem opposite_keys_cancel :
  forall (s : FlightControls) (q : Quaternion),
    (commanded s = zero3 <->
     moveForward s = moveBackward s /\ moveLeft s = moveRight s /\
     moveUp s = moveDown s) /\
    (commanded s = zero3 ->
     targetVelocity s q = zero3 /\ dampingFactor (targetVelocity s q) = 5).
Proof.
  intros s q; split.
  - unfold commanded, zero3.
    destruct (moveForward s), (moveBackward s), (moveLeft s), (moveRight s),
      (moveUp s), (moveDown s); cbn; split;
      try (intros (H1 & H2 & H3); discriminate);
      try (intros _; repeat split; reflexivity);
      try (intros _; f_equal; lra);
      intros E; exfalso; injection E; intros; lra.
  - intros Hc; split;
      [apply targetVelocity_idle, Hc | apply dampingFactor_idle, Hc].
Qed.

Lemma opposite_keys_cancel_witness :
  targetVelocity
    (mkFlightControls true true false false false false true
                      zero3 zero3 (mkEuler 0 0 0) true None None)
    (quat 0 0 0 1) = zero3.
Proof.
  destruct (opposite_keys_cancel
              (mkFlightControls true true false false false false true
                                zero3 zero3 (mkEuler 0 0 0) true None None)
              (quat 0 0 0 1)) as [Hiff Hz].
  apply Hz, Hiff; repeat split.
Defined.

(** ** Without the pointer lock *)

Lemma step_unlocked (sc : FlightControls * Camera) (a : Action) :
  keepsLock a ->
  isLocked (fst sc) = false ->
  isLocked (fst (step sc a)) = false /\
  snd (step sc a) = snd sc /\
  velocity (fst (step sc a)) = velocity (fst sc) /\
  euler (fst (step sc a)) = euler (fst sc).
Proof.
  intros Ha Hu; destruct a as [ev | dt]; cbn [step].
  - destruct ev as [mx my | b | | code | code]; cbn in Ha |- *.
    + unfold onMouseMove; rewrite Hu; cbn; auto.
    + destruct Ha.
    + auto.
    + unfold onKeyDown; destruct (keyFlag code) as [f |]; [| auto].
      destruct f; cbn; auto.
    + unfold onKeyUp; destruct (keyFlag code) as [f |]; [| auto].
      destruct f; cbn; auto.
  - unfold update; rewrite Hu; cbn; auto.
Qed.

(** X24.  Without the pointer lock the controller is inert: over any
    sequence of pointer moves, key events, lock errors and frames that
    contains no change of the pointer lock, an unlocked controller stays
    unlocked and leaves the camera, the velocity and the orientation
    exactly as they were. *)
Theorem unlocked_controller_is_inert :
  forall (l : list Action) (s : FlightControls) (cam : Camera),
    Forall keepsLock l ->
    isLocked s = false ->
    isLocked (fst (run (s, cam) l)) = false /\
    snd (run (s, cam) l) = cam /\
    velocity (fst (run (s, cam) l)) = velocity s /\
    euler (fst (run (s, cam) l)) = euler s.
Proof.
  induction l as [| a l IH]; intros s cam Hl Hu; cbn [run fold_left].
  - auto.
  - inversion Hl as [| ? ? Ha Hl']; subst.
    destruct (step_unlocked (s, cam) a Ha Hu) as (H1 & H2 & H3 & H4).
    destruct (step (s, cam) a) as [s' cam'] eqn:E; cbn [fst snd] in *.
    destruct (IH s' cam' Hl' H1) as (G1 & G2 & G3 & G4).
    unfold run in *; rewrite G2, G3, G4; auto.
Qed.

Lemma unlocked_controller_is_inert_witness :
  snd (run (mkFlightControls false false false false false false false
                             (vec3 0 0 (- 30)) zero3 (mkEuler 0 0 0)
                             false None None,
            mkCamera (vec3 1 2 3) (quat 0 0 0 1))
           [Dom (KeyDown "KeyW"); Tick 0.5; Dom (MouseMove 40 2);
            Dom PointerLockError; Tick 0.016])
  = mkCamera (vec3 1 2 3) (quat 0 0 0 1).
Proof.
  refine (proj1 (proj2 (unlocked_controller_is_inert
                          [Dom (KeyDown "KeyW"); Tick 0.5;
                           Dom (MouseMove 40 2); Dom PointerLockError;
                           Tick 0.016]
                          (mkFlightControls false false false false false
                                            false false (vec3 0 0 (- 30))
                                            zero3 (mkEuler 0 0 0)
                                            false None None)
                          (mkCamera (vec3 1 2 3) (quat 0 0 0 1))
                          _ eq_refl))).
  repeat constructor.
Defined.

End FlightProps.

(* ------------------------------------------------------------------ *)
(** * Properties of the display of distances and speeds *)

Module UnitProps.

Import Units.
Import UnitsFormat.

Lemma formatDistance_near (d : R) :
  d < 0.425 -> formatDistance d = mkShown (d * 40000) 0 "km".
Proof.
  intros H; unfold formatDistance, AU_TO_SIMULATION, ORBIT_RADIUS_SCALE,
            KM_TO_SIMULATION, PLANET_RADIUS_SCALE.
  destruct (Rlt_dec (d / (50 * 0.85)) 0.01) as [_ | Hn].
  - f_equal; lra.
  - exfalso; apply Hn; lra.
Qed.

Lemma formatDistance_middle (d : R) :
  0.425 <= d -> d < 42.5 ->
  formatDistance d = mkShown (d / 42.5 * 149597870.7) 0 "km".
Proof.
  intros H1 H2; unfold formatDistance, AU_TO_SIMULATION, ORBIT_RADIUS_SCALE.
  destruct (Rlt_dec (d / (50 * 0.85)) 0.01) as [Hn | _]; [lra |].
  destruct (Rlt_dec (d / (50 * 0.85)) 1) as [_ | Hn].
  - f_equal; lra.
  - exfalso; apply Hn; lra.
Qed.

Lemma formatDistance_far (d : R) :
  42.5 <= d -> formatDistance d = mkShown (d / 42.5) 2 "AU".
Proof.
  intros H; unfold formatDistance, AU_TO_SIMULATION, ORBIT_RADIUS_SCALE.
  destruct (Rlt_dec (d / (50 * 0.85)) 0.01) as [Hn | _]; [lra |].
  destruct (Rlt_dec (d / (50 * 0.85)) 1) as [Hn | _]; [lra |].
  f_equal; lra.
Qed.

(** X28.  The display of a distance undoes the conversions of the data
    table in two of its three ranges: a length of less than 17000 km
    converted by [kmToSimulation] is shown as that many km, and an orbit
    radius of at least 1 AU converted by [auToSimulation] is shown as
    that many AU with two digits; an orbit radius from 0.01 AU up to
    1 AU is shown in km, at 149597870.7 km per AU. *)
Theorem formatDistance_round_trip :
  forall x : R,
    (x < 17000 ->
     formatDistance (kmToSimulation x) = mkShown x 0 "km") /\
    (0.01 <= x < 1 ->
     formatDistance (auToSimulation x) = mkShown (x * 149597870.7) 0 "km") /\
    (1 <= x ->
     formatDistance (auToSimulation x) = mkShown x 2 "AU").
Proof.
  intros x; unfold kmToSimulation, auToSimulation, AU_TO_SIMULATION,
            ORBIT_RADIUS_SCALE, KM_TO_SIMULATION, PLANET_RADIUS_SCALE.
  repeat split.
  - intros H; rewrite formatDistance_near by lra; f_equal; lra.
  - intros [H1 H2]; rewrite formatDistance_middle by lra; f_equal; lra.
  - intros H; rewrite formatDistance_far by lra; f_equal; lra.
Qed.

Lemma formatDistance_round_trip_witness :
  formatDistance (kmToSimulation 6371) = mkShown 6371 0 "km" /\
  formatDistance (auToSimulation 0.5) = mkShown (0.5 * 149597870.7) 0 "km" /\
  formatDistance (auToSimulation 9.54) = mkShown 9.54 2 "AU".
Proof.
  split; [| split].
  - apply (proj1 (formatDistance_round_trip 6371)); lra.
  - apply (proj1 (proj2 (formatDistance_round_trip 0.5))); lra.
  - apply (proj2 (proj2 (formatDistance_round_trip 9.54))); lra.
Defined.

(** X29.  The two ranges that are shown in km use different scales, so
    the number shown jumps where they meet (0.425 simulation units, that
    is 0.01 AU): below, a distance [d] is shown as [40000 d] km and so as
    less than 17000 km; from there on, up to 1 AU, it is shown at
    149597870.7 km per AU and so as more than 1495978 km. *)
Theorem formatDistance_km_jump :
  forall d1 d2 : R,
    d1 < 0.425 ->
    0.425 <= d2 < 42.5 ->
    unit (formatDistance d1) = "km"%string /\
    unit (formatDistance d2) = "km"%string /\
    value (formatDistance d1) = 40000 * d1 /\
    value (formatDistance d1) < 17000 /\
    1495978 < value (formatDistance d2).
Proof.
  intros d1 d2 H1 [H2 H3].
  rewrite (formatDistance_near d1 H1), (formatDistance_middle d2 H2 H3).
  cbn [unit value]; repeat split; lra.
Qed.

Lemma formatDistance_km_jump_witness :
  value (formatDistance 0.42) < 17000 /\
  1495978 < value (formatDistance 0.43).
Proof.
  pose proof (formatDistance_km_jump 0.42 0.43 ltac:(lra) ltac:(lra)) as H.
  split; apply H.
Defined.

(** X30.  Speeds and near distances are shown on different scales: a
    speed of [v] simulation units per second, from 1 km/s on, is shown
    as [100000 v] km/s, while a
    distance of [v] simulation units, when under 0.425, is shown as
    [40000 v] km: the speed shown is 2.5 times the distance covered in a
    second as the distance display counts it. *)
Theorem speed_and_distance_scales_differ :
  forall v : R,
    0.00001 <= v < 0.425 ->
    formatSpeed v = mkShown (100000 * v) 1 "km/s" /\
    formatDistance v = mkShown (40000 * v) 0 "km" /\
    value (formatSpeed v) = 2.5 * value (formatDistance v).
Proof.
  intros v [H1 H2].
  assert (Hs : formatSpeed v = mkShown (100000 * v) 1 "km/s").
  { unfold formatSpeed, KM_TO_SIMULATION.
    destruct (Rlt_dec (v / 0.00001) 1) as [Hn | _]; [lra |].
    f_equal; lra. }
  rewrite Hs, (formatDistance_near v H2); cbn [value].
  repeat split; [f_equal; lra | lra].
Qed.

Lemma speed_and_distance_scales_differ_witness :
  value (formatSpeed 0.3) = 2.5 * value (formatDistance 0.3).
Proof.
  apply (speed_and_distance_scales_differ 0.3); lra.
Defined.

End UnitProps.

(* ------------------------------------------------------------------ *)
(** * Properties of the frame loop in focus mode *)

Module AppProps.

Import Three.
Import SolarSystem.
Import App.
Import Spec.
Import SolarFacts.

Lemma updateMoon_keeps_position (t : R) (pp : Vector3) (moon : PlanetData) :
  SolarSystem.position moon <> None ->
  SolarSystem.position (updateMoon t pp moon) <> None.
Proof.
  destruct moon as [n r oR oP rP tl me po ms ol lb]; cbn.
  unfold updateMoon; cbn; intros H.
  destruct me; [destruct ol; cbn; discriminate | exact H].
Qed.

Lemma updatePlanet_keeps_position (t : R) (cam : Camera) (p : PlanetData) :
  SolarSystem.position p <> None ->
  SolarSystem.position (updatePlanet t cam p) <> None.
Proof.
  intros H; destruct (mesh p) as [m |] eqn:Em.
  - destruct (updatePlanet_fields t cam p m Em) as (_ & _ & _ & _ & -> & _).
    discriminate.
  - rewrite (updatePlanet_no_mesh t cam p Em); exact H.
Qed.

(** A body that has a position is found again after an update step,
    under the same reference, and has a position. *)
Lemma lookup_update_positioned (sys : SolarSystemObjects) (t : R)
      (cam : Camera) (r : BodyRef) (b : PlanetData) :
  lookup (planets sys) r = Some b ->
  SolarSystem.position b <> None ->
  exists b', lookup (planets (updateSolarSystem sys t cam)) r = Some b' /\
             SolarSystem.position b' <> None.
Proof.
  intros Hl Hp; destruct r as [i | i j].
  - rewrite lookup_planet_update, Hl; cbn [option_map].
    eexists; split; [reflexivity |].
    apply updatePlanet_keeps_position, Hp.
  - destruct (lookup (planets sys) (PlanetRef i)) as [p |] eqn:Ep.
    + destruct (mesh p) as [m |] eqn:Em.
      * rewrite (lookup_moon_update sys t cam i j p m Ep Em), Hl.
        cbn [option_map]; eexists; split; [reflexivity |].
        apply updateMoon_keeps_position, Hp.
      * exists b; split; [| exact Hp].
        cbn in *; rewrite nth_error_map, Ep; cbn [option_map].
        rewrite (updatePlanet_no_mesh t cam p Em).
        rewrite Ep in Hl; exact Hl.
    + cbn in *; rewrite Ep in Hl; discriminate.
Qed.

Lemma targetPosition_kept (fc : Focus.FocusControls)
      (sys : SolarSystemObjects) (t : R) (cam : Camera) :
  Focus.targetPosition fc (planets sys) <> None ->
  Focus.targetPosition fc (planets (updateSolarSystem sys t cam)) <> None.
Proof.
  unfold Focus.targetPosition.
  destruct (Focus.targetPlanet fc) as [r |]; [| auto].
  destruct (lookup (planets sys) r) as [b |] eqn:El; [| congruence].
  intros Hp.
  destruct (lookup_update_positioned sys t cam r b El Hp) as (b' & -> & Hb').
  exact Hb'.
Qed.

(** One frame of an application that follows a body. *)
Lemma animate_following (a : CosmosApp) (dt : R) :
  Props.following a ->
  Props.following (fst (animate a dt)) /\
  flightControls (fst (animate a dt)) = flightControls a /\
  Focus.transitionProgress (focusControls (fst (animate a dt)))
  = Rmin (Focus.transitionProgress (focusControls a) + dt * 2) 1 /\
  Focus.orbitAngle (focusControls (fst (animate a dt)))
  = Focus.orbitAngle (focusControls a) + 0.3 * dt /\
  Focus.targetPlanet (focusControls (fst (animate a dt)))
  = Focus.targetPlanet (focusControls a) /\
  Focus.orbitRadius (focusControls (fst (animate a dt)))
  = Focus.orbitRadius (focusControls a) /\
  time (fst (animate a dt)) = time a + dt.
Proof.
  intros (Hr & Hf & Ht).
  destruct (AppFacts.animate_fields a dt Hr) as (Htime & Hrun & Hc & Hs & _).
  unfold updateControls, Focus.getIsFocused in Hc; rewrite Hf in Hc.
  unfold Focus.update in Hc; rewrite Hf in Hc; cbn [negb] in Hc.
  destruct (Focus.targetPosition (focusControls a) (planets (solarSystem a)))
    as [target |] eqn:Et; [| congruence].
  cbv zeta in Hc.
  injection Hc as Hfl Hfc Hcam.
  unfold Props.following.
  rewrite Hfl, Hfc, Hs, Hrun, Htime;
    cbn [Focus.isFocused Focus.transitionProgress Focus.orbitAngle
         Focus.targetPlanet Focus.orbitRadius].
  repeat split; try assumption; try reflexivity.
  apply targetPosition_kept.
  change (Focus.targetPosition (focusControls a) (planets (solarSystem a))
          <> None).
  rewrite Et; discriminate.
Qed.

(** X18.  The timing of focus mode does not depend on the frame rate.
    While the application follows a body, frames with any non-negative
    deltas leave the entry transition at [min (progress + 2 T, 1)] and
    the orbit angle advanced by [0.3 T], [T] being the sum of the deltas:
    the transition takes half a second of frame time and the camera
    circles the body at 0.3 radians per second.  The target and the orbit
    radius stay, the free-flight controller is not touched, and the
    application keeps following. *)
Theorem focus_timing_frame_independent :
  forall (a : CosmosApp) (deltas : list R),
    Props.following a ->
    Focus.transitionProgress (focusControls a) <= 1 ->
    Forall (fun dt => 0 <= dt) deltas ->
    let a' := frames a deltas in
    Props.following a' /\
    Focus.transitionProgress (focusControls a')
    = Rmin (Focus.transitionProgress (focusControls a) + 2 * total deltas) 1 /\
    Focus.orbitAngle (focusControls a')
    = Focus.orbitAngle (focusControls a) + 0.3 * total deltas /\
    Focus.targetPlanet (focusControls a')
    = Focus.targetPlanet (focusControls a) /\
    Focus.orbitRadius (focusControls a')
    = Focus.orbitRadius (focusControls a) /\
    flightControls a' = flightControls a /\
    time a' = time a + total deltas.
Proof.
  intros a deltas; revert a.
  induction deltas as [| dt rest IH]; intros a Hf Hp Hd; cbv zeta.
  - cbn [frames fold_left total fold_right].
    rewrite Rmin_left by lra.
    repeat split; try apply Hf; try reflexivity; lra.
  - inversion Hd as [| ? ? Hdt Hrest]; subst.
    destruct (animate_following a dt Hf)
      as (Hf1 & Hfl & Hpr & Han & Htg & Hor & Htm).
    assert (Hp1 : Focus.transitionProgress
                    (focusControls (fst (animate a dt))) <= 1)
      by (rewrite Hpr; apply Rmin_r).
    specialize (IH (fst (animate a dt)) Hf1 Hp1 Hrest); cbv zeta in IH.
    destruct IH as (G1 & G2 & G3 & G4 & G5 & G6 & G7).
    change (frames a (dt :: rest)) with (frames (fst (animate a dt)) rest).
    change (total (dt :: rest)) with (dt + total rest).
    assert (Ht : 0 <= total rest).
    { clear - Hrest; induction Hrest; cbn; [lra |].
      fold (total l); lra. }
    split; [exact G1 |].
    split.
    { rewrite G2, Hpr.
      set (p := Focus.transitionProgress (focusControls a)) in *.
      set (T := total rest) in *.
      clear - Hdt Ht Hp.
      destruct (Rle_lt_dec (p + dt * 2) 1) as [Hle | Hgt].
      - rewrite (Rmin_left (p + dt * 2) 1) by exact Hle.
        f_equal; ring.
      - rewrite (Rmin_right (p + dt * 2) 1) by lra.
        rewrite !Rmin_right by lra; reflexivity. }
    split; [rewrite G3, Han; ring |].
    split; [rewrite G4; exact Htg |].
    split; [rewrite G5; exact Hor |].
    split; [rewrite G6; exact Hfl |].
    rewrite G7, Htm; ring.
Qed.

Lemma app10_following : Props.following Examples.app10.
Proof.
  repeat split; cbn; discriminate.
Qed.

Lemma focus_timing_frame_independent_witness :
  Focus.transitionProgress
    (focusControls (frames Examples.app10 [0.016; 0.02]))
  = Rmin (Focus.transitionProgress (focusControls Examples.app10)
          + 2 * total [0.016; 0.02]) 1 /\
  Focus.orbitAngle (focusControls (frames Examples.app10 [0.016; 0.02]))
  = Focus.orbitAngle (focusControls Examples.app10)
    + 0.3 * total [0.016; 0.02].
Proof.
  assert (Hp : Focus.transitionProgress (focusControls Examples.app10) <= 1)
    by (cbn; lra).
  assert (Hd : Forall (fun dt => 0 <= dt) [0.016; 0.02])
    by (repeat constructor; lra).
  destruct (focus_timing_frame_independent
              Examples.app10 [0.016; 0.02] app10_following Hp Hd)
    as (_ & H1 & H2 & _).
  split; assumption.
Defined.

End AppProps.

(* ------------------------------------------------------------------ *)
(** * Properties of the application under any sequence of events *)

Module UiProps.

Import Three.
Import SolarSystem.
Import Ui.

Lemma andAlso_keeps (Q : State -> Prop) (E : Flight.Effect -> Prop)
      (r : State * list Flight.Effect)
      (k : State -> State * list Flight.Effect) :
  Q (fst r) /\ Forall E (snd r) ->
  (forall s, Q s -> Q (fst (k s)) /\ Forall E (snd (k s))) ->
  Q (fst (andAlso r k)) /\ Forall E (snd (andAlso r k)).
Proof.
  intros [Hq He] Hk; unfold andAlso.
  destruct (Hk (fst r) Hq) as [Hq' He'].
  destruct (k (fst r)) as [s' es']; cbn [fst snd] in *.
  split; [exact Hq' | apply Forall_app; split; assumption].
Qed.

Lemma andAlso_pair (s : State) (es : list Flight.Effect)
      (k : State -> State * list Flight.Effect) :
  andAlso (s, es) k = (fst (k s), es ++ snd (k s)).
Proof. unfold andAlso; cbn [fst snd]; destruct (k s); reflexivity. Qed.

(** ** What the handlers keep *)

Lemma flight_handlers_velocity (f : Flight.FlightControls) :
  (forall code, Flight.velocity (Flight.onKeyDown f code) = Flight.velocity f)
  /\ (forall code, Flight.velocity (Flight.onKeyUp f code) = Flight.velocity f)
  /\ (forall mx my,
         Flight.velocity (Flight.onMouseMove f mx my) = Flight.velocity f)
  /\ (forall b, Flight.velocity (fst (Flight.onPointerlockChange f b))
                = Flight.velocity f).
Proof.
  repeat split; intros.
  - unfold Flight.onKeyDown; destruct (Flight.keyFlag code) as [[] |];
      reflexivity.
  - unfold Flight.onKeyUp; destruct (Flight.keyFlag code) as [[] |];
      reflexivity.
  - unfold Flight.onMouseMove; destruct (negb (Flight.isLocked f));
      reflexivity.
  - unfold Flight.onPointerlockChange; cbn; destruct b; reflexivity.
Qed.

Lemma focusOnNearest_mode (fc : Focus.FocusControls) (cam : Camera)
      (ps : list PlanetData) :
  (Focus.isFocused (fst (snd (Focus.focusOnNearest fc cam ps))) = true /\
   Focus.targetPlanet (fst (snd (Focus.focusOnNearest fc cam ps))) <> None)
  \/ fst (snd (Focus.focusOnNearest fc cam ps)) = fc.
Proof.
  unfold Focus.focusOnNearest.
  destruct (Focus.nearest _) as [[r b] |]; cbn [fst snd]; [| auto].
  unfold Focus.focusOnPlanet.
  destruct (mesh b), (SolarSystem.position b); cbn; auto.
  left; split; [reflexivity | discriminate].
Qed.

Lemma update_mode (fc : Focus.FocusControls) (cam : Camera)
      (ps : list PlanetData) (dt : R) :
  Focus.isFocused (fst (Focus.update fc cam ps dt)) = Focus.isFocused fc /\
  Focus.targetPlanet (fst (Focus.update fc cam ps dt))
  = Focus.targetPlanet fc.
Proof.
  unfold Focus.update.
  destruct (negb (Focus.isFocused fc)); [auto |].
  destruct (Focus.targetPosition fc ps); cbn; auto.
Qed.

Lemma animate_mode (a : App.CosmosApp) (dt : R) :
  Focus.isFocused (App.focusControls (fst (App.animate a dt)))
  = Focus.isFocused (App.focusControls a) /\
  Focus.targetPlanet (App.focusControls (fst (App.animate a dt)))
  = Focus.targetPlanet (App.focusControls a) /\
  (Focus.isFocused (App.focusControls a) = true ->
   App.flightControls (fst (App.animate a dt)) = App.flightControls a) /\
  App.isRunning (fst (App.animate a dt)) = App.isRunning a.
Proof.
  unfold App.animate.
  destruct (App.isRunning a) eqn:Er; cbn [negb fst]; [| auto].
  unfold App.updateControls, Focus.getIsFocused.
  destruct (Focus.isFocused (App.focusControls a)) eqn:Ef.
  - pose proof (update_mode (App.focusControls a) (App.camera a)
                            (planets (App.solarSystem a)) dt) as [H1 H2].
    destruct (Focus.update _ _ _ _) as [fc cam]; cbn in *.
    rewrite H1, H2, Ef; auto.
  - destruct (Flight.update _ _ _) as [fl cam]; cbn.
    rewrite Ef; repeat split; discriminate.
Qed.

Lemma modeOk_flight (a : App.CosmosApp) (f : Flight.FlightControls) :
  Flight.velocity f = Flight.velocity (App.flightControls a) ->
  Props.modeOk a ->
  Props.modeOk (App.mkCosmosApp (App.camera a) f (App.focusControls a)
                                (App.solarSystem a) (App.time a)
                                (App.isRunning a)).
Proof.
  intros Hv [H1 H2]; split; cbn; [exact H1 |].
  intros Hf; rewrite Hv; apply H2, Hf.
Qed.

Lemma onKeyF_inv (a : App.CosmosApp) :
  Props.modeOk a -> Props.modeOk (App.onKeyF a) /\
                    App.isRunning (App.onKeyF a) = App.isRunning a.
Proof.
  intros Hok; pose proof Hok as [H1 H2];
    unfold App.onKeyF, Focus.getIsFocused.
  destruct (Focus.isFocused (App.focusControls a)) eqn:Ef; cbn [negb].
  - split; [exact Hok | reflexivity].
  - pose proof (focusOnNearest_mode (App.focusControls a) (App.camera a)
                                    (planets (App.solarSystem a))) as Hm.
    destruct (Focus.focusOnNearest _ _ _) as [res [fc cam]].
    cbn [fst snd] in Hm; split; [| reflexivity].
    split; cbn; [| reflexivity].
    destruct Hm as [[Hf Ht] | ->].
    + rewrite Hf; split; auto.
    + rewrite Ef in *; exact H1.
Qed.

Lemma onKeyG_inv (a : App.CosmosApp) :
  Props.modeOk a -> Props.modeOk (App.onKeyG a) /\
                    App.isRunning (App.onKeyG a) = App.isRunning a.
Proof.
  intros [H1 H2]; unfold App.onKeyG, Focus.returnToFreeFlight.
  split; [| reflexivity]; split; cbn.
  - destruct (Focus.isFocused (App.focusControls a)) eqn:Ef; cbn.
    + split; [discriminate | congruence].
    + rewrite Ef; exact H1.
  - destruct (Focus.isFocused (App.focusControls a)) eqn:Ef; cbn.
    + discriminate.
    + rewrite Ef; discriminate.
Qed.

Ltac stage :=
  let s := fresh "s" in
  let Hs := fresh "Hs" in
  intros s Hs;
  unfold helpToggle, helpHide, helpShow, settingsToggle, settingsHide,
         settingsShow, skip;
  repeat match goal with
         | |- context [if ?c then _ else _] => destruct c eqn:?
         end;
  cbn [fst snd app helpVisible settingsVisible];
  (split; [| repeat constructor]).

Lemma onKeyDown_inv (st : State) (code : string) :
  Props.appOk st -> Props.appOk (fst (onKeyDown st code)).
Proof.
  intros [Hm Hr].
  refine (proj1 (_ : Props.appOk (fst (onKeyDown st code))
                     /\ Forall (fun _ => True) (snd (onKeyDown st code)))).
  unfold onKeyDown.
  repeat apply andAlso_keeps;
    try (stage; try exact Hs;
         try (destruct Hs as [Hs1 Hs2]; split; cbn [app withApp];
              [apply onKeyF_inv, Hs1
              | rewrite (proj2 (onKeyF_inv _ Hs1)); exact Hs2]);
         try (destruct Hs as [Hs1 Hs2]; split; cbn [app withApp];
              [apply onKeyG_inv, Hs1
              | rewrite (proj2 (onKeyG_inv _ Hs1)); exact Hs2])).
  cbn [fst snd]; split; [| constructor].
  split; [| exact Hr].
  apply modeOk_flight; [apply flight_handlers_velocity | exact Hm].
Qed.

Lemma handle_inv (st : State) (ev : Event) :
  Props.appOk st -> Props.appOk (fst (handle st ev)).
Proof.
  intros Hi; destruct ev; cbn [handle].
  - apply onKeyDown_inv, Hi.
  - destruct Hi as [Hm Hr]; split; [| exact Hr].
    apply modeOk_flight; [apply flight_handlers_velocity | exact Hm].
  - destruct Hi as [Hm Hr]; split; [| exact Hr].
    apply modeOk_flight; [apply flight_handlers_velocity | exact Hm].
  - destruct Hi as [Hm Hr].
    pose proof (proj2 (proj2 (proj2 (flight_handlers_velocity
                  (App.flightControls (app st))))) onDomElement) as Hv.
    destruct (Flight.onPointerlockChange _ _) as [f es]; cbn [fst] in *.
    split; [| exact Hr].
    apply modeOk_flight; [exact Hv | exact Hm].
  - destruct st as [[cam fl fo so t r] h s]; exact Hi.
  - unfold onClickCanvas, skip.
    destruct (andb _ _); exact Hi.
  - exact Hi.
  - exact Hi.
  - destruct Hi as [[H1 H2] Hr].
    destruct (animate_mode (app st) deltaTime) as (Hf & Ht & Hfl & Hrun).
    unfold Props.appOk; cbn [fst app withApp].
    split; [| rewrite Hrun; exact Hr].
    split; [rewrite Hf, Ht; exact H1 |].
    rewrite Hf; intros E; rewrite (Hfl E); apply H2, E.
Qed.

Lemma run_inv (events : list Event) :
  forall st, Props.appOk st -> Props.appOk (run st events).
Proof.
  induction events as [| ev rest IH]; intros st Hi; [exact Hi |].
  apply IH, handle_inv, Hi.
Qed.

Lemma initial_inv (cam : Camera) (e : Euler) (solar : SolarSystemObjects) :
  Props.appOk (initial cam e solar).
Proof.
  split; [| reflexivity].
  split; cbn; [split; [discriminate | congruence] | reflexivity].
Qed.

Lemma hudData_ok (fl : Flight.FlightControls) (fo : Focus.FocusControls)
      (cam : Camera) (ps : list PlanetData) :
  (Focus.isFocused fo = true <-> Focus.targetPlanet fo <> None) ->
  Props.hudOk (App.hudData fl fo cam ps).
Proof.
  intros H; unfold Props.hudOk, App.hudData, Focus.getIsFocused,
            Focus.getTargetPlanet; cbn.
  destruct (Focus.isFocused fo) eqn:Ef.
  - split; [reflexivity | apply H; reflexivity].
  - split; [| reflexivity].
    destruct (Focus.targetPlanet fo) as [r |]; [| reflexivity].
    assert (false = true) by (apply H; discriminate); discriminate.
Qed.

(** X25.  Mode, target and HUD agree in every state the application can
    reach.  Starting from the state [init] leaves, after any sequence of
    key, mouse, pointer-lock and click events and frames: focus mode is
    on exactly when a target is set; while it is on, the free-flight
    velocity is zero; and the next frame hands the HUD, in focus mode, a
    target and speed 0 and, in free flight, no target and distance 0. *)
Theorem hud_agrees_with_mode :
  forall (cam : Camera) (e : Euler) (solar : SolarSystemObjects)
         (events : list Event) (dt : R),
    let st := run (initial cam e solar) events in
    Props.modeOk (app st) /\
    exists h : App.HudData,
      snd (App.animate (app st) dt) = Some h /\ Props.hudOk h.
Proof.
  intros cam e solar events dt st.
  destruct (run_inv events _ (initial_inv cam e solar)) as [Hm Hr].
  fold st in Hm, Hr; split; [exact Hm |].
  destruct (AppFacts.animate_fields (app st) dt Hr) as (_ & _ & _ & _ & Hh).
  eexists; split; [exact Hh |].
  apply hudData_ok.
  destruct (animate_mode (app st) dt) as (Hf & Ht & _).
  rewrite Hf, Ht; apply Hm.
Qed.

(** X26.  Leaving focus mode.  In a state where mode, target and
    velocity agree -- every reachable state -- with focus mode on and no
    panel open, the key G switches to free flight with no target, and
    free flight resumes at rest: the speed is 0, the camera stays where
    focus mode left it, the free-flight controller is as it was
    (pointer lock included) and nothing is asked of the browser. *)
Theorem free_flight_resumes_at_rest :
  forall st : State,
    Props.modeOk (app st) ->
    Focus.isFocused (App.focusControls (app st)) = true ->
    ~ Props.panelOpen st ->
    let r := handle st (KeyDown "KeyG") in
    Focus.isFocused (App.focusControls (app (fst r))) = false /\
    Focus.targetPlanet (App.focusControls (app (fst r))) = None /\
    Flight.getSpeed (App.flightControls (app (fst r))) = 0 /\
    App.flightControls (app (fst r)) = App.flightControls (app st) /\
    App.camera (app (fst r)) = App.camera (app st) /\
    snd r = [].
Proof.
  intros [[cam fl fo so t run] h s] [_ Hv] Hf Hp; cbn in Hv, Hf.
  assert (Hh : h = false)
    by (destruct h; [exfalso; apply Hp; left; reflexivity | reflexivity]).
  assert (Hs : s = false)
    by (destruct s; [exfalso; apply Hp; right; reflexivity | reflexivity]).
  subst h s; cbv zeta.
  unfold handle, onKeyDown.
  change (Flight.onKeyDown
            (App.flightControls
               (app (mkState (App.mkCosmosApp cam fl fo so t run)
                             false false))) "KeyG")
    with fl.
  repeat (rewrite andAlso_pair;
          cbn [String.eqb Ascii.eqb Bool.eqb andb negb fst snd app skip
               helpVisible settingsVisible withFlight withApp List.app
               App.camera App.flightControls App.focusControls
               App.solarSystem App.time App.isRunning]).
  unfold App.onKeyG, Focus.returnToFreeFlight;
    cbn [App.focusControls App.flightControls App.camera].
  rewrite Hf; cbn [negb Focus.isFocused Focus.targetPlanet].
  repeat split.
  unfold Flight.getSpeed; rewrite (Hv Hf); apply MathFacts.length_zero3.
Qed.

Lemma free_flight_resumes_at_rest_witness :
  Flight.getSpeed
    (App.flightControls
       (app (fst (handle (mkState Examples.app10 false false)
                         (KeyDown "KeyG"))))) = 0.
Proof.
  assert (Hm : Props.modeOk (app (mkState Examples.app10 false false))).
  { split; cbn; [split; [discriminate | reflexivity] | reflexivity]. }
  assert (Hp : ~ Props.panelOpen (mkState Examples.app10 false false)).
  { intros [H | H]; discriminate H. }
  exact (proj1 (proj2 (proj2
           (free_flight_resumes_at_rest (mkState Examples.app10 false false)
                                        Hm eq_refl Hp)))).
Defined.

(** ** An open panel *)

Ltac decide_conditions :=
  repeat match goal with
         | |- context [if ?c then _ else _] => destruct c eqn:?
         end;
  repeat match goal with
         | H : andb _ _ = true |- _ =>
             apply andb_prop in H; destruct H
         | H : negb _ = true |- _ => apply negb_true_iff in H
         | H : String.eqb _ _ = true |- _ =>
             apply String.eqb_eq in H; subst
         end.

Lemma onKeyDown_panel (st : State) (code : string) :
  Props.panelOpen st ->
  (Focus.isFocused (App.focusControls (app (fst (onKeyDown st code))))
   = Focus.isFocused (App.focusControls (app st)) /\
   Focus.targetPlanet (App.focusControls (app (fst (onKeyDown st code))))
   = Focus.targetPlanet (App.focusControls (app st))) /\
  Forall (fun e => e <> Flight.RequestPointerLock) (snd (onKeyDown st code)).
Proof.
  intros Hopen.
  pose (Q := fun s : State =>
               (Focus.isFocused (App.focusControls (app s))
                = Focus.isFocused (App.focusControls (app st)) /\
                Focus.targetPlanet (App.focusControls (app s))
                = Focus.targetPlanet (App.focusControls (app st))) /\
               (code = "KeyF"%string \/ code = "KeyG"%string ->
                Props.panelOpen s)).
  enough (H : Q (fst (onKeyDown st code)) /\
              Forall (fun e => e <> Flight.RequestPointerLock)
                     (snd (onKeyDown st code)))
    by (split; [apply H | apply H]).
  unfold onKeyDown.
  repeat apply andAlso_keeps;
    try (intros s [Hs Hp];
         unfold helpToggle, helpHide, helpShow, settingsToggle, settingsHide,
                settingsShow, skip, Flight.unlock;
         decide_conditions;
         cbn [fst snd app helpVisible settingsVisible];
         try (exfalso; destruct (Hp (or_introl eq_refl)) as [E | E];
              cbn in E; congruence);
         try (exfalso; destruct (Hp (or_intror eq_refl)) as [E | E];
              cbn in E; congruence);
         (split; [| repeat constructor; discriminate]);
         (split; [exact Hs |]);
         try exact Hp;
         intros [E | E]; discriminate E).
  cbn [fst snd]; split; [| constructor].
  split; [split; reflexivity | intros _; exact Hopen].
Qed.

(** X27.  While the help overlay or the settings panel is open, no
    event changes the mode: whatever arrives -- any key, the keys F and G
    included, a click on the canvas, mouse and pointer-lock events, a
    frame -- focus mode stays on or off as it was, the target stays the
    same, and the browser is never asked to lock the pointer. *)
Theorem open_panel_blocks_mode_switch :
  forall (st : State) (ev : Event),
    Props.panelOpen st ->
    Focus.isFocused (App.focusControls (app (fst (handle st ev))))
    = Focus.isFocused (App.focusControls (app st)) /\
    Focus.targetPlanet (App.focusControls (app (fst (handle st ev))))
    = Focus.targetPlanet (App.focusControls (app st)) /\
    Forall (fun e => e <> Flight.RequestPointerLock) (snd (handle st ev)).
Proof.
  intros st ev Hopen.
  enough (H : (Focus.isFocused (App.focusControls (app (fst (handle st ev))))
               = Focus.isFocused (App.focusControls (app st)) /\
               Focus.targetPlanet
                 (App.focusControls (app (fst (handle st ev))))
               = Focus.targetPlanet (App.focusControls (app st))) /\
              Forall (fun e => e <> Flight.RequestPointerLock)
                     (snd (handle st ev)))
    by (destruct H as [[H1 H2] H3]; auto).
  destruct ev; cbn [handle].
  - apply onKeyDown_panel, Hopen.
  - cbn; auto.
  - cbn; auto.
  - unfold Flight.onPointerlockChange; cbn.
    destruct onDomElement; cbn; (split; [auto |]);
      unfold Flight.invoke;
      match goal with
      | |- context [match ?c with _ => _ end] => destruct c
      end; repeat constructor; discriminate.
  - cbn; split; [auto | repeat constructor; discriminate].
  - unfold onClickCanvas, skip.
    destruct (andb _ _) eqn:Ec; [| cbn; auto].
    exfalso.
    apply andb_prop in Ec; destruct Ec as [_ Ec].
    apply andb_prop in Ec; destruct Ec as [E1 E2].
    apply negb_true_iff in E1, E2.
    destruct Hopen as [E | E]; congruence.
  - cbn; auto.
  - cbn; auto.
  - destruct (animate_mode (app st) deltaTime) as (Hf & Ht & _).
    cbn [fst snd app withApp]; auto.
Qed.

Lemma open_panel_blocks_mode_switch_witness :
  Focus.isFocused
    (App.focusControls
       (app (fst (handle (mkState Examples.app10 true false)
                         (KeyDown "KeyG")))))
  = Focus.isFocused (App.focusControls Examples.app10).
Proof.
  exact (proj1 (open_panel_blocks_mode_switch
                  (mkState Examples.app10 true false) (KeyDown "KeyG")
                  (or_introl eq_refl))).
Defined.

End UiProps.
